(** * Explicto-Nummus: the statement import pipeline of [database.py]

    A shallow embedding of [BankDatabase] (src/database.py): the scalar
    parsers [parse_amount] and [parse_date], identity resolution
    ([get_or_create_bank], [get_or_create_account]) and the import
    orchestrator [import_csv_data], over an explicit model of the SQLite
    connection (committed store, open transaction, injected statement
    failures); then the queries [get_all_transactions] and
    [get_account_balance_history], and the commands of src/main.py that
    call them ([import_csv_file], [list_transactions],
    [show_balance_history], [print_transactions]) with what they print.
    [get_monthly_summary] is left out: its sums are floating-point sums
    whose result depends on the engine.

    Python text is modelled as [string] (ASCII characters); the library
    calls the source makes ([str.strip], [decimal.Decimal],
    [datetime.strptime], [float], [pandas.read_csv]) are modelled from the
    behaviour CPython documents for them, each next to its use. *)

From Stdlib Require Import String Ascii List ZArith NArith QArith Lia Bool.
From Stdlib Require Import DecimalString Permutation Sorted.
Import ListNotations.

Local Open Scope string_scope.
Local Open Scope Z_scope.

(** ** Python strings *)

Module PyStr.

(** [str.isspace] on the ASCII range: TAB, LF, VT, FF, CR, FS, GS, RS, US
    and space. *)
Definition isspace (c : ascii) : bool :=
  let n := nat_of_ascii c in
  ((9 <=? n)%nat && (n <=? 13)%nat) || ((28 <=? n)%nat && (n <=? 32)%nat).

Fixpoint lstrip (s : string) : string :=
  match s with
  | EmptyString => EmptyString
  | String c s' => if isspace c then lstrip s' else s
  end.

Fixpoint rstrip (s : string) : string :=
  match s with
  | EmptyString => EmptyString
  | String c s' =>
      match rstrip s' with
      | EmptyString => if isspace c then EmptyString else String c EmptyString
      | r => String c r
      end
  end.

(** [s.strip()] *)
Definition strip (s : string) : string := rstrip (lstrip s).

(** [s.replace(c, '')] for a one-character [c] *)
Fixpoint remove_char (c : ascii) (s : string) : string :=
  match s with
  | EmptyString => EmptyString
  | String a s' =>
      if Ascii.eqb a c then remove_char c s' else String a (remove_char c s')
  end.

(** [s.startswith(c)] and [s.endswith(c)] for a one-character [c] *)
Definition startswith (c : ascii) (s : string) : bool :=
  match s with
  | EmptyString => false
  | String a _ => Ascii.eqb a c
  end.

Fixpoint endswith (c : ascii) (s : string) : bool :=
  match s with
  | EmptyString => false
  | String a EmptyString => Ascii.eqb a c
  | String _ s' => endswith c s'
  end.

(** [s[:-1]] *)
Fixpoint drop_last (s : string) : string :=
  match s with
  | EmptyString => EmptyString
  | String _ EmptyString => EmptyString
  | String a s' => String a (drop_last s')
  end.

(** [s[1:-1]] *)
Definition slice_1_m1 (s : string) : string :=
  match s with
  | EmptyString => EmptyString
  | String _ s' => drop_last s'
  end.

(** [p in s] (substring test) *)
Fixpoint contains (p s : string) : bool :=
  String.prefix p s ||
  match s with
  | EmptyString => false
  | String _ s' => contains p s'
  end.

Fixpoint all_chars (f : ascii -> bool) (s : string) : bool :=
  match s with
  | EmptyString => true
  | String c s' => f c && all_chars f s'
  end.

(** ASCII lower-casing, for the case-insensitive matches of [Decimal]. *)
Definition lower (c : ascii) : ascii :=
  let n := nat_of_ascii c in
  if (65 <=? n)%nat && (n <=? 90)%nat then ascii_of_nat (n + 32) else c.

Fixpoint lower_str (s : string) : string :=
  match s with
  | EmptyString => EmptyString
  | String c s' => String (lower c) (lower_str s')
  end.

Definition is_digit (c : ascii) : bool :=
  let n := nat_of_ascii c in (48 <=? n)%nat && (n <=? 57)%nat.

Definition digit_val (c : ascii) : N := N.of_nat (nat_of_ascii c - 48).

(** The longest prefix of digits, and what follows it. *)
Fixpoint span_digits (s : string) : string * string :=
  match s with
  | EmptyString => (EmptyString, EmptyString)
  | String c s' =>
      if is_digit c
      then let '(d, r) := span_digits s' in (String c d, r)
      else (EmptyString, s)
  end.

(** [int(ds)] for a string of decimal digits, from the accumulator [acc]. *)
Fixpoint int_of_digits_from (acc : N) (ds : string) : N :=
  match ds with
  | EmptyString => acc
  | String c ds' => int_of_digits_from (10 * acc + digit_val c)%N ds'
  end.

Definition int_of_digits (ds : string) : N := int_of_digits_from 0%N ds.

(** [str(n)] for a natural number. *)
Definition str_of_nat (n : nat) : string :=
  NilZero.string_of_uint (Nat.to_uint n).

(** [str(z)] for a non-negative integer. *)
Definition str_of_Z (z : Z) : string :=
  NilZero.string_of_uint (N.to_uint (Z.to_N z)).

(** [str(z)] for any integer. *)
Definition str_of_int (z : Z) : string :=
  if z <? 0 then String "-"%char (str_of_Z (- z)) else str_of_Z z.

(** [s.zfill(w)]-style left padding with zeros, as [%04d] and [%02d]. *)
Fixpoint zeros (k : nat) : string :=
  match k with
  | O => EmptyString
  | S k' => String "0"%char (zeros k')
  end.

Definition pad_left (w : nat) (s : string) : string :=
  zeros (w - String.length s) ++ s.

End PyStr.

(** ** Exceptions

    An exception is its class and the text [str(e)] gives for it. *)

Inductive ExnClass : Type :=
| ValueError
| InvalidOperation      (* decimal.InvalidOperation *)
| DecimalOverflow       (* decimal.Overflow *)
| IndexError
| OSError               (* FileNotFoundError, pandas parser errors *)
| DatabaseError         (* sqlite3.OperationalError, IntegrityError, ... *)
| PyTypeError.          (* TypeError *)

Record Exn : Type := mkExn { exn_class : ExnClass; exn_str : string }.

(** A value or a raised exception. *)
Definition Res (A : Type) : Type := (Exn + A)%type.
Definition Ok {A : Type} (a : A) : Res A := inr a.
Definition Raise {A : Type} (e : Exn) : Res A := inl e.

Definition res_bind {A B : Type} (r : Res A) (k : A -> Res B) : Res B :=
  match r with
  | inl e => inl e
  | inr a => k a
  end.

(** ** [decimal.Decimal]

    Modelled from the Python documentation of the [decimal] module (the
    numeric-string grammar of the constructor, the default context:
    precision 28, ROUND_HALF_EVEN, Emax 999999, Emin -999999, traps on
    InvalidOperation and Overflow). A finite value is sign, coefficient and
    exponent: (-1)^neg * coeff * 10^exp. *)

Module Dec.
Import PyStr.

Inductive Decimal : Type :=
| DFin (neg : bool) (coeff : N) (exp : Z)
| DInf (neg : bool)
| DNaN (neg : bool) (signaling : bool) (diag : N).

(** [str(e)] of the exceptions the C implementation raises. *)
Definition conversion_syntax : Exn :=
  mkExn InvalidOperation "[<class 'decimal.ConversionSyntax'>]".
Definition invalid_operation : Exn :=
  mkExn InvalidOperation "[<class 'decimal.InvalidOperation'>]".
Definition overflow : Exn :=
  mkExn DecimalOverflow "[<class 'decimal.Overflow'>]".

Definition parse_sign (s : string) : bool * string :=
  match s with
  | String "-"%char r => (true, r)
  | String "+"%char r => (false, r)
  | _ => (false, s)
  end.

(** The optional exponent part [E[+-]digits], up to the end of the text. *)
Definition parse_exponent (s : string) : option Z :=
  match s with
  | EmptyString => Some 0
  | String "e"%char r =>
      let '(neg, r') := parse_sign r in
      match span_digits r' with
      | (String c ds, EmptyString) =>
          let n := Z.of_N (int_of_digits (String c ds)) in
          Some (if neg then - n else n)
      | _ => None
      end
  | _ => None
  end.

(** [digits [. digits]] or [. digits], then the optional exponent. *)
Definition parse_finite (s : string) : option (N * Z) :=
  let '(ip, r1) := span_digits s in
  let '(fp, r2) :=
    match r1 with
    | String "."%char r => span_digits r
    | _ => (EmptyString, r1)
    end in
  match ip, fp with
  | EmptyString, EmptyString => None
  | _, _ =>
      match parse_exponent r2 with
      | Some e =>
          Some (int_of_digits (ip ++ fp), e - Z.of_nat (String.length fp))
      | None => None
      end
  end.

(** [[s]NaN[digits]] *)
Definition parse_nan (s : string) : option (bool * N) :=
  let '(sg, r) :=
    match s with
    | String "s"%char r => (true, r)
    | _ => (false, s)
    end in
  match r with
  | String "n"%char (String "a"%char (String "n"%char d)) =>
      if all_chars is_digit d then Some (sg, int_of_digits d) else None
  | _ => None
  end.

(** [Decimal(s)]: surrounding whitespace and underscores are dropped, the
    match is case-insensitive, and the conversion is exact. *)
Definition of_str (s : string) : Res Decimal :=
  let t := lower_str (remove_char "_"%char (strip s)) in
  let '(neg, body) := parse_sign t in
  match parse_finite body with
  | Some (c, e) => Ok (DFin neg c e)
  | None =>
      if (body =? "inf")%string || (body =? "infinity")%string
      then Ok (DInf neg)
      else match parse_nan body with
           | Some (sg, d) => Ok (DNaN neg sg d)
           | None => Raise conversion_syntax
           end
  end.

(** [Decimal('0.00')] *)
Definition zero_00 : Decimal := DFin false 0 (-2).

(** Default context. *)
Definition prec : Z := 28.
Definition Emax : Z := 999999.
Definition Emin : Z := -999999.
Definition Etiny : Z := Emin - prec + 1.
Definition Etop : Z := Emax - prec + 1.

(** [len(str(c))] *)
Definition ndigits (c : N) : Z := Z.of_nat (Decimal.nb_digits (N.to_uint c)).

(** Round-half-even division of [c] by [10^drop]. *)
Definition round_half_even (c : N) (drop : Z) : N :=
  let p := (10 ^ Z.to_N drop)%N in
  let q := (c / p)%N in
  let r := (c mod p)%N in
  match (2 * r ?= p)%N with
  | Gt => (q + 1)%N
  | Eq => if N.odd q then (q + 1)%N else q
  | Lt => q
  end.

(** [Decimal._fix]: round a finite value to the context. *)
Definition fix_to_context (neg : bool) (c : N) (e : Z) : Res Decimal :=
  if (c =? 0)%N then Ok (DFin neg 0 (Z.min (Z.max e Etiny) Emax))
  else
    let nd := ndigits c in
    let exp_min0 := nd + e - prec in
    if exp_min0 >? Etop then Raise overflow
    else
      let exp_min := Z.max exp_min0 Etiny in
      if e <? exp_min then
        let '(c1, e1) :=
          if nd + e - exp_min <? 0 then (1%N, exp_min - 1) else (c, e) in
        let coeff := round_half_even c1 (exp_min - e1) in
        let '(coeff, exp_min) :=
          if ndigits coeff >? prec
          then ((coeff / 10)%N, exp_min + 1)
          else (coeff, exp_min) in
        if exp_min >? Etop then Raise overflow
        else Ok (DFin neg coeff exp_min)
      else Ok (DFin neg c e).

(** [-d] ([Decimal.__neg__]): the sign is flipped except on zero, a
    signaling NaN raises, and the result is rounded to the context. *)
Definition neg (d : Decimal) : Res Decimal :=
  match d with
  | DNaN _ true _ => Raise invalid_operation
  | DNaN s false diag => Ok (DNaN s false (diag mod 10 ^ 28)%N)
  | DInf s => Ok (DInf (negb s))
  | DFin s c e => if (c =? 0)%N then fix_to_context false c e else fix_to_context (negb s) c e
  end.

(** [d >= 0]: an ordering comparison with a NaN raises. *)
Definition ge_zero (d : Decimal) : Res bool :=
  match d with
  | DNaN _ _ _ => Raise invalid_operation
  | DInf s => Ok (negb s)
  | DFin s c _ => Ok (negb s || (c =? 0)%N)
  end.

(** [bool(d)]: only a finite zero is false. *)
Definition truthy (d : Decimal) : bool :=
  match d with
  | DFin _ c _ => negb (c =? 0)%N
  | _ => true
  end.

(** The exact value of a finite decimal. *)
Definition value (d : Decimal) : option Q :=
  match d with
  | DFin s c e =>
      let n := if s then - Z.of_N c else Z.of_N c in
      Some (if e >=? 0 then inject_Z (n * 10 ^ e)
            else Qmake n (Z.to_pos (10 ^ (- e))))
  | _ => None
  end.

End Dec.

(** ** [float]

    A binary64 value is sign, significand and binary exponent:
    (-1)^neg * m * 2^e, or an infinity, or NaN. *)

Module PyFloat.
Import Dec.

Inductive pyfloat : Type :=
| FFin (neg : bool) (m : N) (e : Z)
| FInf (neg : bool)
| FNaN.

(** [n/d >= 2^k] *)
Definition ge_pow2 (n d k : Z) : bool :=
  if k >=? 0 then n >=? d * 2 ^ k else n * 2 ^ (- k) >=? d.

(** The binary64 nearest to [n/d] (for [n >= 0], [d > 0]), ties to even,
    subnormals below 2^-1022 and an infinity from 2^1024. *)
Definition round_binary64 (neg : bool) (n d : Z) : pyfloat :=
  if n =? 0 then FFin neg 0 0
  else
    let k := Z.log2 n - Z.log2 d in
    let lg := if ge_pow2 n d k then k else k - 1 in
    let q := Z.max (lg - 52) (-1074) in
    let num := if q >=? 0 then n else n * 2 ^ (- q) in
    let den := if q >=? 0 then d * 2 ^ q else d in
    let qt := num / den in
    let r := num mod den in
    let m :=
      match 2 * r ?= den with
      | Gt => qt + 1
      | Eq => if Z.odd qt then qt + 1 else qt
      | Lt => qt
      end in
    if m >=? 2 ^ (1024 - q) then FInf neg else FFin neg (Z.to_N m) q.

(** [float(d)] for a [Decimal]. *)
Definition of_Decimal (d : Decimal) : Res pyfloat :=
  match d with
  | DNaN _ true _ =>
      Raise (mkExn ValueError "cannot convert signaling NaN to float")
  | DNaN _ false _ => Ok FNaN
  | DInf s => Ok (FInf s)
  | DFin s c e =>
      Ok (if e >=? 0 then round_binary64 s (Z.of_N c * 10 ^ e) 1
          else round_binary64 s (Z.of_N c) (10 ^ (- e)))
  end.

(** [bool(f)] *)
Definition truthy (f : pyfloat) : bool :=
  match f with
  | FFin _ m _ => negb (m =? 0)%N
  | _ => true
  end.

(** The exact value of a finite float. *)
Definition value (f : pyfloat) : option Q :=
  match f with
  | FFin s m e =>
      let n := if s then - Z.of_N m else Z.of_N m in
      Some (if e >=? 0 then inject_Z (n * 2 ^ e)
            else Qmake n (Z.to_pos (2 ^ (- e))))
  | _ => None
  end.

End PyFloat.


(** ** [datetime.strptime] and [strftime]

    Modelled from CPython's [_strptime]: each directive is a regular
    expression whose alternatives are tried in order ([%m] is
    [1[0-2]|0[1-9]|[1-9]], [%d] is [3[0-1]|[1-2]\d|0[1-9]|[1-9]| [1-9]], [%Y]
    is four digits), the whole text must be consumed, and the fields must
    form a date of the proleptic Gregorian calendar with year 1..9999. In
    both formats used here every directive is followed by a separator that
    no alternative can match, so the first alternative that matches is the
    one the regular expression ends with. *)

Module DateTime.
Import PyStr.

Record date : Type := mkDate { year : Z; month : Z; day : Z }.

Definition in_range (lo hi : nat) (c : ascii) : bool :=
  let n := nat_of_ascii c in (lo <=? n)%nat && (n <=? hi)%nat.

Definition dval (c : ascii) : Z := Z.of_nat (nat_of_ascii c) - 48.

(** [%m] *)
Definition match_m (s : string) : option (Z * string) :=
  match s with
  | String a (String b r) =>
      if Ascii.eqb a "1" && in_range 48 50 b then Some (10 + dval b, r)
      else if Ascii.eqb a "0" && in_range 49 57 b then Some (dval b, r)
      else if in_range 49 57 a then Some (dval a, String b r)
      else None
  | String a r => if in_range 49 57 a then Some (dval a, r) else None
  | EmptyString => None
  end.

(** [%d] *)
Definition match_d (s : string) : option (Z * string) :=
  match s with
  | String a (String b r) =>
      if Ascii.eqb a "3" && in_range 48 49 b then Some (30 + dval b, r)
      else if in_range 49 50 a && is_digit b
           then Some (10 * dval a + dval b, r)
      else if Ascii.eqb a "0" && in_range 49 57 b then Some (dval b, r)
      else if in_range 49 57 a then Some (dval a, String b r)
      else if Ascii.eqb a " " && in_range 49 57 b then Some (dval b, r)
      else None
  | String a r => if in_range 49 57 a then Some (dval a, r) else None
  | EmptyString => None
  end.

(** [%Y] *)
Definition match_Y (s : string) : option (Z * string) :=
  match s with
  | String a (String b (String c (String d r))) =>
      if is_digit a && is_digit b && is_digit c && is_digit d
      then Some (1000 * dval a + 100 * dval b + 10 * dval c + dval d, r)
      else None
  | _ => None
  end.

(** A literal character of the format. *)
Definition match_lit (c : ascii) (s : string) : option string :=
  match s with
  | String a r => if Ascii.eqb a c then Some r else None
  | EmptyString => None
  end.

Definition is_leap (y : Z) : bool :=
  (y mod 4 =? 0) && negb (y mod 100 =? 0) || (y mod 400 =? 0).

Definition days_in_month (y m : Z) : Z :=
  match m with
  | 2 => if is_leap y then 29 else 28
  | 4 | 6 | 9 | 11 => 30
  | _ => 31
  end.

(** The checks of the [datetime] constructor. *)
Definition valid_date (d : date) : bool :=
  (1 <=? year d) && (year d <=? 9999) &&
  (1 <=? month d) && (month d <=? 12) &&
  (1 <=? day d) && (day d <=? days_in_month (year d) (month d)).

Definition no_match (data fmt : string) : Exn :=
  mkExn ValueError
    ("time data '" ++ data ++ "' does not match format '" ++ fmt ++ "'").
Definition unconverted (rest : string) : Exn :=
  mkExn ValueError ("unconverted data remains: " ++ rest).
Definition out_of_range : Exn :=
  mkExn ValueError "day is out of range for month".

Definition make_date (y m d : Z) (rest : string) : Res date :=
  match rest with
  | EmptyString =>
      let dt := mkDate y m d in
      if valid_date dt then Ok dt else Raise out_of_range
  | _ => Raise (unconverted rest)
  end.

(** [datetime.strptime(s, '%m/%d/%Y')] *)
Definition strptime_mdY (s : string) : Res date :=
  let fmt := "%m/%d/%Y" in
  match match_m s with
  | None => Raise (no_match s fmt)
  | Some (m, r1) =>
  match match_lit "/" r1 with
  | None => Raise (no_match s fmt)
  | Some r2 =>
  match match_d r2 with
  | None => Raise (no_match s fmt)
  | Some (d, r3) =>
  match match_lit "/" r3 with
  | None => Raise (no_match s fmt)
  | Some r4 =>
  match match_Y r4 with
  | None => Raise (no_match s fmt)
  | Some (y, r5) => make_date y m d r5
  end end end end end.

(** [datetime.strptime(s, '%Y-%m-%d')] *)
Definition strptime_Ymd (s : string) : Res date :=
  let fmt := "%Y-%m-%d" in
  match match_Y s with
  | None => Raise (no_match s fmt)
  | Some (y, r1) =>
  match match_lit "-" r1 with
  | None => Raise (no_match s fmt)
  | Some r2 =>
  match match_m r2 with
  | None => Raise (no_match s fmt)
  | Some (m, r3) =>
  match match_lit "-" r3 with
  | None => Raise (no_match s fmt)
  | Some r4 =>
  match match_d r4 with
  | None => Raise (no_match s fmt)
  | Some (d, r5) => make_date y m d r5
  end end end end end.

(** [d.strftime('%Y-%m-%d')]. The C library writes the fields: [%m] and
    [%d] with two digits, [%Y] as the plain decimal of the year, which has
    fewer than four digits below the year 1000 (glibc, CPython 3.11). *)
Definition strftime_Ymd (d : date) : string :=
  str_of_Z (year d) ++ "-" ++
  pad_left 2 (str_of_Z (month d)) ++ "-" ++
  pad_left 2 (str_of_Z (day d)).

End DateTime.

(** ** The scalar parsers of [BankDatabase] *)

Import PyStr.
Import Dec.

Definition dquote : ascii := ascii_of_nat 34.

(** [parse_amount(self, amount_str)] *)
Definition parse_amount (amount_str : option string) : Res Decimal :=
  match amount_str with
  | None => Ok zero_00
  | Some s =>
      if (s =? EmptyString)%string || (strip s =? EmptyString)%string
         || (strip s =? "nan")%string
      then Ok zero_00
      else
        let cleaned := strip (remove_char dquote (remove_char "," s)) in
        if startswith "-" cleaned then of_str cleaned
        else if startswith "(" cleaned && endswith ")" cleaned
             then res_bind (of_str (slice_1_m1 cleaned)) neg
        else of_str cleaned
  end.

(** [parse_date(self, date_str)]: every [ValueError] of the body is
    replaced by one that quotes [date_str]. *)
Definition parse_date (date_str : string) : Res string :=
  let body :=
    if contains "/" date_str
    then res_bind (DateTime.strptime_mdY date_str)
           (fun date_obj => Ok (DateTime.strftime_Ymd date_obj))
    else res_bind (DateTime.strptime_Ymd date_str)
           (fun _ => Ok date_str) in
  match body with
  | inr r => Ok r
  | inl e =>
      match exn_class e with
      | ValueError =>
          Raise (mkExn ValueError ("Unable to parse date: " ++ date_str))
      | _ => Raise e
      end
  end.

(** ** [pandas]: the tabularized source

    [pd.read_csv(path, skiprows=6)] either raises or gives a frame whose
    rows [df.iterrows()] yields, each with its index label. A cell is
    missing ([pd.isna]) or holds a value, kept here as the text [str] gives
    for it. *)

Module Pandas.

Inductive cell : Type :=
| NaN
| Val (s : string).

Definition isna (c : cell) : bool :=
  match c with
  | NaN => true
  | Val _ => false
  end.

Definition str (c : cell) : string :=
  match c with
  | NaN => "nan"
  | Val s => s
  end.

Definition Row : Type := list cell.

(** The label [df.iterrows()] yields with a row. [read_csv] numbers the
    rows 0, 1, 2, ... unless the data rows have one more field than the
    header: the first field of each row is then its label, an [int] when
    the whole column reads as integers and a [str] otherwise. (Labels of
    other types, floats and tuples, are not modelled.) *)
Inductive label : Type :=
| IntLabel (z : Z)
| StrLabel (s : string).

Definition DataFrame : Type := list (label * Row).

(** The frame of [rows] under the default index, counted from [k]. *)
Fixpoint range_index_from (k : Z) (rows : list Row) : DataFrame :=
  match rows with
  | [] => []
  | row :: rest => (IntLabel k, row) :: range_index_from (k + 1) rest
  end.

Definition range_index (rows : list Row) : DataFrame :=
  range_index_from 0 rows.

(** [row.iloc[k]] *)
Definition iloc (row : Row) (k : nat) : Res cell :=
  match nth_error row k with
  | Some c => Ok c
  | None => Raise (mkExn IndexError "single positional indexer is out-of-bounds")
  end.

End Pandas.

(** ** The SQLite store

    Three tables in rowid order, and the AUTOINCREMENT counters of
    [sqlite_sequence]. Numeric columns hold what SQLite keeps of a bound
    Python float. Timestamps are readings of the connection's clock. *)

Import PyFloat.

Record Bank : Type := mkBank {
  bank_id : Z;
  bank_name : string;
  bank_created_at : nat
}.

Record Account : Type := mkAccount {
  account_id : Z;
  acc_bank_id : Z;
  account_number : string;
  account_name : option string;
  account_type : string;
  opening_balance : pyfloat;
  current_balance : option pyfloat;
  is_active : bool;
  acc_created_at : nat;
  acc_updated_at : nat
}.

Record Transaction : Type := mkTransaction {
  transaction_id : Z;
  txn_account_id : Z;
  transaction_date : string;
  description : string;
  amount : pyfloat;
  transaction_type : string;
  reference_number : option string;
  balance_after : option pyfloat;
  txn_created_at : nat;
  txn_updated_at : nat
}.

Record Store : Type := mkStore {
  banks : list Bank;
  accounts : list Account;
  transactions : list Transaction;
  seq_banks : Z;
  seq_accounts : Z;
  seq_transactions : Z
}.

Definition empty_store : Store := mkStore [] [] [] 0 0 0.

(** The connection: the committed store, the store as the open transaction
    sees it, the failures the environment will inject into the coming
    statements ([Some msg] makes the statement raise), and the clock. *)
Record Conn : Type := mkConn {
  committed : Store;
  working : Store;
  faults : list (option string);
  clock : nat
}.

Definition fresh_conn : Conn := mkConn empty_store empty_store [] 0.

(** ** Computations on the connection

    A call runs on the connection and returns a value or raises; what it
    did to the connection before raising stays done. *)

Definition M (A : Type) : Type := Conn -> Res A * Conn.

Definition ret {A : Type} (a : A) : M A := fun c => (Ok a, c).

Definition raise {A : Type} (e : Exn) : M A := fun c => (Raise e, c).

Definition lift {A : Type} (r : Res A) : M A := fun c => (r, c).

Definition bind {A B : Type} (m : M A) (k : A -> M B) : M B :=
  fun c =>
    match m c with
    | (inl e, c') => (inl e, c')
    | (inr a, c') => k a c'
    end.

(** [try: m  except Exception as e: h e] *)
Definition try_except {A : Type} (m : M A) (h : Exn -> M A) : M A :=
  fun c =>
    match m c with
    | (inl e, c') => h e c'
    | (inr a, c') => (inr a, c')
    end.

Declare Scope py_scope.
Delimit Scope py_scope with py.
Notation "x <- m ;; k" := (bind m (fun x => k))
  (at level 61, m at next level, right associativity) : py_scope.
Notation "m ;; k" := (bind m (fun _ => k))
  (at level 61, right associativity) : py_scope.
Local Open Scope py_scope.

(** One statement reaching the engine: the clock advances and the next
    injected failure, if any, is raised. *)
Definition execute : M unit :=
  fun c =>
    match faults c with
    | Some msg :: fs =>
        (Raise (mkExn DatabaseError msg),
         mkConn (committed c) (working c) fs (S (clock c)))
    | None :: fs => (Ok tt, mkConn (committed c) (working c) fs (S (clock c)))
    | [] => (Ok tt, mkConn (committed c) (working c) [] (S (clock c)))
    end.

Definition get_working : M Store := fun c => (Ok (working c), c).
Definition put_working (s : Store) : M unit :=
  fun c => (Ok tt, mkConn (committed c) s (faults c) (clock c)).
Definition now : M nat := fun c => (Ok (clock c), c).

(** [self.conn.commit()] *)
Definition commit : M unit :=
  execute ;;
  fun c => (Ok tt, mkConn (working c) (working c) (faults c) (clock c)).

(** [self.conn.rollback()]; taken never to fail (were it to raise inside
    the handler, [import_csv_data] would return no dict at all). *)
Definition rollback : M unit :=
  fun c => (Ok tt, mkConn (committed c) (committed c) (faults c) (clock c)).

Definition max_id {A : Type} (id : A -> Z) (rows : list A) : Z :=
  fold_right (fun r m => Z.max (id r) m) 0 rows.

(** The rowid an AUTOINCREMENT table gives its next row. *)
Definition next_id {A : Type} (id : A -> Z) (rows : list A) (seq : Z) : Z :=
  Z.max seq (max_id id rows) + 1.

Definition integrity_error (msg : string) : Exn := mkExn DatabaseError msg.

(** What SQLite keeps of a bound float in a NUMERIC column: NaN becomes
    NULL and a zero loses its sign. *)
Definition sqlite_real (f : pyfloat) : option pyfloat :=
  match f with
  | FNaN => None
  | FFin _ 0%N _ => Some (FFin false 0 0)
  | _ => Some f
  end.

(** The WHERE clauses of the two identity lookups. *)
Definition bank_named (name : string) (b : Bank) : bool :=
  (bank_name b =? name)%string.

Definition account_keyed (bid : Z) (number : string) (a : Account) : bool :=
  (acc_bank_id a =? bid) && (account_number a =? number)%string.

(** [SELECT bank_id FROM banks WHERE bank_name = ?], [fetchone()] *)
Definition select_bank_id (name : string) : M (option Z) :=
  execute ;;
  s <- get_working ;;
  ret (option_map bank_id
         (find (bank_named name) (banks s))).

(** [INSERT INTO banks (bank_name) VALUES (?)], [cursor.lastrowid] *)
Definition insert_bank (name : string) : M Z :=
  execute ;;
  s <- get_working ;;
  t <- now ;;
  let id := next_id bank_id (banks s) (seq_banks s) in
  put_working (mkStore (banks s ++ [mkBank id name t]) (accounts s)
                 (transactions s) id (seq_accounts s) (seq_transactions s)) ;;
  ret id.

(** [SELECT account_id FROM accounts WHERE bank_id = ? AND account_number = ?] *)
Definition select_account_id (bid : Z) (number : string) : M (option Z) :=
  execute ;;
  s <- get_working ;;
  ret (option_map account_id
         (find (account_keyed bid number) (accounts s))).

(** [INSERT INTO accounts (bank_id, account_number, account_name,
    account_type) VALUES (?, ?, ?, ?)]; the foreign key is enforced. *)
Definition insert_account (bid : Z) (number : string) (name : option string)
    (type : string) : M Z :=
  execute ;;
  s <- get_working ;;
  t <- now ;;
  if existsb (fun b => bank_id b =? bid) (banks s) then
    let id := next_id account_id (accounts s) (seq_accounts s) in
    put_working
      (mkStore (banks s)
         (accounts s ++
            [mkAccount id bid number name type (FFin false 0 0) None true t t])
         (transactions s) (seq_banks s) id (seq_transactions s)) ;;
    ret id
  else raise (integrity_error "FOREIGN KEY constraint failed").

(** [INSERT INTO transactions (account_id, transaction_date, description,
    amount, transaction_type, balance_after) VALUES (?, ?, ?, ?, ?, ?)] *)
Definition insert_transaction (aid : Z) (date descr : string) (amt : pyfloat)
    (type : string) (bal : option pyfloat) : M unit :=
  execute ;;
  s <- get_working ;;
  t <- now ;;
  if existsb (fun a => account_id a =? aid) (accounts s) then
    match sqlite_real amt with
    | None => raise (integrity_error "NOT NULL constraint failed: transactions.amount")
    | Some stored_amt =>
        let id := next_id transaction_id (transactions s) (seq_transactions s) in
        let stored_bal :=
          match bal with
          | Some b => sqlite_real b
          | None => None
          end in
        put_working
          (mkStore (banks s) (accounts s)
             (transactions s ++
                [mkTransaction id aid date descr stored_amt type None
                   stored_bal t t])
             (seq_banks s) (seq_accounts s) id)
    end
  else raise (integrity_error "FOREIGN KEY constraint failed").

(** [t1] comes before [t2] under
    [ORDER BY transaction_date DESC, transaction_id DESC]; dates are TEXT and
    compare byte by byte. *)
Definition sorts_before (t1 t2 : Transaction) : bool :=
  match String.compare (transaction_date t1) (transaction_date t2) with
  | Gt => true
  | Lt => false
  | Eq => transaction_id t2 <? transaction_id t1
  end.

(** The first row of the ordered selection ([LIMIT 1]). *)
Fixpoint first_row (best : option Transaction) (rows : list Transaction)
    : option Transaction :=
  match rows with
  | [] => best
  | t :: rest =>
      match best with
      | None => first_row (Some t) rest
      | Some b => first_row (Some (if sorts_before t b then t else b)) rest
      end
  end.

Definition latest_transaction (aid : Z) (s : Store) : option Transaction :=
  first_row None (filter (fun t => txn_account_id t =? aid) (transactions s)).

(** [SELECT balance_after FROM transactions WHERE account_id = ?
    ORDER BY transaction_date DESC, transaction_id DESC LIMIT 1], [fetchone()]:
    no row, or the row's one column (NULL or a number). *)
Definition select_latest_balance (aid : Z) : M (option (option pyfloat)) :=
  execute ;;
  s <- get_working ;;
  ret (option_map balance_after (latest_transaction aid s)).

Definition set_balance (aid : Z) (b : pyfloat) (t : nat) (a : Account) : Account :=
  if account_id a =? aid
  then mkAccount (account_id a) (acc_bank_id a) (account_number a)
         (account_name a) (account_type a) (opening_balance a)
         (sqlite_real b) (is_active a) (acc_created_at a) t
  else a.

(** [UPDATE accounts SET current_balance = ?, updated_at = CURRENT_TIMESTAMP
    WHERE account_id = ?] *)
Definition update_account_balance (aid : Z) (b : pyfloat) : M unit :=
  execute ;;
  s <- get_working ;;
  t <- now ;;
  put_working
    (mkStore (banks s) (map (set_balance aid b t) (accounts s))
       (transactions s) (seq_banks s) (seq_accounts s) (seq_transactions s)).

(** ** [BankDatabase]: identity resolution *)

(** [get_or_create_bank(self, bank_name)] *)
Definition get_or_create_bank (name : string) : M Z :=
  result <- select_bank_id name ;;
  match result with
  | Some id => ret id
  | None =>
      id <- insert_bank name ;;
      commit ;;
      ret id
  end.

(** [get_or_create_account(self, bank_id, account_number, account_name,
    account_type)] *)
Definition get_or_create_account (bid : Z) (number : string)
    (name : option string) (type : string) : M Z :=
  result <- select_account_id bid number ;;
  match result with
  | Some id => ret id
  | None =>
      id <- insert_account bid number name type ;;
      commit ;;
      ret id
  end.

(** ** [BankDatabase.import_csv_data] *)

Import Pandas.

(** The returned dict; a key the dict lacks is [None]. *)
Record ImportResult : Type := mkResult {
  success : bool;
  error : option string;
  transactions_imported : nat;
  errors : list string;
  res_bank_id : option Z;
  res_account_id : option Z
}.

Definition is_summary (descr : string) : bool :=
  contains "Total" descr || contains "Beginning" descr ||
  contains "Ending" descr || contains "Summary" descr.

(** What one data row contributes to the INSERT: the bound parameters
    after [account_id]. *)
Record TxnRecord : Type := mkRecord {
  rec_date : string;
  rec_description : string;
  rec_amount : pyfloat;
  rec_type : string;
  rec_balance : option pyfloat
}.

Declare Scope res_scope.
Delimit Scope res_scope with res.
Notation "x <~ r ;; k" := (res_bind r (fun x => k))
  (at level 61, r at next level, right associativity) : res_scope.

(** The body of the [try] inside the loop up to the INSERT (lines 162-199):
    [Ok None] when the row is left by [continue], [Ok (Some r)] with the
    parameters of the INSERT, or the exception raised on the way. The
    parameters are evaluated left to right, [float(amount)] before
    [float(balance_after) if balance_after else None]. *)
Definition normalize_row (row : Row) : Res (option TxnRecord) :=
  (c0 <~ iloc row 0 ;;
   if isna c0 || (strip (str c0) =? EmptyString)%string then Ok None
   else
     let date_str := strip (str c0) in
     c1 <~ iloc row 1 ;;
     let descr := if isna c1 then EmptyString else strip (str c1) in
     c2 <~ iloc row 2 ;;
     let amount_str := if isna c2 then "0" else strip (str c2) in
     balance_str <~
       (if (3 <? length row)%nat
        then c3 <~ iloc row 3 ;;
             Ok (if isna c3 then None else Some (strip (str c3)))
        else Ok None) ;;
     if is_summary descr then Ok None
     else if (date_str =? "Date")%string || (descr =? "Description")%string
     then Ok None
     else if isna c2 || (strip (str c2) =? "nan")%string then Ok None
     else
       date <~ parse_date date_str ;;
       amt <~ parse_amount (Some amount_str) ;;
       bal <~
         match balance_str with
         | Some (String a r) =>
             b <~ parse_amount (Some (String a r)) ;; Ok (Some b)
         | _ => Ok None
         end ;;
       credit <~ ge_zero amt ;;
       let type := if credit then "credit" else "debit" in
       famt <~ of_Decimal amt ;;
       fbal <~
         match bal with
         | Some b =>
             if Dec.truthy b
             then f <~ of_Decimal b ;; Ok (Some f)
             else Ok None
         | None => Ok None
         end ;;
       Ok (Some (mkRecord date descr famt type fbal)))%res.

(** The body of the [try] inside the loop, up to [transactions_imported += 1]:
    [false] when the row is left by [continue], [true] when its transaction
    was inserted. *)
Definition row_body (aid : Z) (row : Row) : M bool :=
  r <- lift (normalize_row row) ;;
  match r with
  | None => ret false
  | Some t =>
      insert_transaction aid (rec_date t) (rec_description t) (rec_amount t)
        (rec_type t) (rec_balance t) ;;
      ret true
  end.

(** The [TypeError] of [i + 7] for a [str] label [i]. *)
Definition str_plus_int : Exn :=
  mkExn PyTypeError
    ("can only concatenate str (not " ++ String dquote "int" ++
     String dquote ") to str").

(** [f"Row {i+7}: {str(e)}"]: [i + 7] is an [int] for an [int] label and
    a [TypeError] for a [str] label. *)
Definition row_error (i : label) (e : Exn) : Res string :=
  match i with
  | IntLabel z => Ok ("Row " ++ str_of_int (z + 7) ++ ": " ++ exn_str e)
  | StrLabel _ => Raise str_plus_int
  end.

(** [for i, row in df.iterrows(): try: ... except Exception as e:
    errors.append(...); continue], with the counters so far. What the
    handler raises is not caught by the loop. *)
Fixpoint process_rows (aid : Z) (rows : DataFrame)
    (imported : nat) (errs : list string) : M (nat * list string) :=
  match rows with
  | [] => ret (imported, errs)
  | (i, row) :: rest =>
      st <- try_except
              (inserted <- row_body aid row ;;
               ret (if inserted then S imported else imported, errs))
              (fun e =>
                 msg <- lift (row_error i e) ;;
                 ret (imported, (errs ++ [msg])%list)) ;;
      process_rows aid rest (fst st) (snd st)
  end.

(** The balance recompute after the loop. *)
Definition update_current_balance (aid : Z) : M unit :=
  result <- select_latest_balance aid ;;
  match result with
  | Some (Some b) =>
      if PyFloat.truthy b then update_account_balance aid b else ret tt
  | _ => ret tt
  end.

(** [import_csv_data(self, csv_file_path, bank_name, account_number,
    account_name)]; [read_csv] is what [pd.read_csv(., skiprows=6)] does on
    the file system of the call. *)
Definition import_csv_data (read_csv : string -> Res DataFrame)
    (csv_file_path name number : string) (display_name : option string)
    : M ImportResult :=
  try_except
    (df <- lift (read_csv csv_file_path) ;;
     bid <- get_or_create_bank name ;;
     aid <- get_or_create_account bid number display_name "checking" ;;
     st <- process_rows aid df 0 [] ;;
     (if (0 <? fst st)%nat then update_current_balance aid else ret tt) ;;
     commit ;;
     ret (mkResult true None (fst st) (snd st) (Some bid) (Some aid)))
    (fun e =>
       rollback ;;
       ret (mkResult false (Some (exn_str e)) 0 [] None None)).

(** The body of the outer [try] (lines 147-231), on its own: what it
    raises is what reaches the outer handler. *)
Definition import_body (read_csv : string -> Res DataFrame)
    (csv_file_path name number : string) (display_name : option string)
    : M ImportResult :=
  df <- lift (read_csv csv_file_path) ;;
  bid <- get_or_create_bank name ;;
  aid <- get_or_create_account bid number display_name "checking" ;;
  st <- process_rows aid df 0 [] ;;
  (if (0 <? fst st)%nat then update_current_balance aid else ret tt) ;;
  commit ;;
  ret (mkResult true None (fst st) (snd st) (Some bid) (Some aid)).

(** ** Concrete statements and connections used below *)

Module Examples.

(** The data rows of the test fixture [sample_csv_data]. *)
Definition sample : DataFrame :=
  range_index
  [ [Val "04/01/2024"; Val "Beginning balance as of 04/01/2024"; NaN;
     Val "10,541.95"];
    [Val "05/10/2024"; Val "Test Credit Card Payment"; Val "-25.49";
     Val "10,516.46"];
    [Val "05/24/2024"; Val "Test Deposit"; Val "100.00"; Val "10,616.46"];
    [Val "06/01/2024"; Val "Test Transfer"; Val "-50.00"; Val "10,566.46"] ].

(** A deposit, then a statement whose last row brings the running balance
    to 0.00. *)
Definition deposit : DataFrame :=
  range_index
  [ [Val "05/10/2024"; Val "Deposit"; Val "100.00"; Val "100.00"] ].
Definition withdraw_all : DataFrame :=
  range_index
  [ [Val "06/01/2024"; Val "Withdrawal"; Val "-100.00"; Val "0.00"] ].

(** A statement with an unparseable date and an unparseable amount amid
    valid rows. *)
Definition malformed : DataFrame :=
  range_index
  [ [Val "05/10/2024"; Val "Valid Transaction"; Val "-25.49";
     Val "10,516.46"];
    [Val "invalid-date"; Val "Invalid Date Transaction"; Val "100.00";
     Val "10,616.46"];
    [Val "05/24/2024"; Val "Valid Transaction"; Val "invalid-amount";
     Val "10,716.46"];
    [Val "05/25/2024"; Val "Valid Transaction"; Val "50.00";
     Val "10,766.46"] ].

(** A statement whose rows are all skipped or rejected. *)
Definition summary_only : DataFrame :=
  range_index
  [ [Val "04/01/2024"; Val "Beginning balance as of 04/01/2024"; NaN;
     Val "10,541.95"];
    [Val "Total credits"; NaN; Val "28,789.38"; NaN];
    [NaN; NaN; NaN; NaN];
    [Val "invalid-date"; Val "Payment"; Val "12.00"; Val "1.00"] ].

(** A statement whose data rows carry a reference before the date, one
    field more than the header names: [read_csv] takes the references as
    the index. The first row is valid, the date of the second is not. *)
Definition referenced : DataFrame :=
  [ (StrLabel "TXN001",
     [Val "05/10/2024"; Val "Valid Transaction"; Val "-25.49";
      Val "10,516.46"]);
    (StrLabel "TXN002",
     [Val "invalid-date"; Val "Invalid Date Transaction"; Val "100.00";
      Val "10,616.46"]) ].

(** A statement of that shape whose only row has a date that cannot be
    read. *)
Definition referenced_bad : DataFrame :=
  [ (StrLabel "TXN001",
     [Val "invalid-date"; Val "Payment"; Val "12.00"; Val "1.00"]) ].

(** A file system with these statements, and nothing else. *)
Definition read_csv (path : string) : Res DataFrame :=
  if (path =? "sample.csv")%string then Ok sample
  else if (path =? "deposit.csv")%string then Ok deposit
  else if (path =? "withdraw_all.csv")%string then Ok withdraw_all
  else if (path =? "malformed.csv")%string then Ok malformed
  else if (path =? "summary_only.csv")%string then Ok summary_only
  else if (path =? "referenced.csv")%string then Ok referenced
  else if (path =? "referenced_bad.csv")%string then Ok referenced_bad
  else Raise (mkExn OSError
                ("[Errno 2] No such file or directory: '" ++ path ++ "'")).

(** A fresh connection on which the 8th statement (the balance SELECT of an
    import with one data row) fails. *)
Definition conn_failing_at_balance : Conn :=
  mkConn empty_store empty_store
    [None; None; None; None; None; None; None; Some "disk I/O error"] 0.

(** A fresh connection on which the 7th statement (the INSERT of the first
    data row) fails. *)
Definition conn_failing_at_insert : Conn :=
  mkConn empty_store empty_store
    [None; None; None; None; None; None; Some "disk I/O error"] 0.

(** The connection after importing [deposit.csv] into a fresh store. *)
Definition conn_after_deposit : Conn :=
  snd (import_csv_data read_csv "deposit.csv" "Test Bank" "1234567890"
         (Some "Test Account") fresh_conn).

(** The store after importing [deposit.csv] and then [sample.csv] into the
    same account, with nothing pending and no failure ahead. *)
Definition ledger : Conn :=
  Eval vm_compute in
    snd (import_csv_data read_csv "sample.csv" "Test Bank" "1234567890"
           (Some "Test Account") conn_after_deposit).

End Examples.

(** ** Vocabulary of the statements *)

(** A call leaves an observation [f] of the connection as it found it,
    whatever it returns or raises. *)
Definition preserves {X A : Type} (f : Conn -> X) (m : M A) : Prop :=
  forall c, f (snd (m c)) = f c.

(** When the call raises, nothing was committed on the way. *)
Definition commits_only_on_success {A : Type} (m : M A) : Prop :=
  forall c e c1, m c = (inl e, c1) -> committed c1 = committed c.

(** [s] is [s0] with at most one bank row added, named [name]. *)
Definition adds_bank (name : string) (s0 s : Store) : Prop :=
  accounts s = accounts s0 /\
  transactions s = transactions s0 /\
  (banks s = banks s0 \/
   exists b, banks s = (banks s0 ++ [b])%list /\ bank_name b = name).

(** [s] is [s0] with at most one account row added, numbered [number], with
    no balance yet. *)
Definition adds_account (number : string) (s0 s : Store) : Prop :=
  banks s = banks s0 /\
  transactions s = transactions s0 /\
  (accounts s = accounts s0 \/
   exists a, accounts s = (accounts s0 ++ [a])%list /\
             account_number a = number /\
             current_balance a = None /\
             acc_updated_at a = acc_created_at a).

(** The records of the rows that reach the INSERT, in source order. *)
Definition records_of (df : DataFrame) : list TxnRecord :=
  flat_map (fun lr =>
              match normalize_row (snd lr) with
              | inr (Some t) => [t]
              | _ => []
              end) df.

(** The error-log entries of the rows that raise before the INSERT and
    carry an [int] label. *)
Definition row_errors (df : DataFrame) : list string :=
  flat_map (fun lr =>
              match normalize_row (snd lr) with
              | inl e =>
                  match row_error (fst lr) e with
                  | inr msg => [msg]
                  | inl _ => []
                  end
              | inr _ => []
              end) df.

(** Every label of the frame is an [int]. *)
Definition int_labelled (df : DataFrame) : bool :=
  forallb (fun lr =>
             match fst lr with
             | IntLabel _ => true
             | StrLabel _ => false
             end) df.

(** Every row that raises before the INSERT carries an [int] label, so
    that the handler can tag its error. *)
Definition taggable (df : DataFrame) : bool :=
  forallb (fun lr =>
             match normalize_row (snd lr), fst lr with
             | inl _, StrLabel _ => false
             | _, _ => true
             end) df.

Definition raises {A : Type} (r : Res A) : bool :=
  match r with
  | inl _ => true
  | inr _ => false
  end.

(** The transaction row [t] holds the record [r] for the account [aid]. *)
Definition stores (aid : Z) (r : TxnRecord) (t : Transaction) : Prop :=
  txn_account_id t = aid /\
  transaction_date t = rec_date r /\
  description t = rec_description r /\
  Some (amount t) = sqlite_real (rec_amount r) /\
  transaction_type t = rec_type r /\
  reference_number t = None /\
  balance_after t = match rec_balance r with
                    | Some b => sqlite_real b
                    | None => None
                    end.

(** Two transaction rows that differ at most in id and timestamps. *)
Definition same_content (t1 t2 : Transaction) : Prop :=
  txn_account_id t1 = txn_account_id t2 /\
  transaction_date t1 = transaction_date t2 /\
  description t1 = description t2 /\
  amount t1 = amount t2 /\
  transaction_type t1 = transaction_type t2 /\
  reference_number t1 = reference_number t2 /\
  balance_after t1 = balance_after t2.

(** The accounts after the balance recompute ran at time [t] over the
    transactions [txns]. *)
Definition recomputed (aid : Z) (txns : list Transaction)
    (accs : list Account) (t : nat) : list Account :=
  match
    first_row None (filter (fun x => txn_account_id x =? aid) txns)
  with
  | Some row =>
      match balance_after row with
      | Some b =>
          if PyFloat.truthy b then map (set_balance aid b t) accs else accs
      | None => accs
      end
  | None => accs
  end.

(** The row reaches the INSERT. *)
Definition normalized (row : Row) : bool :=
  match normalize_row row with
  | inr (Some _) => true
  | _ => false
  end.

(** The row raises before the INSERT. *)
Definition failed (row : Row) : bool := raises (normalize_row row).

(** The accounts as the open transaction sees them. *)
Definition working_accounts (c : Conn) : list Account := accounts (working c).

(** The text [parse_amount] hands to [Decimal] once the zero cases are
    past: commas and quotes removed, then stripped. *)
Definition cleaned (s : string) : string :=
  strip (remove_char dquote (remove_char "," s)).

(** A character that [Decimal] neither strips, drops nor lower-cases. *)
Definition inert (c : ascii) : bool :=
  negb (isspace c) && negb (Ascii.eqb c "_") && Ascii.eqb (lower c) c.

Definition digits (ds : string) : Prop := all_chars is_digit ds = true.

(** A plain decimal literal: an integer part and an optional fraction. *)
Definition frac_digits (frac : option string) : string :=
  match frac with
  | Some fp => fp
  | None => EmptyString
  end.

Definition decimal_text (ip : string) (frac : option string) : string :=
  ip ++ match frac with
        | Some fp => String "." fp
        | None => EmptyString
        end.

(** The magnitude of a finite decimal as a fraction [n/d]. *)
Definition decimal_fraction (c : N) (e : Z) : Z * Z :=
  if e >=? 0 then (Z.of_N c * 10 ^ e, 1) else (Z.of_N c, 10 ^ (- e)).

(** [m * 2^q] is within half a unit in the last place of [n/d]:
    2 * |n/d - m * 2^q| <= 2^q, cross-multiplied. *)
Definition half_ulp_close (n d : Z) (m : N) (q : Z) : Prop :=
  if q >=? 0
  then 2 * Z.abs (n - Z.of_N m * 2 ^ q * d) <= d * 2 ^ q
  else 2 * Z.abs (n * 2 ^ (- q) - Z.of_N m * d) <= d.

(** The finite binary64 magnitudes are the [m * 2^q] with [m < 2^53] and
    [q] from -1074 to 971. *)
Definition binary64_finite (m : N) (q : Z) : Prop :=
  Z.of_N m < 2 ^ 53 /\ -1074 <= q <= 971.

(** [d * 2^1074 * |n/d - m * 2^q|], an integer for [q >= -1074]: how far
    [m * 2^q] is from [n/d], on one scale for all exponents. *)
Definition error_of (n d : Z) (m : N) (q : Z) : Z :=
  Z.abs (n * 2 ^ 1074 - d * (Z.of_N m * 2 ^ (q + 1074))).

(** [m * 2^q] is a finite binary64 magnitude, and no finite binary64
    magnitude is nearer to [n/d]. *)
Definition nearest_binary64 (n d : Z) (m : N) (q : Z) : Prop :=
  -1074 <= q /\
  (exists m1 q1,
      binary64_finite m1 q1 /\
      Z.of_N m1 * 2 ^ (q1 + 1074) = Z.of_N m * 2 ^ (q + 1074)) /\
  forall m' q',
    binary64_finite m' q' -> error_of n d m q <= error_of n d m' q'.

(** [n/d >= (2^53 - 1/2) * 2^971], half a unit above the largest finite
    binary64. *)
Definition overflows (n d : Z) : Prop :=
  d * ((2 ^ 54 - 1) * 2 ^ 970) <= n.

(** [f] is a binary64 for the decimal [dec]: for a finite decimal a
    nearest finite binary64 with the decimal's sign, or the infinity of
    that sign when the magnitude overflows; an infinity for an infinity;
    NaN for a NaN. *)
Definition float_of_decimal (dec : Decimal) (f : pyfloat) : Prop :=
  match dec with
  | DFin s c e =>
      let n := fst (decimal_fraction c e) in
      let d := snd (decimal_fraction c e) in
      (exists m q, f = FFin s m q /\ nearest_binary64 n d m q) \/
      (f = FInf s /\ overflows n d)
  | DInf s => f = FInf s
  | DNaN _ _ _ => f = FNaN
  end.

(** What SQLite keeps of a float that is not NaN: the float, a zero
    without its sign. *)
Definition stored_real (f : pyfloat) : pyfloat :=
  if PyFloat.truthy f then f else FFin false 0 0.

(** The float and the decimal are the same number. *)
Definition exactly (f : pyfloat) (d : Decimal) : Prop :=
  match PyFloat.value f, Dec.value d with
  | Some x, Some y => (x == y)%Q
  | _, _ => False
  end.

(** [s] writes the number [n] bare or zero-padded to two digits. *)
Definition renders (n : Z) (s : string) : Prop :=
  s = str_of_Z n \/ s = pad_left 2 (str_of_Z n).

Definition no_slash (s : string) : bool :=
  all_chars (fun a => negb (Ascii.eqb a "/")) s.

(** The four-digit text of the year [y] is read back as [y] by [%Y]; from
    1000 on it is the plain decimal of [y], below 1000 the plain decimal is
    shorter. *)
Definition year_ok (y : Z) : bool :=
  match DateTime.match_Y (pad_left 4 (str_of_Z y)) with
  | Some (v, EmptyString) =>
      (v =? y) && no_slash (pad_left 4 (str_of_Z y)) &&
      (if y <? 1000
       then (String.length (str_of_Z y) <? 4)%nat && no_slash (str_of_Z y)
       else (str_of_Z y =? pad_left 4 (str_of_Z y))%string)
  | _ => false
  end.

(** What [%m] reads from the two texts of a month, before [/], before [-]. *)
Definition month_ok (m : Z) : Prop :=
  forall r,
    DateTime.match_m (str_of_Z m ++ String "/" r) = Some (m, String "/" r) /\
    DateTime.match_m (pad_left 2 (str_of_Z m) ++ String "/" r)
      = Some (m, String "/" r) /\
    DateTime.match_m (pad_left 2 (str_of_Z m) ++ String "-" r)
      = Some (m, String "-" r) /\
    no_slash (pad_left 2 (str_of_Z m)) = true.

(** What [%d] reads from the two texts of a day, before [/] and at the end. *)
Definition day_ok (d : Z) : Prop :=
  (forall r,
      DateTime.match_d (str_of_Z d ++ String "/" r) = Some (d, String "/" r) /\
      DateTime.match_d (pad_left 2 (str_of_Z d) ++ String "/" r)
        = Some (d, String "/" r)) /\
  DateTime.match_d (pad_left 2 (str_of_Z d)) = Some (d, EmptyString) /\
  no_slash (pad_left 2 (str_of_Z d)) = true.

(** ** Invariants of the store *)

(** The primary keys are keys. *)
Definition ids_unique (s : Store) : Prop :=
  NoDup (map bank_id (banks s)) /\
  NoDup (map account_id (accounts s)) /\
  NoDup (map transaction_id (transactions s)).

(** Every account has its bank and every transaction its account. *)
Definition references_resolve (s : Store) : Prop :=
  (forall a, In a (accounts s) ->
             existsb (fun b => bank_id b =? acc_bank_id a) (banks s) = true) /\
  (forall t, In t (transactions s) ->
             existsb (fun a => account_id a =? txn_account_id t) (accounts s)
             = true).

Definition integrity (s : Store) : Prop :=
  ids_unique s /\ references_resolve s.

(** The natural keys are keys: one bank per name, one account per
    (bank, account number). *)
Definition keys_unique (s : Store) : Prop :=
  NoDup (map bank_name (banks s)) /\
  NoDup (map (fun a => (acc_bank_id a, account_number a)) (accounts s)).

Definition float_nonneg (f : pyfloat) : bool :=
  match f with
  | FFin s m _ => negb s || (m =? 0)%N
  | FInf s => negb s
  | FNaN => false
  end.

Definition float_nonpos (f : pyfloat) : bool :=
  match f with
  | FFin s m _ => s || (m =? 0)%N
  | FInf s => s
  | FNaN => false
  end.

(** The kind of a transaction agrees with the sign of its amount. *)
Definition kind_consistent (type : string) (amt : pyfloat) : Prop :=
  (type = "credit" /\ float_nonneg amt = true) \/
  (type = "debit" /\ float_nonpos amt = true).

Definition kinds_consistent (s : Store) : Prop :=
  forall t, In t (transactions s) ->
            kind_consistent (transaction_type t) (amount t).

(** A call keeps [P] true of the store, pending and committed, whatever it
    returns or raises. *)
Definition keeps_invariant (P : Store -> Prop) {A : Type} (m : M A) : Prop :=
  forall c,
    P (working c) -> P (committed c) ->
    P (working (snd (m c))) /\ P (committed (snd (m c))).

(** The transactions as the open transaction sees them. *)
Definition working_transactions (c : Conn) : list Transaction :=
  transactions (working c).

(** ** The queries of [BankDatabase]

    A number read back from a NUMERIC column arrives as an [int] when it is
    integral and as a [float] otherwise; the rows below keep the number. *)

(** One dict of [get_all_transactions], by column. *)
Record TransactionView : Type := mkTransactionView {
  view_bank_name : string;
  view_account_name : option string;
  view_transaction_date : string;
  view_description : string;
  view_amount : pyfloat;
  view_transaction_type : string;
  view_balance_after : option pyfloat
}.

(** One dict of [get_account_balance_history], by column. *)
Record BalanceView : Type := mkBalanceView {
  hist_account_name : option string;
  hist_transaction_date : string;
  hist_balance_after : option pyfloat;
  hist_description : string
}.

(** [FROM transactions t JOIN accounts a ON t.account_id = a.account_id] *)
Definition join_accounts (s : Store) : list (Transaction * Account) :=
  flat_map
    (fun t =>
       map (pair t)
         (filter (fun a => account_id a =? txn_account_id t) (accounts s)))
    (transactions s).

(** [... JOIN banks b ON a.bank_id = b.bank_id] *)
Definition join_banks (s : Store) (rows : list (Transaction * Account))
    : list (Transaction * Account * Bank) :=
  flat_map
    (fun ta =>
       map (pair ta)
         (filter (fun b => bank_id b =? acc_bank_id (snd ta)) (banks s)))
    rows.

(** [ORDER BY t.transaction_date DESC]. SQL fixes the order of the rows up
    to ties only; what the engine does with rows of equal date is left to
    it, so the ordering step is a parameter of the queries, and what SQL
    asks of it is [orders_by_date_desc]: the rows come back, all of them,
    no date after an earlier one. Dates are TEXT and compare byte by
    byte. *)
Definition OrderBy : Type :=
  forall X : Type, (X -> string) -> list X -> list X.

Definition not_before {X : Type} (key : X -> string) (x y : X) : Prop :=
  String.compare (key x) (key y) <> Lt.

Definition orders_by_date_desc (order_by : OrderBy) : Prop :=
  forall (X : Type) (key : X -> string) (l : list X),
    Permutation l (order_by X key l) /\
    StronglySorted (not_before key) (order_by X key l).

(** An engine that sorts and leaves rows of equal date in scan order. *)
Fixpoint insert_desc {X : Type} (key : X -> string) (x : X) (l : list X)
    : list X :=
  match l with
  | [] => [x]
  | y :: rest =>
      match String.compare (key x) (key y) with
      | Lt => y :: insert_desc key x rest
      | _ => x :: y :: rest
      end
  end.

Definition scan_order : OrderBy :=
  fun X key l => fold_right (insert_desc key) [] l.

Definition transaction_view (r : Transaction * Account * Bank)
    : TransactionView :=
  let '(t, a, b) := r in
  mkTransactionView (bank_name b) (account_name a) (transaction_date t)
    (description t) (amount t) (transaction_type t) (balance_after t).

Definition balance_view (r : Transaction * Account) : BalanceView :=
  let '(t, a) := r in
  mkBalanceView (account_name a) (transaction_date t) (balance_after t)
    (description t).

(** [get_all_transactions(self)] *)
Definition get_all_transactions (order_by : OrderBy)
    : M (list TransactionView) :=
  execute ;;
  s <- get_working ;;
  ret (map transaction_view
         (order_by _ (fun r => transaction_date (fst (fst r)))
            (join_banks s (join_accounts s)))).

(** The SELECT of [get_account_balance_history], with its WHERE clause [keep]. *)
Definition select_history (order_by : OrderBy) (keep : Transaction -> bool)
    : M (list BalanceView) :=
  execute ;;
  s <- get_working ;;
  ret (map balance_view
         (order_by _ (fun r => transaction_date (fst r))
            (filter (fun r => keep (fst r)) (join_accounts s)))).

(** [get_account_balance_history(self, account_id=None)]: [if account_id:]
    is false for [None] and for 0. *)
Definition get_account_balance_history (order_by : OrderBy)
    (account_id : option Z) : M (list BalanceView) :=
  match account_id with
  | Some aid =>
      if negb (aid =? 0)
      then select_history order_by (fun t => txn_account_id t =? aid)
      else select_history order_by (fun _ => true)
  | None => select_history order_by (fun _ => true)
  end.

(** The account and the bank a transaction row points to. *)
Definition account_of (s : Store) (t : Transaction) : option Account :=
  find (fun a => account_id a =? txn_account_id t) (accounts s).

Definition bank_of (s : Store) (a : Account) : option Bank :=
  find (fun b => bank_id b =? acc_bank_id a) (banks s).

(** Every transaction of the store, once, in store order, with the names of
    its account and of its bank. *)
Definition listing (s : Store) : list TransactionView :=
  flat_map
    (fun t =>
       match account_of s t with
       | Some a =>
           match bank_of s a with
           | Some b => [transaction_view (t, a, b)]
           | None => []
           end
       | None => []
       end)
    (transactions s).

(** Every transaction accepted by [keep], once, in store order, with the
    name of its account. *)
Definition history (s : Store) (keep : Transaction -> bool)
    : list BalanceView :=
  flat_map
    (fun t =>
       match account_of s t with
       | Some a => [balance_view (t, a)]
       | None => []
       end)
    (filter keep (transactions s)).

(** ** Opening and closing the database *)

(** [create_tables(self)]: three [CREATE TABLE IF NOT EXISTS], three
    [CREATE INDEX IF NOT EXISTS], a commit. The store of the model always
    has the three tables, empty in a new file, so the statements change
    nothing in it. *)
Definition create_tables : M unit :=
  execute ;; execute ;; execute ;;
  execute ;; execute ;; execute ;;
  commit.

(** [BankDatabase(db_path)]: the connection is opened, foreign keys are
    switched on, the tables are created. *)
Definition init : M unit :=
  execute ;;
  create_tables.

(** [close(self)]: what is pending on the connection is discarded. *)
Definition close : M unit :=
  fun c => (Ok tt, mkConn (committed c) (committed c) (faults c) (clock c)).

(** ** Python format specifications *)

Module PyFormat.
Import PyStr.
Import PyFloat.

Fixpoint repeat_char (c : ascii) (n : nat) : string :=
  match n with
  | O => EmptyString
  | S n' => String c (repeat_char c n')
  end.

(** [f"{s:<w}"] for a str: padded with spaces on the right, never cut. *)
Definition ljust (w : nat) (s : string) : string :=
  s ++ repeat_char " " (w - String.length s).

(** [s[:n]] for a str, [n >= 0]. *)
Definition prefix_of (n : nat) (s : string) : string := substring 0 n s.

(** The thousands separators of the [,] option in a run of digits. *)
Fixpoint commas (ds : string) : string :=
  match ds with
  | EmptyString => EmptyString
  | String c rest =>
      String c
        (if (0 <? String.length rest)%nat &&
            (String.length rest mod 3 =? 0)%nat
         then String "," (commas rest)
         else commas rest)
  end.

(** [m * 2^e] in hundredths, rounded to the nearest integer, ties to even:
    the digits [float.__format__] produces for two decimals are those of
    the correctly rounded value. *)
Definition hundredths (m : N) (e : Z) : Z :=
  if e >=? 0 then Z.of_N m * 2 ^ e * 100
  else
    let num := Z.of_N m * 100 in
    let den := 2 ^ (- e) in
    let q := num / den in
    let r := num mod den in
    match 2 * r ?= den with
    | Gt => q + 1
    | Eq => if Z.odd q then q + 1 else q
    | Lt => q
    end.

(** [f"{x:,.2f}"] for a number. *)
Definition format_2f (x : pyfloat) : string :=
  match x with
  | FNaN => "nan"
  | FInf s => if s then "-inf" else "inf"
  | FFin s m e =>
      let h := hundredths m e in
      (if s then "-" else EmptyString) ++
      commas (str_of_Z (h / 100)) ++ "." ++ pad_left 2 (str_of_Z (h mod 100))
  end.

End PyFormat.

(** ** The command line, [main.py] *)

Import PyFormat.

(** What ends a command early: an exception of the database layer, the
    [TypeError] of a format specification applied to [None], a missing
    key. *)
Inductive Uncaught : Type :=
| Database (e : Exn)
| TypeError (msg : string)
| KeyError (key : string).

(** A command prints lines and works on the connection; what it printed
    before an exception stays printed. *)
Definition Cmd (A : Type) : Type :=
  Conn -> list string * (Uncaught + A) * Conn.

Definition cmd_ret {A : Type} (a : A) : Cmd A := fun c => ([], inr a, c).

Definition cmd_raise {A : Type} (e : Uncaught) : Cmd A :=
  fun c => ([], inl e, c).

Definition cmd_bind {A B : Type} (m : Cmd A) (k : A -> Cmd B) : Cmd B :=
  fun c =>
    match m c with
    | (out, inl e, c1) => (out, inl e, c1)
    | (out, inr a, c1) =>
        match k a c1 with
        | (out', r, c2) => ((out ++ out')%list, r, c2)
        end
    end.

(** [print(line)] *)
Definition print (line : string) : Cmd unit := fun c => ([line], inr tt, c).

(** A call into [BankDatabase]. *)
Definition db {A : Type} (m : M A) : Cmd A :=
  fun c =>
    match m c with
    | (inl e, c1) => ([], inl (Database e), c1)
    | (inr a, c1) => ([], inr a, c1)
    end.

Declare Scope cmd_scope.
Delimit Scope cmd_scope with cmd.
Notation "x <- m ;; k" := (cmd_bind m (fun x => k))
  (at level 61, m at next level, right associativity) : cmd_scope.
Notation "m ;; k" := (cmd_bind m (fun _ => k))
  (at level 61, right associativity) : cmd_scope.

Definition nl : string := String (ascii_of_nat 10) EmptyString.

(** [f"{v:<w}"] for a column that may be NULL: [None] has no such format. *)
Definition format_column (w : nat) (v : option string) : Uncaught + string :=
  match v with
  | Some s => inr (ljust w s)
  | None =>
      inl (TypeError "unsupported format string passed to NoneType.__format__")
  end.

(** [f"${x:,.2f}" if x else "N/A"] *)
Definition balance_text (x : option pyfloat) : string :=
  match x with
  | Some b => if PyFloat.truthy b then "$" ++ format_2f b else "N/A"
  | None => "N/A"
  end.

(** The line of one transaction (lines 26-29); the fields are formatted
    from left to right. *)
Definition transaction_line (txn : TransactionView) : Uncaught + string :=
  let amount_str := "$" ++ format_2f (view_amount txn) in
  let balance_str := balance_text (view_balance_after txn) in
  match format_column 20 (view_account_name txn) with
  | inl e => inl e
  | inr account =>
      inr (ljust 12 (view_transaction_date txn) ++ " " ++
           ljust 20 (view_bank_name txn) ++ " " ++
           account ++ " " ++
           ljust 8 (view_transaction_type txn) ++ " " ++
           ljust 12 amount_str ++ " " ++
           ljust 12 balance_str ++ " " ++
           prefix_of 30 (view_description txn))
  end.

(** [for row in rows: print(line(row))] *)
Fixpoint print_each {A : Type} (line : A -> Uncaught + string)
    (rows : list A) : Cmd unit :=
  match rows with
  | [] => cmd_ret tt
  | row :: rest =>
      match line row with
      | inl e => cmd_raise e
      | inr text => (print text ;; print_each line rest)%cmd
      end
  end.

(** [print_transactions(transactions)] *)
Definition print_transactions (transactions : list TransactionView)
    : Cmd unit :=
  match transactions with
  | [] => print "No transactions found."
  | _ =>
      (print (nl ++ ljust 12 "Date" ++ " " ++ ljust 20 "Bank" ++ " " ++
              ljust 20 "Account" ++ " " ++ ljust 8 "Type" ++ " " ++
              ljust 12 "Amount" ++ " " ++ ljust 12 "Balance" ++ " " ++
              "Description") ;;
       print (repeat_char "-" 100) ;;
       print_each transaction_line transactions)%cmd
  end.

(** What [import_csv_file] prints of the dict it got back (lines 61-71):
    on success the count and, when rows were rejected, how many and the
    first five of their messages; on failure the error. *)
Definition report (result : ImportResult) : Cmd unit :=
  if success result
  then
    (print (nl ++ "[SUCCESS] Import successful!") ;;
     print ("   Transactions imported: " ++
            str_of_nat (transactions_imported result)) ;;
     match errors result with
     | [] => cmd_ret tt
     | _ =>
         print ("   Errors encountered: " ++
                str_of_nat (length (errors result))) ;;
         print_each (fun e => inr ("     - " ++ e))
           (firstn 5 (errors result)) ;;
         if (5 <? length (errors result))%nat
         then print ("     ... and " ++
                     str_of_nat (length (errors result) - 5) ++
                     " more errors")
         else cmd_ret tt
     end)%cmd
  else
    match error result with
    | Some e => print (nl ++ "[ERROR] Import failed: " ++ e)
    | None => cmd_raise (KeyError "error")
    end.

(** [import_csv_file(csv_path, bank_name, account_number, account_name)];
    [path_exists] is [os.path.exists] and [read_csv] is [pd.read_csv] on
    the file system of the call. *)
Definition import_csv_file (path_exists : string -> bool)
    (read_csv : string -> Res DataFrame)
    (csv_path bank_name account_number : string)
    (account_name : option string) : Cmd bool :=
  if negb (path_exists csv_path)
  then (print ("Error: CSV file '" ++ csv_path ++ "' not found.") ;;
        cmd_ret false)%cmd
  else
    (print ("Importing CSV file: " ++ csv_path) ;;
     print ("Bank: " ++ bank_name) ;;
     print ("Account: " ++ account_number) ;;
     match account_name with
     | Some (String a n) => print ("Account Name: " ++ String a n)
     | _ => cmd_ret tt
     end ;;
     db init ;;
     result <- db (import_csv_data read_csv csv_path bank_name account_number
                     account_name) ;;
     report result ;;
     db close ;;
     cmd_ret (success result))%cmd.

(** [transactions[:limit]] *)
Definition slice_to {A : Type} (limit : Z) (l : list A) : list A :=
  if 0 <=? limit then firstn (Z.to_nat limit) l
  else firstn (length l - Z.to_nat (- limit)) l.

(** [list_transactions(limit=None)]; [if limit:] is false for [None] and
    for 0. *)
Definition list_transactions (order_by : OrderBy) (limit : option Z)
    : Cmd unit :=
  (db init ;;
   transactions <- db (get_all_transactions order_by) ;;
   let transactions :=
     match limit with
     | Some n => if negb (n =? 0) then slice_to n transactions
                 else transactions
     | None => transactions
     end in
   print (nl ++ "[DATA] All Transactions (" ++
          str_of_nat (length transactions) ++ " total)") ;;
   print_transactions transactions ;;
   db close)%cmd.

(** The line of one entry of the balance history (lines 109-111). *)
Definition history_line (entry : BalanceView) : Uncaught + string :=
  let balance_str := balance_text (hist_balance_after entry) in
  match format_column 20 (hist_account_name entry) with
  | inl e => inl e
  | inr account =>
      inr (ljust 12 (hist_transaction_date entry) ++ " " ++
           account ++ " " ++
           ljust 15 balance_str ++ " " ++
           prefix_of 30 (hist_description entry))
  end.

(** [show_balance_history(account_id=None)] *)
Definition show_balance_history (order_by : OrderBy) (account_id : option Z)
    : Cmd unit :=
  (db init ;;
   history <- db (get_account_balance_history order_by account_id) ;;
   print (nl ++ "[BALANCE] Balance History") ;;
   match history with
   | [] => print "No balance history found."
   | _ =>
       print (ljust 12 "Date" ++ " " ++ ljust 20 "Account" ++ " " ++
              ljust 15 "Balance" ++ " " ++ "Description") ;;
       print (repeat_char "-" 70) ;;
       print_each history_line history
   end ;;
   db close)%cmd.

(** ** More concrete stores *)

Module MoreExamples.

(** The store after [import_csv_file] of [deposit.csv] with no account
    name, as the command line does without [--account-name]. *)
Definition unnamed : Conn :=
  Eval vm_compute in
    snd (import_csv_file (fun _ => true) Examples.read_csv "deposit.csv"
           "Test Bank" "1234567890" None fresh_conn).

(** Its one account and its one transaction. *)
Definition unnamed_account : Account :=
  mkAccount 1 1 "1234567890" None "checking" (FFin false 0 0)
    (Some (FFin false 7036874417766400 (-46))) true 13 17.

Definition unnamed_deposit : Transaction :=
  mkTransaction 1 1 "2024-05-10" "Deposit"
    (FFin false 7036874417766400 (-46)) "credit" None
    (Some (FFin false 7036874417766400 (-46))) 15 15.

End MoreExamples.

(** ** What stays of a store *)

(** The account row [a'] is the row [a], up to its balance and its update
    stamp. *)
Definition same_account (a a' : Account) : Prop :=
  account_id a' = account_id a /\
  acc_bank_id a' = acc_bank_id a /\
  account_number a' = account_number a /\
  account_name a' = account_name a /\
  account_type a' = account_type a /\
  opening_balance a' = opening_balance a /\
  is_active a' = is_active a /\
  acc_created_at a' = acc_created_at a.

(** The store [s'] has every row of [s]: its banks and its transactions as
    they are, its accounts up to balance and update stamp. *)
Definition extends (s s' : Store) : Prop :=
  (forall b, In b (banks s) -> In b (banks s')) /\
  (forall t, In t (transactions s) -> In t (transactions s')) /\
  (forall a, In a (accounts s) ->
             exists a', In a' (accounts s') /\ same_account a a').

(** ** Dates in order *)

(** The order of the calendar. *)
Definition chronological (d1 d2 : DateTime.date) : comparison :=
  match DateTime.year d1 ?= DateTime.year d2 with
  | Eq =>
      match DateTime.month d1 ?= DateTime.month d2 with
      | Eq => DateTime.day d1 ?= DateTime.day d2
      | c => c
      end
  | c => c
  end.

(** The [w]-digit text of [a] has [w] characters and comes, as text, before
    that of [a + 1]. *)
Definition pad_step (w : nat) (a : Z) : bool :=
  (String.length (pad_left w (str_of_Z a)) =? w)%nat &&
  (String.length (pad_left w (str_of_Z (a + 1))) =? w)%nat &&
  match String.compare (pad_left w (str_of_Z a))
          (pad_left w (str_of_Z (a + 1))) with
  | Lt => true
  | _ => false
  end.

(** * Properties *)

(** ** C8: a source that cannot be read *)

(** C8. When [pd.read_csv] raises (a nonexistent file, a source that is not
    tabular), [import_csv_data] returns [{success: False, error: str(e),
    transactions_imported: 0, errors: []}]; the only effect on the
    connection is the rollback, so the committed banks, accounts and
    transactions are those from before the call and nothing is pending. *)
Theorem C8_unreadable_source_creates_nothing :
  forall read_csv path name number display_name e c,
    read_csv path = Raise e ->
    exists c',
      import_csv_data read_csv path name number display_name c =
        (Ok (mkResult false (Some (exn_str e)) 0 [] None None), c') /\
      banks (committed c') = banks (committed c) /\
      accounts (committed c') = accounts (committed c) /\
      transactions (committed c') = transactions (committed c) /\
      committed c' = committed c /\
      working c' = committed c.
Proof.
  intros read_csv path name number display_name e c Hread.
  exists (mkConn (committed c) (committed c) (faults c) (clock c)).
  unfold import_csv_data, try_except, bind, lift.
  rewrite Hread. cbn. repeat split; reflexivity.
Qed.

Lemma C8_unreadable_source_witness :
  Examples.read_csv "nonexistent.csv" =
    Raise (mkExn OSError
             "[Errno 2] No such file or directory: 'nonexistent.csv'") /\
  exists c',
    import_csv_data Examples.read_csv "nonexistent.csv" "Test Bank"
      "1234567890" (Some "Test Account") fresh_conn =
      (Ok (mkResult false
             (Some "[Errno 2] No such file or directory: 'nonexistent.csv'")
             0 [] None None), c') /\
    banks (committed c') = [] /\
    accounts (committed c') = [] /\
    transactions (committed c') = [] /\
    committed c' = empty_store /\
    working c' = empty_store.
Proof.
  split; [reflexivity |].
  apply (C8_unreadable_source_creates_nothing Examples.read_csv
           "nonexistent.csv" "Test Bank" "1234567890" (Some "Test Account")
           (mkExn OSError
              "[Errno 2] No such file or directory: 'nonexistent.csv'")
           fresh_conn).
  reflexivity.
Defined.

(** ** C6: [parse_date] *)

(** C6, at the failing input. A text without [/] that [%Y-%m-%d] accepts
    is returned as it came: the unpadded [2024-4-1] is neither rejected nor
    brought to the YYYY-MM-DD form the docstring promises. *)
Theorem C6_unpadded_iso_returned_unchanged :
  parse_date "2024-4-1" = Ok "2024-4-1" /\
  parse_date "4/1/2024" = Ok "2024-04-01".
Proof. split; reflexivity. Qed.

(** ** C2: the balance recompute *)

(** C2, at the failing input. After a first import left the account at
    100.00, importing a statement whose latest row carries the running
    balance 0.00 succeeds and inserts the row, but the row's balance is
    stored as NULL and [current_balance] keeps the old value. *)
Theorem C2_zero_balance_is_not_written :
  let c1 := Examples.conn_after_deposit in
  let rc := import_csv_data Examples.read_csv "withdraw_all.csv" "Test Bank"
              "1234567890" (Some "Test Account") c1 in
  parse_amount (Some "0.00") = Ok (DFin false 0 (-2)) /\
  option_map success (match fst rc with inr r => Some r | inl _ => None end)
    = Some true /\
  option_map transactions_imported
    (match fst rc with inr r => Some r | inl _ => None end) = Some 1%nat /\
  map current_balance (accounts (committed c1)) =
    [Some (FFin false 7036874417766400 (-46))] /\
  option_map transaction_date (latest_transaction 1 (committed (snd rc)))
    = Some "2024-06-01" /\
  option_map balance_after (latest_transaction 1 (committed (snd rc)))
    = Some None /\
  map current_balance (accounts (committed (snd rc))) =
    [Some (FFin false 7036874417766400 (-46))] /\
  map acc_updated_at (accounts (committed (snd rc))) =
    map acc_updated_at (accounts (committed c1)).
Proof. vm_compute. repeat split; reflexivity. Qed.

(** ** Frame lemmas of the connection monad *)

Section Frame.
Context {X : Type} (f : Conn -> X).

Lemma preserves_ret {A : Type} (a : A) : preserves f (ret a).
Proof. intro c. reflexivity. Qed.

Lemma preserves_lift {A : Type} (r : Res A) : preserves f (lift r).
Proof. intro c. reflexivity. Qed.

Lemma preserves_raise {A : Type} (e : Exn) : preserves f (@raise A e).
Proof. intro c. reflexivity. Qed.

Lemma preserves_bind {A B : Type} (m : M A) (k : A -> M B) :
  preserves f m -> (forall a, preserves f (k a)) -> preserves f (bind m k).
Proof.
  intros Hm Hk c. unfold bind.
  specialize (Hm c). destruct (m c) as [[e | a] c1]; simpl in *.
  - exact Hm.
  - rewrite (Hk a c1). exact Hm.
Qed.

Lemma preserves_try {A : Type} (m : M A) (h : Exn -> M A) :
  preserves f m -> (forall e, preserves f (h e)) ->
  preserves f (try_except m h).
Proof.
  intros Hm Hh c. unfold try_except.
  specialize (Hm c). destruct (m c) as [[e | a] c1]; simpl in *.
  - rewrite (Hh e c1). exact Hm.
  - exact Hm.
Qed.

(** An observation that looks at neither the pending failures nor the
    clock is preserved by a statement that changes no table. *)
Hypothesis f_env :
  forall c fs t, f (mkConn (committed c) (working c) fs t) = f c.

Lemma preserves_execute : preserves f execute.
Proof.
  intro c. unfold execute.
  destruct (faults c) as [| [msg |] fs]; simpl; apply f_env.
Qed.

Lemma preserves_get_working : preserves f get_working.
Proof. intro c. reflexivity. Qed.

Lemma preserves_now : preserves f now.
Proof. intro c. reflexivity. Qed.

End Frame.

Lemma commits_only_on_success_bind {A B : Type} (m : M A) (k : A -> M B) :
  preserves committed m ->
  (forall a, commits_only_on_success (k a)) ->
  commits_only_on_success (bind m k).
Proof.
  intros Hm Hk c e c1. unfold bind.
  specialize (Hm c). destruct (m c) as [[e0 | a] c0] eqn:E; simpl in *.
  - intros H. inversion H; subst. exact Hm.
  - intros H. rewrite (Hk a c0 e c1 H). exact Hm.
Qed.

Lemma commits_only_on_success_commit_ret {A : Type} (a : A) :
  commits_only_on_success (commit ;; ret a).
Proof.
  intros c e c1. unfold commit, bind, execute, ret.
  destruct (faults c) as [| [msg |] fs]; simpl; intros H;
    inversion H; subst; reflexivity.
Qed.

(** Proves [preserves f m] for a computation built from the primitives
    above; leaves the statements that write. *)
Ltac frame :=
  repeat first
    [ apply preserves_ret
    | apply preserves_lift
    | apply preserves_raise
    | apply preserves_get_working
    | apply preserves_now
    | apply preserves_execute; [intros; reflexivity]
    | apply preserves_bind; [| intros ?]
    | apply preserves_try; [| intros ?]
    | match goal with
      | |- preserves _ (if ?b then _ else _) => destruct b
      | |- preserves _ (match ?x with _ => _ end) => destruct x
      end ].

(** *** Nothing but [commit] changes the committed store *)

Lemma put_working_keeps_committed (s : Store) :
  preserves committed (put_working s).
Proof. intro c. reflexivity. Qed.

Lemma insert_transaction_keeps_committed aid date descr amt type bal :
  preserves committed (insert_transaction aid date descr amt type bal).
Proof.
  unfold insert_transaction. frame; try apply put_working_keeps_committed.
Qed.

Lemma row_body_keeps_committed aid row :
  preserves committed (row_body aid row).
Proof.
  unfold row_body. frame; try apply insert_transaction_keeps_committed.
Qed.

Lemma process_rows_keeps_committed aid rows :
  forall imported errs,
    preserves committed (process_rows aid rows imported errs).
Proof.
  induction rows as [| [i row] rest IH]; intros imported errs; simpl.
  - frame.
  - frame; first [apply row_body_keeps_committed | apply IH].
Qed.

Lemma update_current_balance_keeps_committed aid :
  preserves committed (update_current_balance aid).
Proof.
  unfold update_current_balance, select_latest_balance,
    update_account_balance.
  frame; try apply put_working_keeps_committed.
Qed.

(** *** Identity resolution commits at most its own row *)

Lemma get_or_create_bank_commits name c r c1 :
  working c = committed c ->
  get_or_create_bank name c = (r, c1) ->
  adds_bank name (committed c) (committed c1) /\
  (forall id, r = inr id -> working c1 = committed c1).
Proof.
  intros Hclean.
  unfold get_or_create_bank, select_bank_id, insert_bank, commit, bind,
    execute, get_working, put_working, now, ret.
  unfold adds_bank.
  destruct (faults c) as [| [m1 |] [| [m2 |] [| [m3 |] fs]]]; simpl;
    try (match goal with |- context [find ?p ?l] => destruct (find p l) end);
    simpl; intros H; inversion H; subst; clear H; simpl;
    rewrite ?Hclean;
    (split; [ repeat split; try reflexivity; auto;
              right; eexists; split; reflexivity
            | intros id Hid; try discriminate; reflexivity ]).
Qed.

Lemma get_or_create_account_commits bid number name type c r c1 :
  working c = committed c ->
  get_or_create_account bid number name type c = (r, c1) ->
  adds_account number (committed c) (committed c1) /\
  (forall id, r = inr id -> working c1 = committed c1).
Proof.
  intros Hclean.
  unfold get_or_create_account, select_account_id, insert_account, commit,
    bind, execute, get_working, put_working, now, ret, raise.
  unfold adds_account.
  destruct (faults c) as [| [m1 |] [| [m2 |] [| [m3 |] fs]]]; simpl;
    try (match goal with |- context [find ?p ?l] => destruct (find p l) end);
    simpl;
    try (match goal with
         | |- context [existsb ?p ?l] => destruct (existsb p l)
         end);
    simpl; intros H; inversion H; subst; clear H; simpl;
    rewrite ?Hclean;
    (split; [ repeat split; try reflexivity; auto;
              right; eexists; repeat split; reflexivity
            | intros id Hid; try discriminate; reflexivity ]).
Qed.

Lemma run_bind {A B : Type} (m : M A) (k : A -> M B) (c : Conn) :
  bind m k c =
    match m c with
    | (inl e, c') => (inl e, c')
    | (inr a, c') => k a c'
    end.
Proof. reflexivity. Qed.

Lemma bind_returns {A B : Type} (m : M A) (k : A -> M B) c b c' :
  bind m k c = (inr b, c') ->
  exists a c1, m c = (inr a, c1) /\ k a c1 = (inr b, c').
Proof.
  unfold bind. destruct (m c) as [[e | a] c1]; intros H.
  - discriminate.
  - exists a, c1. split; [reflexivity | exact H].
Qed.

Lemma adds_account_refl number s : adds_account number s s.
Proof. unfold adds_account. auto. Qed.

(** The part of the call after identity resolution commits only at its very
    end. *)
Lemma import_tail_commits_only_on_success aid bid df :
  commits_only_on_success
    (st <- process_rows aid df 0 [] ;;
     (if (0 <? fst st)%nat then update_current_balance aid else ret tt) ;;
     commit ;;
     ret (mkResult true None (fst st) (snd st) (Some bid) (Some aid))).
Proof.
  apply commits_only_on_success_bind.
  - apply process_rows_keeps_committed.
  - intros st. apply commits_only_on_success_bind.
    + destruct (0 <? fst st)%nat.
      * apply update_current_balance_keeps_committed.
      * apply preserves_ret.
    + intros _. apply commits_only_on_success_commit_ret.
Qed.

(** ** C1: what a failed call leaves behind *)

Lemma get_or_create_bank_result name c bid c1 :
  working c = committed c ->
  get_or_create_bank name c = (Ok bid, c1) ->
  exists b,
    In b (banks (committed c1)) /\ bank_id b = bid /\ bank_name b = name.
Proof.
  intros Hclean.
  unfold get_or_create_bank, select_bank_id, insert_bank, commit, bind,
    execute, get_working, put_working, now, ret, Ok.
  destruct (faults c) as [| [m1 |] [| [m2 |] [| [m3 |] fs]]]; simpl;
    try discriminate;
    destruct (find (bank_named name) (banks (working c))) as [b |] eqn:Hf;
    simpl; intros H; inversion H; subst; clear H; simpl;
    try (apply find_some in Hf; destruct Hf as [Hin Hname];
         unfold bank_named in Hname; apply String.eqb_eq in Hname;
         exists b; rewrite <- Hclean; auto);
    (eexists; split; [apply in_or_app; right; left; reflexivity |];
     split; reflexivity).
Qed.

Lemma get_or_create_account_result bid number name type c aid c1 :
  working c = committed c ->
  get_or_create_account bid number name type c = (Ok aid, c1) ->
  exists a,
    In a (accounts (committed c1)) /\ account_id a = aid /\
    acc_bank_id a = bid /\ account_number a = number.
Proof.
  intros Hclean.
  unfold get_or_create_account, select_account_id, insert_account, commit,
    bind, execute, get_working, put_working, now, ret, raise, Ok.
  destruct (faults c) as [| [m1 |] [| [m2 |] [| [m3 |] fs]]]; simpl;
    try discriminate;
    destruct (find (account_keyed bid number) (accounts (working c)))
      as [a |] eqn:Hf;
    simpl;
    try (destruct (existsb (fun b => bank_id b =? bid)
                     (banks (working c))); simpl);
    intros H; inversion H; subst; clear H; simpl;
    try (apply find_some in Hf; destruct Hf as [Hin Hkey];
         unfold account_keyed in Hkey; apply andb_true_iff in Hkey;
         destruct Hkey as [Hb Hn]; apply Z.eqb_eq in Hb;
         apply String.eqb_eq in Hn;
         exists a; rewrite <- Hclean; auto);
    (eexists; split; [apply in_or_app; right; left; reflexivity |];
     repeat split; reflexivity).
Qed.

(** A row with an [int] label never ends the loop: whatever its body
    raises, a failed INSERT included, its handler logs and goes on. *)
Lemma process_rows_int_label aid z row imported errs c :
  exists st c',
    process_rows aid [(IntLabel z, row)] imported errs c = (Ok st, c').
Proof.
  simpl. unfold bind, try_except, lift, ret, row_error.
  destruct (row_body aid row c) as [[e | b] c1]; simpl;
    eexists; eexists; reflexivity.
Qed.

(** C1, as the code has it. On a connection with nothing pending and a
    source that was read, whenever the body of the outer [try] raises,
    [import_csv_data] returns [{success: False, error: str(e),
    transactions_imported: 0, errors: []}] for that exception, nothing is
    left pending, no transaction row and no balance change of the call is
    committed, and the committed store differs from the one before the call
    by at most the bank row and the account row that identity resolution
    created and committed on its own; the bank and the account that
    identity resolution returned before the failure are in the committed
    store. An exception raised in the body of a row with an [int] label, a
    failed INSERT included, never reaches the outer handler. *)
Theorem C1_failure_rolls_back_the_batch :
  forall read_csv path name number display_name df c e c1,
    working c = committed c ->
    read_csv path = Ok df ->
    import_body read_csv path name number display_name c = (Raise e, c1) ->
    (exists c',
        import_csv_data read_csv path name number display_name c =
          (Ok (mkResult false (Some (exn_str e)) 0 [] None None), c') /\
        working c' = committed c' /\
        committed c' = committed c1 /\
        transactions (committed c') = transactions (committed c) /\
        (exists s1,
            adds_bank name (committed c) s1 /\
            adds_account number s1 (committed c')) /\
        (forall bid c0,
            get_or_create_bank name c = (Ok bid, c0) ->
            exists b,
              In b (banks (committed c')) /\
              bank_id b = bid /\ bank_name b = name) /\
        (forall bid c0 aid c2,
            get_or_create_bank name c = (Ok bid, c0) ->
            get_or_create_account bid number display_name "checking" c0 =
              (Ok aid, c2) ->
            exists a,
              In a (accounts (committed c')) /\ account_id a = aid /\
              acc_bank_id a = bid /\ account_number a = number)) /\
    (forall aid z row imported errs c0,
        exists st c0',
          process_rows aid [(IntLabel z, row)] imported errs c0 =
            (Ok st, c0')).
Proof.
  intros read_csv path name number display_name df c e c1 Hclean Hread Hbody.
  split; [| intros; apply process_rows_int_label].
  exists (mkConn (committed c1) (committed c1) (faults c1) (clock c1)).
  split.
  { change (import_csv_data read_csv path name number display_name c)
      with (try_except
              (import_body read_csv path name number display_name)
              (fun e =>
                 rollback ;;
                 ret (mkResult false (Some (exn_str e)) 0 [] None None)) c).
    unfold try_except. rewrite Hbody. reflexivity. }
  split; [reflexivity |]. split; [reflexivity |]. simpl.
  unfold import_body in Hbody.
  rewrite run_bind in Hbody. unfold lift in Hbody. rewrite Hread in Hbody.
  unfold Ok in Hbody. cbv beta iota in Hbody.
  rewrite run_bind in Hbody.
  destruct (get_or_create_bank name c) as [[e1 | bid] c2] eqn:Hbank.
  - destruct (get_or_create_bank_commits name c _ _ Hclean Hbank)
      as [Hb _].
    inversion Hbody; subst e1 c2. clear Hbody.
    split; [apply Hb |].
    split; [exists (committed c1);
            split; [exact Hb | apply adds_account_refl] |].
    split; intros; discriminate.
  - destruct (get_or_create_bank_commits name c _ _ Hclean Hbank)
      as [Hb Hclean2].
    specialize (Hclean2 bid eq_refl).
    destruct (get_or_create_bank_result name c bid c2 Hclean Hbank)
      as (b & Hbin & Hbid & Hbname).
    rewrite run_bind in Hbody.
    destruct (get_or_create_account bid number display_name "checking" c2)
      as [[e2 | aid] c3] eqn:Hacc;
      destruct (get_or_create_account_commits _ _ _ _ _ _ _ Hclean2 Hacc)
        as [Ha _];
      assert (Htxn : transactions (committed c3) = transactions (committed c))
        by (destruct Ha as (_ & Ht & _); destruct Hb as (_ & Ht' & _);
            congruence);
      assert (Hbanks : banks (committed c3) = banks (committed c2))
        by (destruct Ha as (Hbk & _); exact Hbk).
    + inversion Hbody; subst e2 c3. clear Hbody.
      split; [exact Htxn |].
      split; [exists (committed c2); split; assumption |].
      split.
      * intros bid' c0 H.
        unfold Ok in H. inversion H; subst bid' c0.
        exists b. rewrite Hbanks. auto.
      * intros bid' c0 aid' c4 H H'.
        unfold Ok in H. inversion H; subst bid' c0.
        rewrite Hacc in H'. discriminate.
    + destruct (get_or_create_account_result bid number display_name
                  "checking" c2 aid c3 Hclean2 Hacc)
        as (a & Hain & Haid & Habid & Hanum).
      pose proof (import_tail_commits_only_on_success aid bid df) as Htail.
      apply Htail in Hbody.
      rewrite Hbody.
      split; [exact Htxn |].
      split; [exists (committed c2); split; assumption |].
      split.
      * intros bid' c0 H.
        unfold Ok in H. inversion H; subst bid' c0.
        exists b. rewrite Hbanks. auto.
      * intros bid' c0 aid' c4 H H'.
        unfold Ok in H. inversion H; subst bid' c0.
        rewrite Hacc in H'. unfold Ok in H'. inversion H'; subst aid' c4.
        exists a. auto.
Qed.

Lemma C1_failure_witness :
  working Examples.conn_failing_at_balance =
    committed Examples.conn_failing_at_balance /\
  Examples.read_csv "deposit.csv" = Ok Examples.deposit /\
  exists e c1,
    import_body Examples.read_csv "deposit.csv" "Test Bank" "1234567890"
      (Some "Test Account") Examples.conn_failing_at_balance =
      (Raise e, c1) /\
    exists c',
      import_csv_data Examples.read_csv "deposit.csv" "Test Bank"
        "1234567890" (Some "Test Account") Examples.conn_failing_at_balance =
        (Ok (mkResult false (Some (exn_str e)) 0 [] None None), c') /\
      working c' = committed c' /\
      transactions (committed c') =
        transactions (committed Examples.conn_failing_at_balance).
Proof.
  split; [reflexivity |]. split; [reflexivity |].
  destruct (import_body Examples.read_csv "deposit.csv" "Test Bank"
              "1234567890" (Some "Test Account")
              Examples.conn_failing_at_balance) as [[e | r] c1] eqn:Hbody.
  - exists e, c1. split; [reflexivity |].
    destruct (proj1 (C1_failure_rolls_back_the_batch Examples.read_csv
                       "deposit.csv" "Test Bank" "1234567890"
                       (Some "Test Account") Examples.deposit
                       Examples.conn_failing_at_balance e c1
                       eq_refl eq_refl Hbody))
      as (c' & Hrun & Hw & _ & Ht & _).
    exists c'. split; [exact Hrun |]. split; [exact Hw | exact Ht].
  - apply (f_equal fst) in Hbody. vm_compute in Hbody. discriminate Hbody.
Defined.

(** C1, as stated, fails. With the balance SELECT failing on a fresh store,
    the call reports failure, yet the bank row and the account row it
    created stay committed: the store is not the one from before the call.
    And a write failure in the INSERT of a row does not reach the outer
    handler at all: it is logged for the row and the call succeeds. *)
Lemma C1_identity_rows_survive_failure :
  let rc := import_csv_data Examples.read_csv "deposit.csv" "Test Bank"
              "1234567890" (Some "Test Account")
              Examples.conn_failing_at_balance in
  let rc' := import_csv_data Examples.read_csv "deposit.csv" "Test Bank"
               "1234567890" (Some "Test Account")
               Examples.conn_failing_at_insert in
  committed Examples.conn_failing_at_balance = empty_store /\
  fst rc = Ok (mkResult false (Some "disk I/O error") 0 [] None None) /\
  map bank_name (banks (committed (snd rc))) = ["Test Bank"] /\
  map account_number (accounts (committed (snd rc))) = ["1234567890"] /\
  transactions (committed (snd rc)) = [] /\
  committed (snd rc) <> committed Examples.conn_failing_at_balance /\
  fst rc' = Ok (mkResult true None 0 ["Row 7: disk I/O error"]
                  (Some 1) (Some 1)).
Proof.
  vm_compute. repeat split; try reflexivity. discriminate.
Qed.

(** ** Runs without injected failures *)

Lemma execute_quiet c :
  faults c = [] ->
  execute c = (Ok tt, mkConn (committed c) (working c) [] (S (clock c))).
Proof. intros H. unfold execute. rewrite H. reflexivity. Qed.

Lemma commit_quiet c :
  faults c = [] ->
  commit c = (Ok tt, mkConn (working c) (working c) [] (S (clock c))).
Proof.
  intros H. unfold commit. rewrite run_bind, (execute_quiet c H). reflexivity.
Qed.

Lemma find_app_none {A : Type} (p : A -> bool) (l : list A) (x : A) :
  find p l = None -> p x = true -> find p (l ++ [x]) = Some x.
Proof.
  induction l as [| y l IH]; simpl; intros Hnone Hx.
  - rewrite Hx. reflexivity.
  - destruct (p y); [discriminate | auto].
Qed.

Lemma find_app_some {A : Type} (p : A -> bool) (l l' : list A) (x : A) :
  find p l = Some x -> find p (l ++ l') = Some x.
Proof.
  induction l as [| y l IH]; simpl; intros H.
  - discriminate.
  - destruct (p y); [exact H | auto].
Qed.

(** [get_or_create_bank] on an existing name: one SELECT, no write. *)
Lemma get_or_create_bank_found name c b :
  faults c = [] ->
  find (bank_named name) (banks (working c)) = Some b ->
  get_or_create_bank name c =
    (Ok (bank_id b), mkConn (committed c) (working c) [] (S (clock c))).
Proof.
  intros Hq Hfind.
  unfold get_or_create_bank, select_bank_id, bind, execute, get_working, ret.
  rewrite Hq. simpl. rewrite Hfind. reflexivity.
Qed.

(** [get_or_create_bank] on a new name: SELECT, INSERT, commit. *)
Lemma get_or_create_bank_created name c :
  faults c = [] ->
  find (bank_named name) (banks (working c)) = None ->
  let w := working c in
  let id := next_id bank_id (banks w) (seq_banks w) in
  let w' := mkStore (banks w ++ [mkBank id name (S (S (clock c)))])
              (accounts w) (transactions w) id (seq_accounts w)
              (seq_transactions w) in
  get_or_create_bank name c =
    (Ok id, mkConn w' w' [] (S (S (S (clock c))))).
Proof.
  intros Hq Hfind.
  unfold get_or_create_bank, select_bank_id, insert_bank, commit, bind,
    execute, get_working, put_working, now, ret.
  rewrite Hq. simpl. rewrite Hfind. reflexivity.
Qed.

Lemma get_or_create_account_found bid number name type c a :
  faults c = [] ->
  find (account_keyed bid number) (accounts (working c)) = Some a ->
  get_or_create_account bid number name type c =
    (Ok (account_id a), mkConn (committed c) (working c) [] (S (clock c))).
Proof.
  intros Hq Hfind.
  unfold get_or_create_account, select_account_id, bind, execute,
    get_working, ret.
  rewrite Hq. simpl. rewrite Hfind. reflexivity.
Qed.

Lemma get_or_create_account_created bid number name type c :
  faults c = [] ->
  find (account_keyed bid number) (accounts (working c)) = None ->
  existsb (fun b => bank_id b =? bid) (banks (working c)) = true ->
  let w := working c in
  let id := next_id account_id (accounts w) (seq_accounts w) in
  let t := S (S (clock c)) in
  let w' := mkStore (banks w)
              (accounts w ++
                 [mkAccount id bid number name type (FFin false 0 0) None
                    true t t])
              (transactions w) (seq_banks w) id (seq_transactions w) in
  get_or_create_account bid number name type c =
    (Ok id, mkConn w' w' [] (S t)).
Proof.
  intros Hq Hfind Hbank.
  unfold get_or_create_account, select_account_id, insert_account, commit,
    bind, execute, get_working, put_working, now, ret, raise.
  rewrite Hq. simpl. rewrite Hfind. simpl. rewrite Hbank. reflexivity.
Qed.

(** Case analysis of a successful run of a chain of [res_bind]s. *)
Ltac res_inv H :=
  unfold res_bind in H;
  repeat match type of H with
         | context [match ?x with _ => _ end] =>
             destruct x eqn:?; try discriminate
         end.

Lemma round_binary64_stored s n d :
  exists f, sqlite_real (round_binary64 s n d) = Some f.
Proof.
  unfold round_binary64.
  destruct (n =? 0); [eexists; reflexivity |].
  match goal with
  | |- context [if ?b then FInf s else FFin s ?m ?q] =>
      destruct b; [eexists; reflexivity | destruct m; eexists; reflexivity]
  end.
Qed.

(** A float made from a decimal that could be compared with 0 is not NaN,
    so SQLite keeps it. *)
Lemma of_Decimal_stored d b f :
  ge_zero d = inr b -> of_Decimal d = inr f ->
  exists f', sqlite_real f = Some f'.
Proof.
  destruct d as [s c e | s | s sg dg]; simpl; intros Hge Hf.
  - inversion Hf; subst. destruct (e >=? 0); apply round_binary64_stored.
  - inversion Hf; subst. eexists; reflexivity.
  - discriminate.
Qed.

Lemma normalize_row_amount_stored row t :
  normalize_row row = inr (Some t) ->
  exists f, sqlite_real (rec_amount t) = Some f.
Proof.
  intros H. unfold normalize_row in H. res_inv H.
  all: inversion H; subst; simpl; eapply of_Decimal_stored; eassumption.
Qed.

Lemma insert_transaction_quiet aid date descr amt type bal c f :
  faults c = [] ->
  existsb (fun a => account_id a =? aid) (accounts (working c)) = true ->
  sqlite_real amt = Some f ->
  let w := working c in
  let id := next_id transaction_id (transactions w) (seq_transactions w) in
  let t := S (clock c) in
  let row := mkTransaction id aid date descr f type None
               match bal with
               | Some b => sqlite_real b
               | None => None
               end t t in
  insert_transaction aid date descr amt type bal c =
    (Ok tt,
     mkConn (committed c)
       (mkStore (banks w) (accounts w) (transactions w ++ [row])
          (seq_banks w) (seq_accounts w) id) [] t).
Proof.
  intros Hq Hacc Hamt.
  unfold insert_transaction, bind, execute, get_working, put_working, now,
    ret, raise.
  rewrite Hq. simpl. rewrite Hacc, Hamt. reflexivity.
Qed.

Lemma stores_inserted aid r f id t :
  sqlite_real (rec_amount r) = Some f ->
  stores aid r
    (mkTransaction id aid (rec_date r) (rec_description r) f (rec_type r)
       None
       match rec_balance r with
       | Some b => sqlite_real b
       | None => None
       end t t).
Proof. intros H. unfold stores. simpl. rewrite H. repeat split. Qed.

(** One turn of the loop. *)
Lemma process_rows_cons aid i row rest imported errs c :
  process_rows aid ((i, row) :: rest) imported errs c =
    match row_body aid row c with
    | (inl e, c1) =>
        match row_error i e with
        | inl e' => (inl e', c1)
        | inr msg => process_rows aid rest imported (errs ++ [msg])%list c1
        end
    | (inr inserted, c1) =>
        process_rows aid rest (if inserted then S imported else imported)
          errs c1
    end.
Proof.
  simpl. unfold bind, try_except, ret, lift.
  destruct (row_body aid row c) as [[e | b] c1]; [| reflexivity].
  destruct (row_error i e); reflexivity.
Qed.

Lemma row_body_raises aid row c e :
  normalize_row row = inl e -> row_body aid row c = (inl e, c).
Proof. intros H. unfold row_body, bind, lift. rewrite H. reflexivity. Qed.

Lemma row_body_skips aid row c :
  normalize_row row = inr None -> row_body aid row c = (Ok false, c).
Proof. intros H. unfold row_body, bind, lift. rewrite H. reflexivity. Qed.

Lemma row_body_inserts aid row c t :
  normalize_row row = inr (Some t) ->
  row_body aid row c =
    match insert_transaction aid (rec_date t) (rec_description t)
            (rec_amount t) (rec_type t) (rec_balance t) c with
    | (inl e, c1) => (inl e, c1)
    | (inr _, c1) => (Ok true, c1)
    end.
Proof. intros H. unfold row_body, bind, lift. rewrite H. reflexivity. Qed.

(** Without injected failures and with the account in place, the loop
    inserts the records of the rows in order and logs the rows that raise,
    when each of these has an [int] label; it touches nothing else. *)
Lemma process_rows_quiet aid rows :
  forall imported errs c,
    faults c = [] ->
    existsb (fun a => account_id a =? aid) (accounts (working c)) = true ->
    taggable rows = true ->
    exists c' new,
      process_rows aid rows imported errs c =
        (Ok ((imported + length (records_of rows))%nat,
             (errs ++ row_errors rows)%list), c') /\
      faults c' = [] /\
      committed c' = committed c /\
      banks (working c') = banks (working c) /\
      accounts (working c') = accounts (working c) /\
      transactions (working c') = (transactions (working c) ++ new)%list /\
      Forall2 (stores aid) (records_of rows) new.
Proof.
  induction rows as [| [i row] rest IH]; intros imported errs c Hq Hacc Htag.
  - exists c, []. simpl. unfold ret.
    rewrite Nat.add_0_r, !app_nil_r. repeat split; auto.
  - rewrite process_rows_cons. unfold records_of, row_errors.
    simpl flat_map. fold (records_of rest). fold (row_errors rest).
    simpl in Htag. apply andb_true_iff in Htag. destruct Htag as [Hi Htag].
    destruct (normalize_row row) as [e | [t |]] eqn:Hrow.
    + rewrite (row_body_raises aid row c e Hrow).
      destruct i as [z | l]; [| discriminate].
      unfold row_error, fst, Ok. cbv beta iota.
      set (msg := "Row " ++ str_of_int (z + 7) ++ ": " ++ exn_str e).
      destruct (IH imported (errs ++ [msg])%list c Hq Hacc Htag)
        as (c' & new & Hrun & H).
      exists c', new. split; [| exact H].
      rewrite Hrun. rewrite <- app_assoc. reflexivity.
    + destruct (normalize_row_amount_stored row t Hrow) as [f Hf].
      rewrite (row_body_inserts aid row c t Hrow).
      rewrite (insert_transaction_quiet aid _ _ _ _ _ c f Hq Hacc Hf).
      unfold Ok. cbv beta iota zeta.
      match goal with
      | |- context [process_rows aid rest (S imported) errs ?c1] =>
          destruct (IH (S imported) errs c1 eq_refl Hacc Htag)
            as (c' & new & Hrun & Hq' & Hc & Hb & Ha & Ht & Hnew)
      end.
      eexists c', (_ :: new). rewrite Hrun.
      split; [simpl length; rewrite Nat.add_succ_r; reflexivity |].
      simpl in Hc, Hb, Ha, Ht.
      repeat split; auto.
      * rewrite Ht, <- app_assoc. reflexivity.
      * simpl. constructor; [apply stores_inserted; exact Hf | exact Hnew].
    + rewrite (row_body_skips aid row c Hrow). unfold Ok. cbv beta iota zeta.
      destruct (IH imported errs c Hq Hacc Htag) as (c' & new & Hrun & H).
      exists c', new. split; [| exact H].
      rewrite Hrun. reflexivity.
Qed.

(** Without injected failures, a row that raises under a [str] label ends
    the loop with the handler's [TypeError]. *)
Lemma process_rows_untaggable aid rows :
  forall imported errs c,
    faults c = [] ->
    existsb (fun a => account_id a =? aid) (accounts (working c)) = true ->
    taggable rows = false ->
    exists c',
      process_rows aid rows imported errs c = (Raise str_plus_int, c').
Proof.
  induction rows as [| [i row] rest IH]; intros imported errs c Hq Hacc Htag.
  - discriminate.
  - rewrite process_rows_cons. simpl in Htag.
    destruct (normalize_row row) as [e | [t |]] eqn:Hrow.
    + rewrite (row_body_raises aid row c e Hrow).
      destruct i as [z | l]; unfold row_error, Ok, Raise; cbv beta iota.
      * apply IH; assumption.
      * eexists. reflexivity.
    + destruct (normalize_row_amount_stored row t Hrow) as [f Hf].
      rewrite (row_body_inserts aid row c t Hrow).
      rewrite (insert_transaction_quiet aid _ _ _ _ _ c f Hq Hacc Hf).
      unfold Ok. cbv beta iota zeta.
      apply IH; [reflexivity | exact Hacc |].
      destruct i; exact Htag.
    + rewrite (row_body_skips aid row c Hrow). unfold Ok. cbv beta iota zeta.
      apply IH; [exact Hq | exact Hacc |].
      destruct i; exact Htag.
Qed.

(** On a frame whose labels are all [int], the loop itself never raises,
    whatever fails inside it. *)
Lemma process_rows_returns aid rows :
  int_labelled rows = true ->
  forall imported errs c,
    exists st c', process_rows aid rows imported errs c = (Ok st, c').
Proof.
  induction rows as [| [i row] rest IH]; intros Hint imported errs c.
  - eexists; eexists; reflexivity.
  - rewrite process_rows_cons. simpl in Hint.
    destruct i as [z | l]; [| discriminate].
    destruct (row_body aid row c) as [[e | b] c1]; simpl; apply IH;
      exact Hint.
Qed.

Lemma find_some_holds {A : Type} (p : A -> bool) (l : list A) (x : A) :
  find p l = Some x -> p x = true.
Proof. intros H. apply find_some in H. apply H. Qed.

Lemma find_some_existsb {A : Type} (p q : A -> bool) (l : list A) (x : A) :
  find p l = Some x -> q x = true -> existsb q l = true.
Proof.
  intros H Hq. apply find_some in H. apply existsb_exists.
  exists x. split; [apply H | exact Hq].
Qed.

Lemma bank_named_refl id name t : bank_named name (mkBank id name t) = true.
Proof. unfold bank_named. simpl. apply String.eqb_refl. Qed.

Lemma account_keyed_refl id bid number name type ob cb act t1 t2 :
  account_keyed bid number
    (mkAccount id bid number name type ob cb act t1 t2) = true.
Proof.
  unfold account_keyed. simpl. rewrite Z.eqb_refl, String.eqb_refl.
  reflexivity.
Qed.

(** Bank resolution without failures: the bank is there afterwards, found
    or appended and committed. *)
Lemma get_or_create_bank_quiet name c :
  faults c = [] ->
  exists b c1,
    get_or_create_bank name c = (Ok (bank_id b), c1) /\
    faults c1 = [] /\
    find (bank_named name) (banks (working c1)) = Some b /\
    accounts (working c1) = accounts (working c) /\
    transactions (working c1) = transactions (working c) /\
    ((find (bank_named name) (banks (working c)) = Some b /\
      working c1 = working c /\ committed c1 = committed c) \/
     (find (bank_named name) (banks (working c)) = None /\
      banks (working c1) = (banks (working c) ++ [b])%list /\
      committed c1 = working c1)).
Proof.
  intros Hq.
  destruct (find (bank_named name) (banks (working c))) as [b |] eqn:Hfind.
  - exists b. eexists. split.
    + apply get_or_create_bank_found; assumption.
    + simpl. repeat split; auto.
  - exists (mkBank (next_id bank_id (banks (working c)) (seq_banks (working c)))
              name (S (S (clock c)))).
    eexists. split.
    + apply (get_or_create_bank_created name c Hq Hfind).
    + simpl. split; [reflexivity |].
      split; [apply find_app_none; [exact Hfind | apply bank_named_refl] |].
      split; [reflexivity |]. split; [reflexivity |].
      right. repeat split; reflexivity.
Qed.

Lemma get_or_create_account_quiet bid number name type c :
  faults c = [] ->
  existsb (fun b => bank_id b =? bid) (banks (working c)) = true ->
  exists a c1,
    get_or_create_account bid number name type c = (Ok (account_id a), c1) /\
    faults c1 = [] /\
    find (account_keyed bid number) (accounts (working c1)) = Some a /\
    banks (working c1) = banks (working c) /\
    transactions (working c1) = transactions (working c) /\
    ((find (account_keyed bid number) (accounts (working c)) = Some a /\
      working c1 = working c /\ committed c1 = committed c) \/
     (find (account_keyed bid number) (accounts (working c)) = None /\
      accounts (working c1) = (accounts (working c) ++ [a])%list /\
      current_balance a = None /\
      acc_updated_at a = acc_created_at a /\
      committed c1 = working c1)).
Proof.
  intros Hq Hbank.
  destruct (find (account_keyed bid number) (accounts (working c)))
    as [a |] eqn:Hfind.
  - exists a. eexists. split.
    + apply get_or_create_account_found; assumption.
    + simpl. repeat split; auto.
  - exists (mkAccount
              (next_id account_id (accounts (working c))
                 (seq_accounts (working c)))
              bid number name type (FFin false 0 0) None true
              (S (S (clock c))) (S (S (clock c)))).
    eexists. split.
    + apply (get_or_create_account_created bid number name type c Hq Hfind
               Hbank).
    + simpl. split; [reflexivity |].
      split; [apply find_app_none; [exact Hfind | apply account_keyed_refl] |].
      split; [reflexivity |]. split; [reflexivity |].
      right. repeat split; reflexivity.
Qed.

(** The balance recompute without failures. *)
Lemma update_current_balance_quiet aid c :
  faults c = [] ->
  exists c',
    update_current_balance aid c = (Ok tt, c') /\
    faults c' = [] /\
    committed c' = committed c /\
    banks (working c') = banks (working c) /\
    transactions (working c') = transactions (working c) /\
    accounts (working c') =
      recomputed aid (transactions (working c)) (accounts (working c))
        (S (S (clock c))).
Proof.
  intros Hq.
  unfold update_current_balance, select_latest_balance,
    update_account_balance, recomputed, latest_transaction, bind, execute,
    get_working, put_working, now, ret.
  rewrite Hq. simpl.
  destruct (first_row None _) as [row |]; simpl.
  - destruct (balance_after row) as [b |]; simpl.
    + destruct (PyFloat.truthy b); simpl;
        eexists; repeat split; reflexivity.
    + eexists; repeat split; reflexivity.
  - eexists; repeat split; reflexivity.
Qed.

(** The whole call without injected failures, on a source that was read
    and whose failing rows can be tagged. *)
Lemma import_csv_data_quiet read_csv path name number display_name df c :
  faults c = [] ->
  read_csv path = Ok df ->
  taggable df = true ->
  exists b a accs new t c',
    import_csv_data read_csv path name number display_name c =
      (Ok (mkResult true None (length (records_of df)) (row_errors df)
             (Some (bank_id b)) (Some (account_id a))), c') /\
    faults c' = [] /\
    working c' = committed c' /\
    find (bank_named name) (banks (committed c')) = Some b /\
    (find (bank_named name) (banks (working c)) = Some b /\
     banks (committed c') = banks (working c) \/
     find (bank_named name) (banks (working c)) = None /\
     banks (committed c') = (banks (working c) ++ [b])%list) /\
    find (account_keyed (bank_id b) number) accs = Some a /\
    (find (account_keyed (bank_id b) number) (accounts (working c)) = Some a /\
     accs = accounts (working c) \/
     find (account_keyed (bank_id b) number) (accounts (working c)) = None /\
     accs = (accounts (working c) ++ [a])%list /\
     current_balance a = None /\
     acc_updated_at a = acc_created_at a) /\
    transactions (committed c') = (transactions (working c) ++ new)%list /\
    Forall2 (stores (account_id a)) (records_of df) new /\
    accounts (committed c') =
      if (0 <? length (records_of df))%nat
      then recomputed (account_id a) (transactions (committed c')) accs t
      else accs.
Proof.
  intros Hq Hread Htag.
  unfold import_csv_data, try_except.
  rewrite run_bind. unfold lift. rewrite Hread. unfold Ok. cbv beta iota.
  destruct (get_or_create_bank_quiet name c Hq)
    as (b & c0 & Hb & Hq0 & Hfb & Hacc0 & Ht0 & Hcase0).
  rewrite run_bind, Hb. unfold Ok. cbv beta iota.
  assert (Hexb : existsb (fun b' => bank_id b' =? bank_id b)
                   (banks (working c0)) = true)
    by (eapply find_some_existsb; [exact Hfb | apply Z.eqb_refl]).
  destruct (get_or_create_account_quiet (bank_id b) number display_name
              "checking" c0 Hq0 Hexb)
    as (a & c1 & Ha & Hq1 & Hfa & Hb1 & Ht1 & Hcase1).
  rewrite run_bind, Ha. unfold Ok. cbv beta iota.
  assert (Hexa : existsb (fun a' => account_id a' =? account_id a)
                   (accounts (working c1)) = true)
    by (eapply find_some_existsb; [exact Hfa | apply Z.eqb_refl]).
  destruct (process_rows_quiet (account_id a) df 0 [] c1 Hq1 Hexa Htag)
    as (c2 & new & Hrun & Hq2 & Hc2 & Hb2 & Ha2 & Ht2 & Hnew).
  rewrite run_bind, Hrun. unfold Ok. cbv beta iota.
  simpl fst. simpl snd.
  exists b, a, (accounts (working c1)), new.
  assert (Hbanks :
            find (bank_named name) (banks (working c)) = Some b /\
            banks (working c2) = banks (working c) \/
            find (bank_named name) (banks (working c)) = None /\
            banks (working c2) = (banks (working c) ++ [b])%list).
  { rewrite Hb2, Hb1.
    destruct Hcase0 as [(Hf & Hw & _) | (Hf & Hw & _)].
    - left. rewrite Hw. auto.
    - right. auto. }
  assert (Haccs :
            find (account_keyed (bank_id b) number) (accounts (working c))
              = Some a /\
            accounts (working c1) = accounts (working c) \/
            find (account_keyed (bank_id b) number) (accounts (working c))
              = None /\
            accounts (working c1) = (accounts (working c) ++ [a])%list /\
            current_balance a = None /\
            acc_updated_at a = acc_created_at a).
  { rewrite <- Hacc0.
    destruct Hcase1 as [(Hf & Hw & _) | (Hf & Hw & Hcb & Hup & _)].
    - left. rewrite Hw. auto.
    - right. auto. }
  assert (Hfb2 : find (bank_named name) (banks (working c2)) = Some b)
    by (rewrite Hb2, Hb1; exact Hfb).
  assert (Htx : transactions (working c2) =
                (transactions (working c) ++ new)%list)
    by (rewrite Ht2, Ht1, Ht0; reflexivity).
  destruct (0 <? length (records_of df))%nat eqn:Hpos.
  - destruct (update_current_balance_quiet (account_id a) c2 Hq2)
      as (c3 & Hu & Hq3 & Hc3 & Hb3 & Ht3 & Ha3).
    rewrite run_bind, Hu. unfold Ok. cbv beta iota.
    rewrite run_bind, (commit_quiet c3 Hq3). unfold Ok, ret.
    cbv beta iota.
    exists (S (S (clock c2))). eexists. split; [reflexivity |].
    simpl. rewrite Hb3, Ht3, Ha3, Ha2.
    repeat split; assumption.
  - rewrite run_bind. unfold ret at 1. cbv beta iota.
    rewrite run_bind, (commit_quiet c2 Hq2). unfold Ok, ret.
    cbv beta iota.
    exists 0%nat. eexists. split; [reflexivity |].
    simpl. rewrite Ha2.
    repeat split; assumption.
Qed.

(** ** C5: row-level failures *)

(** C5, at the failing input. [referenced.csv] holds a valid row and a row
    whose date cannot be read; its rows carry a reference before the date,
    so [read_csv] makes the references the index and the labels are [str].
    The handler of the second row evaluates [i+7] on its label and raises
    [TypeError]; the import is aborted: it returns [success: False] with
    that error, nothing is logged, and the valid row is not committed. The
    same two rows under the default index give [success: True], one
    transaction and one logged error. *)
Theorem C5_str_label_aborts_the_import :
  let rc := import_csv_data Examples.read_csv "referenced.csv" "Test Bank"
              "1234567890" (Some "Test Account") fresh_conn in
  let rc' := import_csv_data
               (fun _ => Ok (range_index (map snd Examples.referenced)))
               "referenced.csv" "Test Bank" "1234567890"
               (Some "Test Account") fresh_conn in
  Examples.read_csv "referenced.csv" = Ok Examples.referenced /\
  map fst Examples.referenced = [StrLabel "TXN001"; StrLabel "TXN002"] /\
  map (fun lr => normalized (snd lr)) Examples.referenced = [true; false] /\
  map (fun lr => failed (snd lr)) Examples.referenced = [false; true] /\
  fst rc =
    Ok (mkResult false
          (Some ("can only concatenate str (not " ++ String dquote "int" ++
                 String dquote ") to str")) 0 [] None None) /\
  transactions (committed (snd rc)) = [] /\
  fst rc' =
    Ok (mkResult true None 1
          ["Row 8: Unable to parse date: invalid-date"] (Some 1) (Some 1)) /\
  length (transactions (committed (snd rc'))) = 1%nat.
Proof. vm_compute. repeat split; reflexivity. Qed.

(** *** The loop on frames whose rows can be tagged *)

Lemma records_of_length df :
  length (records_of df) = length (filter normalized (map snd df)).
Proof.
  induction df as [| [i row] rest IH]; [reflexivity |].
  unfold records_of, normalized in *. simpl.
  destruct (normalize_row row) as [e | [t |]]; simpl; auto.
Qed.

Lemma row_errors_length df :
  taggable df = true ->
  length (row_errors df) = length (filter failed (map snd df)).
Proof.
  induction df as [| [i row] rest IH]; intros Htag; [reflexivity |].
  simpl in Htag. apply andb_true_iff in Htag. destruct Htag as [Hi Htag].
  unfold row_errors, failed in *. simpl.
  destruct (normalize_row row) as [e | r]; simpl; auto.
  destruct i as [z | l]; [| discriminate]. simpl. f_equal. apply IH.
  exact Htag.
Qed.

Lemma row_errors_in df z row e :
  In (IntLabel z, row) df ->
  normalize_row row = inl e ->
  In ("Row " ++ str_of_int (z + 7) ++ ": " ++ exn_str e) (row_errors df).
Proof.
  intros Hin Hrow. unfold row_errors. apply in_flat_map.
  exists (IntLabel z, row). split; [exact Hin |].
  simpl. rewrite Hrow. left. reflexivity.
Qed.

(** The malformed statement, run: two rows imported, two logged. *)
Example C5_malformed_statement_run :
  fst (import_csv_data Examples.read_csv "malformed.csv" "Test Bank"
         "1234567890" (Some "Test Account") fresh_conn) =
    Ok (mkResult true None 2
          ["Row 8: Unable to parse date: invalid-date";
           "Row 9: [<class 'decimal.ConversionSyntax'>]"]
          (Some 1) (Some 1)).
Proof. vm_compute. reflexivity. Qed.

(** ** C10: an import that inserts nothing *)

Lemma insert_transaction_keeps_accounts aid date descr amt type bal :
  preserves working_accounts (insert_transaction aid date descr amt type bal).
Proof.
  intro c.
  unfold insert_transaction, bind, execute, get_working, put_working, now,
    ret, raise, working_accounts.
  destruct (faults c) as [| [msg |] fs]; simpl; try reflexivity;
    destruct (existsb _ (accounts (working c))); simpl; try reflexivity;
    destruct (sqlite_real amt); reflexivity.
Qed.

Lemma row_body_keeps_accounts aid row :
  preserves working_accounts (row_body aid row).
Proof.
  unfold row_body. apply preserves_bind; [apply preserves_lift |].
  intros [t |]; [| apply preserves_ret].
  apply preserves_bind; [apply insert_transaction_keeps_accounts |].
  intros _. apply preserves_ret.
Qed.

Lemma process_rows_keeps_accounts aid rows :
  forall imported errs,
    preserves working_accounts (process_rows aid rows imported errs).
Proof.
  induction rows as [| [i row] rest IH]; intros imported errs c.
  - reflexivity.
  - rewrite process_rows_cons.
    pose proof (row_body_keeps_accounts aid row c) as Hrow.
    destruct (row_body aid row c) as [[e | b] c1]; simpl in Hrow.
    + destruct (row_error i e); [exact Hrow | rewrite IH; exact Hrow].
    + rewrite IH. exact Hrow.
Qed.

Lemma get_or_create_bank_keeps_accounts name :
  preserves working_accounts (get_or_create_bank name).
Proof.
  intro c.
  unfold get_or_create_bank, select_bank_id, insert_bank, commit, bind,
    execute, get_working, put_working, now, ret, working_accounts.
  destruct (faults c) as [| [m1 |] [| [m2 |] [| [m3 |] fs]]]; simpl;
    try reflexivity;
    destruct (find _ (banks (working c))); reflexivity.
Qed.

(** When account resolution returns, the accounts are those from before,
    with at most the new row at the end. *)
Lemma get_or_create_account_returns bid number name type c aid c1 :
  get_or_create_account bid number name type c = (inr aid, c1) ->
  accounts (working c1) = accounts (working c) \/
  exists a,
    accounts (working c1) = (accounts (working c) ++ [a])%list /\
    account_id a = aid /\
    account_number a = number /\
    current_balance a = None /\
    acc_updated_at a = acc_created_at a.
Proof.
  unfold get_or_create_account, select_account_id, insert_account, commit,
    bind, execute, get_working, put_working, now, ret, raise.
  destruct (faults c) as [| [m1 |] [| [m2 |] [| [m3 |] fs]]]; simpl;
    try discriminate;
    (destruct (find _ (accounts (working c))); simpl;
     [ intros H; inversion H; subst; left; reflexivity |]);
    try discriminate;
    (destruct (existsb _ (banks (working c))); simpl; try discriminate);
    intros H; inversion H; subst; simpl; right; eexists;
    repeat split; reflexivity.
Qed.

Lemma commit_returns c u c1 :
  commit c = (inr u, c1) -> committed c1 = working c /\ working c1 = working c.
Proof.
  unfold commit, bind, execute.
  destruct (faults c) as [| [msg |] fs]; simpl; intros H;
    inversion H; subst; split; reflexivity.
Qed.

(** What a successful call that counted no transaction did to the accounts:
    nothing, or it appended the account it created. *)
Lemma import_without_rows_keeps_accounts
    read_csv path name number display_name df c r c' :
  read_csv path = Ok df ->
  import_csv_data read_csv path name number display_name c = (Ok r, c') ->
  success r = true ->
  transactions_imported r = 0%nat ->
  exists bid aid,
    res_bank_id r = Some bid /\
    res_account_id r = Some aid /\
    (accounts (committed c') = accounts (working c) \/
     exists a,
       accounts (committed c') = (accounts (working c) ++ [a])%list /\
       account_id a = aid /\
       account_number a = number /\
       current_balance a = None /\
       acc_updated_at a = acc_created_at a).
Proof.
  intros Hread Hrun Hs Hzero.
  unfold import_csv_data, try_except in Hrun.
  rewrite run_bind in Hrun. unfold lift in Hrun. rewrite Hread in Hrun.
  unfold Ok in Hrun. cbv beta iota in Hrun.
  match type of Hrun with
  | (let (_, _) := ?m c in _) = _ =>
      destruct (m c) as [[e | r0] c4] eqn:Hbody
  end.
  - unfold rollback, bind, ret in Hrun. inversion Hrun; subst. discriminate.
  - inversion Hrun; subst r0 c4. clear Hrun.
    apply bind_returns in Hbody. destruct Hbody as (bid & c0 & Hb & Hbody).
    apply bind_returns in Hbody. destruct Hbody as (aid & c1 & Ha & Hbody).
    apply bind_returns in Hbody. destruct Hbody as (st & c2 & Hp & Hbody).
    apply bind_returns in Hbody. destruct Hbody as (u & c3 & Hu & Hbody).
    apply bind_returns in Hbody. destruct Hbody as (v & c4 & Hc & Hbody).
    unfold ret in Hbody. inversion Hbody; subst r c4. clear Hbody.
    simpl in Hzero. rewrite Hzero in Hu. simpl in Hu.
    unfold ret in Hu. inversion Hu; subst c3.
    apply commit_returns in Hc. destruct Hc as [Hc _].
    pose proof (process_rows_keeps_accounts aid df 0 [] c1) as Hpa.
    rewrite Hp in Hpa. unfold working_accounts in Hpa. simpl in Hpa.
    pose proof (get_or_create_bank_keeps_accounts name c) as Hba.
    rewrite Hb in Hba. unfold working_accounts in Hba. simpl in Hba.
    exists bid, aid. simpl. split; [reflexivity |]. split; [reflexivity |].
    rewrite Hc, Hpa, <- Hba.
    eapply get_or_create_account_returns. exact Ha.
Qed.

(** C10, at the failing input. [referenced_bad.csv] holds one row, whose
    date cannot be read, under a [str] label. Imported into the account
    that [deposit.csv] left at 100.00, it inserts no transaction, and the
    claim has the call return [success: True] with a count of 0 and both
    ids. The handler of the row raises [TypeError] on [i+7], so the call
    returns [success: False] with no ids; the accounts stay as they were.
    The same row under the default index gives [success: True], a count
    of 0, one logged error and both ids. *)
Theorem C10_str_label_fails_the_empty_import :
  let c := Examples.conn_after_deposit in
  let rc := import_csv_data Examples.read_csv "referenced_bad.csv"
              "Test Bank" "1234567890" (Some "Test Account") c in
  let rc' := import_csv_data
               (fun _ => Ok (range_index (map snd Examples.referenced_bad)))
               "referenced_bad.csv" "Test Bank" "1234567890"
               (Some "Test Account") c in
  Examples.read_csv "referenced_bad.csv" = Ok Examples.referenced_bad /\
  map fst Examples.referenced_bad = [StrLabel "TXN001"] /\
  records_of Examples.referenced_bad = [] /\
  fst rc =
    Ok (mkResult false
          (Some ("can only concatenate str (not " ++ String dquote "int" ++
                 String dquote ") to str")) 0 [] None None) /\
  accounts (committed (snd rc)) = accounts (committed c) /\
  transactions (committed (snd rc)) = transactions (committed c) /\
  fst rc' =
    Ok (mkResult true None 0
          ["Row 7: Unable to parse date: invalid-date"] (Some 1) (Some 1)) /\
  accounts (committed (snd rc')) = accounts (committed c).
Proof. vm_compute. repeat split; reflexivity. Qed.

(** ** C9: identity resolution is idempotent, transaction insertion is not *)

Lemma max_id_ge {A : Type} (id : A -> Z) (l : list A) (x : A) :
  In x l -> id x <= max_id id l.
Proof.
  unfold max_id. induction l as [| y l IH]; simpl; intros H.
  - contradiction.
  - destruct H as [-> | H]; [lia | specialize (IH H); lia].
Qed.

Lemma next_id_fresh {A : Type} (id : A -> Z) (l : list A) (seq : Z) (x : A) :
  In x l -> id x < next_id id l seq.
Proof.
  intros H. apply (max_id_ge id) in H. unfold next_id. lia.
Qed.

Lemma NoDup_map_snoc {A : Type} (id : A -> Z) (l : list A) (y : A) :
  NoDup (map id l) ->
  (forall x, In x l -> id x <> id y) ->
  NoDup (map id (l ++ [y])).
Proof.
  induction l as [| x l IH]; simpl; intros Hnd Hfresh.
  - constructor; [intros [] | constructor].
  - inversion Hnd as [| ? ? Hnotin Hnd']; subst. constructor.
    + rewrite map_app, in_app_iff. simpl. intros [Hin | [Heq | []]].
      * contradiction.
      * apply (Hfresh x); auto.
    + apply IH; auto.
Qed.

Lemma NoDup_map_injective {A : Type} (id : A -> Z) (l : list A) (x y : A) :
  NoDup (map id l) -> In x l -> In y l -> id x = id y -> x = y.
Proof.
  induction l as [| z l IH]; simpl; intros Hnd Hx Hy Heq.
  - contradiction.
  - inversion Hnd as [| ? ? Hnotin Hnd']; subst.
    destruct Hx as [-> | Hx], Hy as [-> | Hy]; auto.
    + exfalso. apply Hnotin. rewrite Heq. apply in_map. exact Hy.
    + exfalso. apply Hnotin. rewrite <- Heq. apply in_map. exact Hx.
Qed.

(** Calling [get_or_create_bank] twice with one name. *)
Lemma get_or_create_bank_twice name c :
  faults c = [] ->
  exists b c1 c2,
    get_or_create_bank name c = (Ok (bank_id b), c1) /\
    get_or_create_bank name c1 = (Ok (bank_id b), c2) /\
    working c2 = working c1 /\
    faults c2 = [] /\
    find (bank_named name) (banks (working c2)) = Some b /\
    (NoDup (map bank_id (banks (working c))) ->
     NoDup (map bank_id (banks (working c2)))).
Proof.
  intros Hq.
  destruct (get_or_create_bank_quiet name c Hq)
    as (b & c1 & Hb & Hq1 & Hfb & _ & _ & Hcase).
  exists b, c1. eexists. split; [exact Hb |].
  split; [apply (get_or_create_bank_found name c1 b Hq1 Hfb) |].
  simpl. split; [reflexivity |]. split; [reflexivity |].
  split; [exact Hfb |].
  intros Hnd. destruct Hcase as [(_ & Hw & _) | (Hnone & Hw & _)].
  - rewrite Hw. exact Hnd.
  - rewrite Hw. apply NoDup_map_snoc; [exact Hnd |].
    intros x Hx Heq.
    revert Hb. unfold get_or_create_bank, select_bank_id, insert_bank,
      commit, bind, execute, get_working, put_working, now, ret.
    rewrite Hq. simpl. rewrite Hnone. simpl. intros Hb.
    inversion Hb as [[Hid Hc1]].
    pose proof (next_id_fresh bank_id (banks (working c))
                  (seq_banks (working c)) x Hx) as Hlt.
    rewrite Hid in Hlt. lia.
Qed.

(** A second, distinct name resolves to a different id. *)
Lemma get_or_create_bank_distinct name name' c b :
  faults c = [] ->
  NoDup (map bank_id (banks (working c))) ->
  find (bank_named name) (banks (working c)) = Some b ->
  name' <> name ->
  exists b' c',
    get_or_create_bank name' c = (Ok (bank_id b'), c') /\
    bank_id b' <> bank_id b.
Proof.
  intros Hq Hnd Hfb Hne.
  pose proof (find_some _ _ Hfb) as [Hin Hname].
  destruct (find (bank_named name') (banks (working c))) as [b' |] eqn:Hf'.
  - exists b'. eexists. split.
    + apply (get_or_create_bank_found name' c b' Hq Hf').
    + intros Heq.
      pose proof (find_some _ _ Hf') as [Hin' Hname'].
      assert (b' = b)
        by (eapply NoDup_map_injective; eauto).
      subst b'. unfold bank_named in *.
      apply String.eqb_eq in Hname, Hname'. congruence.
  - exists (mkBank (next_id bank_id (banks (working c)) (seq_banks (working c)))
              name' (S (S (clock c)))).
    eexists. split.
    + apply (get_or_create_bank_created name' c Hq Hf').
    + simpl.
      pose proof (next_id_fresh bank_id (banks (working c))
                    (seq_banks (working c)) b Hin).
      lia.
Qed.

(** Calling [get_or_create_account] twice with one key. *)
Lemma get_or_create_account_twice bid number name type c :
  faults c = [] ->
  existsb (fun b => bank_id b =? bid) (banks (working c)) = true ->
  exists a c1 c2,
    get_or_create_account bid number name type c = (Ok (account_id a), c1) /\
    get_or_create_account bid number name type c1 = (Ok (account_id a), c2) /\
    working c2 = working c1.
Proof.
  intros Hq Hbank.
  destruct (get_or_create_account_quiet bid number name type c Hq Hbank)
    as (a & c1 & Ha & Hq1 & Hfa & _).
  exists a, c1. eexists. split; [exact Ha |].
  split; [apply (get_or_create_account_found _ _ _ _ c1 a Hq1 Hfa) |].
  reflexivity.
Qed.

Lemma set_balance_keeps_key aid b t bid number a :
  account_keyed bid number (set_balance aid b t a) = account_keyed bid number a.
Proof.
  unfold set_balance. destruct (account_id a =? aid); reflexivity.
Qed.

Lemma set_balance_keeps_id aid b t a :
  account_id (set_balance aid b t a) = account_id a.
Proof.
  unfold set_balance. destruct (account_id a =? aid); reflexivity.
Qed.

Lemma find_map_set_balance aid b t bid number l :
  find (account_keyed bid number) (map (set_balance aid b t) l) =
    option_map (set_balance aid b t) (find (account_keyed bid number) l).
Proof.
  induction l as [| a l IH]; simpl; [reflexivity |].
  rewrite set_balance_keeps_key.
  destruct (account_keyed bid number a); [reflexivity | exact IH].
Qed.

(** The balance recompute changes no account's identity. *)
Lemma recomputed_ids aid txns accs t :
  map account_id (recomputed aid txns accs t) = map account_id accs.
Proof.
  unfold recomputed.
  destruct (first_row None _) as [row |]; [| reflexivity].
  destruct (balance_after row) as [b |]; [| reflexivity].
  destruct (PyFloat.truthy b); [| reflexivity].
  rewrite map_map. apply map_ext. intros a. apply set_balance_keeps_id.
Qed.

Lemma recomputed_find aid txns accs t bid number a :
  find (account_keyed bid number) accs = Some a ->
  exists a',
    find (account_keyed bid number) (recomputed aid txns accs t) = Some a' /\
    account_id a' = account_id a.
Proof.
  intros Hf. unfold recomputed.
  destruct (first_row None _) as [row |]; [| eauto].
  destruct (balance_after row) as [b |]; [| eauto].
  destruct (PyFloat.truthy b); [| eauto].
  rewrite find_map_set_balance, Hf. simpl.
  eexists. split; [reflexivity | apply set_balance_keeps_id].
Qed.

Lemma stores_same_content aid r t1 t2 :
  stores aid r t1 -> stores aid r t2 -> same_content t1 t2.
Proof.
  unfold stores, same_content.
  intros (H1 & H2 & H3 & H4 & H5 & H6 & H7) (G1 & G2 & G3 & G4 & G5 & G6 & G7).
  repeat split; congruence.
Qed.

Lemma stored_twice_same_content aid rs :
  forall l1 l2,
    Forall2 (stores aid) rs l1 -> Forall2 (stores aid) rs l2 ->
    Forall2 same_content l1 l2.
Proof.
  induction rs as [| r rs IH]; intros l1 l2 H1 H2;
    inversion H1; subst; inversion H2; subst; constructor.
  - eapply stores_same_content; eassumption.
  - apply IH; assumption.
Qed.

(** Importing one statement twice into one bank and account. *)
Lemma reimport_duplicates_transactions
    read_csv path name number display_name df c :
  faults c = [] ->
  read_csv path = Ok df ->
  taggable df = true ->
  exists bid aid c1 c2 new1 new2,
    import_csv_data read_csv path name number display_name c =
      (Ok (mkResult true None (length (records_of df)) (row_errors df)
             (Some bid) (Some aid)), c1) /\
    import_csv_data read_csv path name number display_name c1 =
      (Ok (mkResult true None (length (records_of df)) (row_errors df)
             (Some bid) (Some aid)), c2) /\
    banks (committed c2) = banks (committed c1) /\
    map account_id (accounts (committed c2)) =
      map account_id (accounts (committed c1)) /\
    transactions (committed c1) = (transactions (working c) ++ new1)%list /\
    transactions (committed c2) = (transactions (committed c1) ++ new2)%list /\
    Forall2 (stores aid) (records_of df) new1 /\
    Forall2 (stores aid) (records_of df) new2 /\
    Forall2 same_content new1 new2.
Proof.
  intros Hq Hread Htag.
  destruct (import_csv_data_quiet read_csv path name number display_name
              df c Hq Hread Htag)
    as (b & a & accs & new1 & t1 & c1 & Hrun1 & Hq1 & Hclean1 & Hfb1 & _
        & Hfa1 & _ & Htx1 & Hnew1 & Haccs1).
  destruct (import_csv_data_quiet read_csv path name number display_name
              df c1 Hq1 Hread Htag)
    as (b2 & a2 & accs2 & new2 & t2 & c2 & Hrun2 & _ & _ & _ & Hbcase
        & Hfa2 & Hacase & Htx2 & Hnew2 & Haccs2).
  rewrite Hclean1 in Hbcase, Hacase, Htx2.
  assert (Hb2 : b2 = b /\ banks (committed c2) = banks (committed c1)).
  { destruct Hbcase as [(Hf & Hbk) | (Hf & _)]; [| congruence].
    split; [congruence | exact Hbk]. }
  destruct Hb2 as [-> Hbanks].
  assert (Hfa1' : exists a1,
             find (account_keyed (bank_id b) number) (accounts (committed c1))
               = Some a1 /\ account_id a1 = account_id a).
  { rewrite Haccs1. destruct (0 <? _)%nat; [| eauto].
    apply recomputed_find. exact Hfa1. }
  destruct Hfa1' as (a1 & Hfa1' & Hid1).
  assert (Ha2 : a2 = a1 /\ accs2 = accounts (committed c1)).
  { destruct Hacase as [(Hf & Hac) | (Hf & _)]; [| congruence].
    split; [congruence | exact Hac]. }
  destruct Ha2 as [-> ->].
  rewrite Hid1 in Hrun2, Hnew2.
  exists (bank_id b), (account_id a), c1, c2, new1, new2.
  split; [exact Hrun1 |]. split; [exact Hrun2 |].
  split; [exact Hbanks |].
  split.
  { rewrite Haccs2. destruct (0 <? _)%nat; [| reflexivity].
    apply recomputed_ids. }
  split; [exact Htx1 |]. split; [exact Htx2 |].
  split; [exact Hnew1 |]. split; [exact Hnew2 |].
  eapply stored_twice_same_content; eassumption.
Qed.

(** C9. On a store that answers every statement and whose bank ids are
    distinct: [get_or_create_bank] called twice with one name returns one
    id and the second call writes nothing, and another name then gets
    another id; [get_or_create_account] called twice with one
    (bank_id, account_number) returns one id and the second call writes
    nothing. Importing one statement twice into one bank and account,
    when no failing row carries a [str] label: both calls return
    [success: True] with the same ids, the number of records of the
    statement as count and the same error log; the second call leaves the
    banks as they were and the accounts with the same ids; each call
    appends one transaction per record of the statement, in order,
    holding that record's date, description, amount, type and balance
    under the account's id, so the second call appends the rows of the
    first once more (new rows, same content). *)
Theorem C9_identity_idempotent_transactions_duplicated :
  forall c,
    faults c = [] ->
    NoDup (map bank_id (banks (working c))) ->
    (forall name,
        exists id c1 c2,
          get_or_create_bank name c = (Ok id, c1) /\
          get_or_create_bank name c1 = (Ok id, c2) /\
          working c2 = working c1 /\
          forall name',
            name' <> name ->
            exists id' c3,
              get_or_create_bank name' c2 = (Ok id', c3) /\ id' <> id) /\
    (forall bid number name type,
        existsb (fun b => bank_id b =? bid) (banks (working c)) = true ->
        exists id c1 c2,
          get_or_create_account bid number name type c = (Ok id, c1) /\
          get_or_create_account bid number name type c1 = (Ok id, c2) /\
          working c2 = working c1) /\
    (forall read_csv path name number display_name df,
        read_csv path = Ok df ->
        taggable df = true ->
        exists bid aid c1 c2 new1 new2,
          import_csv_data read_csv path name number display_name c =
            (Ok (mkResult true None (length (records_of df)) (row_errors df)
                   (Some bid) (Some aid)), c1) /\
          import_csv_data read_csv path name number display_name c1 =
            (Ok (mkResult true None (length (records_of df)) (row_errors df)
                   (Some bid) (Some aid)), c2) /\
          banks (committed c2) = banks (committed c1) /\
          map account_id (accounts (committed c2)) =
            map account_id (accounts (committed c1)) /\
          transactions (committed c1) =
            (transactions (working c) ++ new1)%list /\
          transactions (committed c2) =
            (transactions (committed c1) ++ new2)%list /\
          Forall2 (stores aid) (records_of df) new1 /\
          Forall2 (stores aid) (records_of df) new2 /\
          Forall2 same_content new1 new2).
Proof.
  intros c Hq Hnd. split; [| split].
  - intros name.
    destruct (get_or_create_bank_twice name c Hq)
      as (b & c1 & c2 & H1 & H2 & Hw & Hq2 & Hfb & Hnd2).
    exists (bank_id b), c1, c2. repeat split; try assumption.
    intros name' Hne.
    destruct (get_or_create_bank_distinct name name' c2 b Hq2 (Hnd2 Hnd)
                Hfb Hne) as (b' & c3 & H3 & Hdiff).
    exists (bank_id b'), c3. split; assumption.
  - intros bid number name type Hbank.
    destruct (get_or_create_account_twice bid number name type c Hq Hbank)
      as (a & c1 & c2 & H1 & H2 & Hw).
    exists (account_id a), c1, c2. repeat split; assumption.
  - intros read_csv path name number display_name df Hread Htag.
    exact (reimport_duplicates_transactions read_csv path name number
             display_name df c Hq Hread Htag).
Qed.

Lemma C9_identity_witness :
  faults fresh_conn = [] /\
  NoDup (map bank_id (banks (working fresh_conn))) /\
  (forall name,
      exists id c1 c2,
        get_or_create_bank name fresh_conn = (Ok id, c1) /\
        get_or_create_bank name c1 = (Ok id, c2) /\
        working c2 = working c1 /\
        forall name',
          name' <> name ->
          exists id' c3,
            get_or_create_bank name' c2 = (Ok id', c3) /\ id' <> id) /\
  (forall bid number name type,
      existsb (fun b => bank_id b =? bid) (banks (working fresh_conn))
        = true ->
      exists id c1 c2,
        get_or_create_account bid number name type fresh_conn = (Ok id, c1) /\
        get_or_create_account bid number name type c1 = (Ok id, c2) /\
        working c2 = working c1) /\
  Examples.read_csv "sample.csv" = Ok Examples.sample /\
  taggable Examples.sample = true /\
  length (records_of Examples.sample) = 3%nat /\
  (exists bid aid c1 c2 new1 new2,
      import_csv_data Examples.read_csv "sample.csv" "Test Bank"
          "1234567890" (Some "Test Account") fresh_conn =
        (Ok (mkResult true None (length (records_of Examples.sample))
               (row_errors Examples.sample) (Some bid) (Some aid)), c1) /\
      import_csv_data Examples.read_csv "sample.csv" "Test Bank"
          "1234567890" (Some "Test Account") c1 =
        (Ok (mkResult true None (length (records_of Examples.sample))
               (row_errors Examples.sample) (Some bid) (Some aid)), c2) /\
      banks (committed c2) = banks (committed c1) /\
      map account_id (accounts (committed c2)) =
        map account_id (accounts (committed c1)) /\
      transactions (committed c1) =
        (transactions (working fresh_conn) ++ new1)%list /\
      transactions (committed c2) =
        (transactions (committed c1) ++ new2)%list /\
      Forall2 (stores aid) (records_of Examples.sample) new1 /\
      Forall2 (stores aid) (records_of Examples.sample) new2 /\
      Forall2 same_content new1 new2).
Proof.
  split; [reflexivity |]. split; [constructor |].
  destruct (C9_identity_idempotent_transactions_duplicated fresh_conn
              eq_refl (NoDup_nil Z)) as (Hbank & Hacc & Himp).
  split; [exact Hbank |]. split; [exact Hacc |].
  split; [reflexivity |]. split; [reflexivity |]. split; [reflexivity |].
  exact (Himp Examples.read_csv "sample.csv" "Test Bank" "1234567890"
           (Some "Test Account") Examples.sample eq_refl eq_refl).
Defined.

(** The test [test_get_or_create_bank], and the sample statement imported
    twice: three transactions, then six. *)
Example C9_bank_ids_run :
  let '(r1, c1) := get_or_create_bank "Test Bank" fresh_conn in
  let '(r2, c2) := get_or_create_bank "Test Bank" c1 in
  let '(r3, c3) := get_or_create_bank "Another Bank" c2 in
  r1 = Ok 1 /\ r2 = Ok 1 /\ r3 = Ok 2 /\
  let c4 := snd (import_csv_data Examples.read_csv "sample.csv" "Test Bank"
                   "1234567890" (Some "Test Account") c3) in
  let c5 := snd (import_csv_data Examples.read_csv "sample.csv" "Test Bank"
                   "1234567890" (Some "Test Account") c4) in
  length (banks (committed c5)) = 2%nat /\
  length (accounts (committed c5)) = 1%nat /\
  length (transactions (committed c4)) = 3%nat /\
  length (transactions (committed c5)) = 6%nat.
Proof. vm_compute. repeat split; reflexivity. Qed.

(** ** C4: the rows the classifier skips *)

(** [contains p s] is the substring test. *)
Lemma prefix_app p : forall s, String.prefix p s = true <-> exists b, s = p ++ b.
Proof.
  induction p as [| a p IH]; intros s; simpl.
  - split; [intros _; exists s; reflexivity |].
    intros _. destruct s; reflexivity.
  - destruct s as [| a' s]; simpl.
    + split; [discriminate | intros [b Hb]; discriminate].
    + destruct (ascii_dec a a') as [-> | Hne].
      * rewrite IH. split; intros [b Hb]; exists b; congruence.
      * split; [discriminate | intros [b Hb]; congruence].
Qed.

Lemma contains_substring p s :
  contains p s = true <-> exists a b, s = a ++ p ++ b.
Proof.
  induction s as [| c s IH].
  - change (contains p EmptyString)
      with (String.prefix p EmptyString || false).
    rewrite orb_false_r, prefix_app. split.
    + intros [b Hb]. exists EmptyString, b. exact Hb.
    + intros (a & b & Hab). destruct a; simpl in Hab.
      * exists b. exact Hab.
      * discriminate.
  - change (contains p (String c s))
      with (String.prefix p (String c s) || contains p s).
    rewrite orb_true_iff, prefix_app, IH. split.
    + intros [[b Hb] | (a & b & Hab)].
      * exists EmptyString, b. exact Hb.
      * exists (String c a), b. simpl. congruence.
    + intros (a & b & Hab). destruct a as [| c' a]; simpl in Hab.
      * left. exists b. exact Hab.
      * right. exists a, b. congruence.
Qed.

(** C4, as the code has it. For a row with at least the three cells the
    loop reads: when the first cell is missing or blank, or the description
    contains Total, Beginning, Ending or Summary, or the first cell is Date
    or the description is Description, or the amount cell is missing or
    reads nan, the row is left by [continue] before any parsing: it gives no
    transaction and no error entry, and the loop goes on as if the row were
    not there. *)
Theorem C4_skipped_rows_leave_no_trace :
  forall (c0 c1 c2 : cell) (tail : list cell),
    let row := c0 :: c1 :: c2 :: tail in
    let descr := if isna c1 then EmptyString else strip (str c1) in
    (isna c0 = true \/ strip (str c0) = EmptyString \/
     (exists a b, descr = a ++ "Total" ++ b) \/
     (exists a b, descr = a ++ "Beginning" ++ b) \/
     (exists a b, descr = a ++ "Ending" ++ b) \/
     (exists a b, descr = a ++ "Summary" ++ b) \/
     strip (str c0) = "Date" \/ descr = "Description" \/
     isna c2 = true \/ strip (str c2) = "nan") ->
    normalize_row row = Ok None /\
    forall aid i rest imported errs c,
      process_rows aid ((i, row) :: rest) imported errs c =
        process_rows aid rest imported errs c.
Proof.
  intros c0 c1 c2 tail row descr H.
  assert (Hrow : normalize_row row = Ok None).
  { unfold normalize_row, row.
    assert (Hbal : exists bs,
               (if (3 <? length (c0 :: c1 :: c2 :: tail))%nat
                then res_bind (iloc (c0 :: c1 :: c2 :: tail) 3)
                       (fun c3 => Ok (if isna c3 then None
                                      else Some (strip (str c3))))
                else Ok None) = Ok bs).
    { destruct tail as [| c3 tail]; simpl; eexists; reflexivity. }
    destruct Hbal as [bs Hbal]. rewrite Hbal.
    unfold iloc. simpl nth_error. unfold res_bind, Ok. fold descr.
    destruct (isna c0 || (strip (str c0) =? EmptyString)%string) eqn:E0;
      [reflexivity |].
    destruct (is_summary descr) eqn:E1; [reflexivity |].
    destruct ((strip (str c0) =? "Date")%string
              || (descr =? "Description")%string) eqn:E2; [reflexivity |].
    destruct (isna c2 || (strip (str c2) =? "nan")%string) eqn:E3;
      [reflexivity |].
    exfalso.
    apply orb_false_iff in E0, E2, E3.
    destruct E0 as [E0a E0b], E2 as [E2a E2b], E3 as [E3a E3b].
    unfold is_summary in E1.
    repeat (apply orb_false_iff in E1; destruct E1 as [E1 ?]).
    rewrite String.eqb_neq in E0b, E2a, E2b, E3b.
    destruct H as [H | [H | [H | [H | [H | [H | [H | [H | [H | H]]]]]]]]];
      try congruence;
      apply contains_substring in H; congruence. }
  split; [exact Hrow |].
  intros aid i rest imported errs c.
  rewrite process_rows_cons, (row_body_skips aid row c Hrow). reflexivity.
Qed.

Lemma C4_skipped_rows_witness :
  let c0 := Val "04/01/2024" in
  let c1 := Val "Beginning balance as of 04/01/2024" in
  let c2 := NaN in
  let tail := [Val "10,541.95"] in
  let row := c0 :: c1 :: c2 :: tail in
  let descr := if isna c1 then EmptyString else strip (str c1) in
  (isna c0 = true \/ strip (str c0) = EmptyString \/
   (exists a b, descr = a ++ "Total" ++ b) \/
   (exists a b, descr = a ++ "Beginning" ++ b) \/
   (exists a b, descr = a ++ "Ending" ++ b) \/
   (exists a b, descr = a ++ "Summary" ++ b) \/
   strip (str c0) = "Date" \/ descr = "Description" \/
   isna c2 = true \/ strip (str c2) = "nan") /\
  normalize_row row = Ok None /\
  forall aid i rest imported errs c,
    process_rows aid ((i, row) :: rest) imported errs c =
      process_rows aid rest imported errs c.
Proof.
  intros c0 c1 c2 tail row descr.
  assert (H : isna c0 = true \/ strip (str c0) = EmptyString \/
              (exists a b, descr = a ++ "Total" ++ b) \/
              (exists a b, descr = a ++ "Beginning" ++ b) \/
              (exists a b, descr = a ++ "Ending" ++ b) \/
              (exists a b, descr = a ++ "Summary" ++ b) \/
              strip (str c0) = "Date" \/ descr = "Description" \/
              isna c2 = true \/ strip (str c2) = "nan").
  { right. right. right. left.
    exists EmptyString, " balance as of 04/01/2024". reflexivity. }
  split; [exact H |].
  exact (C4_skipped_rows_leave_no_trace c0 c1 c2 tail H).
Defined.

(** C4, as stated, fails on an amount cell that is present but blank: the
    row is not skipped, its amount parses to 0.00 and it is inserted as a
    credit of zero. And a row with fewer than three cells is not skipped
    on its description: reading the amount cell raises, and the row is
    logged as an error. *)
Lemma C4_blank_amount_row_is_imported :
  let row := [Val "05/10/2024"; Val "Valid Transaction"; Val "  ";
              Val "10,516.46"] in
  let short := [Val "05/10/2024"; Val "Total credits"] in
  strip (str (Val "  ")) = EmptyString /\
  normalize_row row =
    Ok (Some (mkRecord "2024-05-10" "Valid Transaction" (FFin false 0 0)
                "credit" (Some (FFin false 5781485026520596 (-39))))) /\
  fst (process_rows 1 (range_index [row]) 0 []
         (mkConn Examples.conn_after_deposit.(committed)
            Examples.conn_after_deposit.(working) [] 0)) = Ok (1%nat, []) /\
  normalize_row short =
    Raise (mkExn IndexError "single positional indexer is out-of-bounds") /\
  fst (process_rows 1 (range_index [short]) 0 []
         Examples.conn_after_deposit) =
    Ok (0%nat, ["Row 7: single positional indexer is out-of-bounds"]).
Proof. vm_compute. repeat split; reflexivity. Qed.

(** ** C3: [parse_amount] *)

Lemma append_nil_r (s : string) : s ++ EmptyString = s.
Proof. induction s as [| c s IH]; simpl; [reflexivity | rewrite IH; reflexivity]. Qed.

Lemma append_assoc (s1 s2 s3 : string) : (s1 ++ s2) ++ s3 = s1 ++ s2 ++ s3.
Proof.
  induction s1 as [| c s1 IH]; simpl; [reflexivity | rewrite IH; reflexivity].
Qed.

Lemma is_digit_inert c : is_digit c = true -> inert c = true.
Proof.
  destruct c as [[] [] [] [] [] [] [] []]; vm_compute; intros H;
    first [reflexivity | discriminate].
Qed.

Lemma all_chars_app f s1 s2 :
  all_chars f (s1 ++ s2) = all_chars f s1 && all_chars f s2.
Proof.
  induction s1 as [| c s1 IH]; simpl; [reflexivity |].
  rewrite IH, andb_assoc. reflexivity.
Qed.

Lemma all_chars_weaken (f g : ascii -> bool) s :
  (forall c, f c = true -> g c = true) ->
  all_chars f s = true -> all_chars g s = true.
Proof.
  intros Hfg. induction s as [| c s IH]; simpl; [reflexivity |].
  intros H. apply andb_true_iff in H. destruct H as [Hc Hs].
  rewrite (Hfg c Hc), (IH Hs). reflexivity.
Qed.

Lemma inert_not_space c : inert c = true -> isspace c = false.
Proof.
  unfold inert. intros H.
  apply andb_true_iff in H. destruct H as [H _].
  apply andb_true_iff in H. destruct H as [H _].
  apply negb_true_iff in H. exact H.
Qed.

Lemma rstrip_inert t : all_chars inert t = true -> rstrip t = t.
Proof.
  induction t as [| c t IH]; simpl; [reflexivity |].
  intros H. apply andb_true_iff in H. destruct H as [Hc Ht].
  rewrite (IH Ht). destruct t; [| reflexivity].
  rewrite (inert_not_space c Hc). reflexivity.
Qed.

Lemma strip_inert t : all_chars inert t = true -> strip t = t.
Proof.
  intros H. unfold strip.
  replace (lstrip t) with t; [apply rstrip_inert; exact H |].
  destruct t as [| c t]; [reflexivity |].
  simpl in *. apply andb_true_iff in H. destruct H as [Hc _].
  rewrite (inert_not_space c Hc). reflexivity.
Qed.

Lemma remove_underscore_inert t :
  all_chars inert t = true -> remove_char "_" t = t.
Proof.
  induction t as [| c t IH]; simpl; [reflexivity |].
  intros H. apply andb_true_iff in H. destruct H as [Hc Ht].
  rewrite (IH Ht). unfold inert in Hc.
  apply andb_true_iff in Hc. destruct Hc as [Hc _].
  apply andb_true_iff in Hc. destruct Hc as [_ Hc].
  apply negb_true_iff in Hc. rewrite Hc. reflexivity.
Qed.

Lemma lower_str_inert t : all_chars inert t = true -> lower_str t = t.
Proof.
  induction t as [| c t IH]; simpl; [reflexivity |].
  intros H. apply andb_true_iff in H. destruct H as [Hc Ht].
  rewrite (IH Ht). unfold inert in Hc.
  apply andb_true_iff in Hc. destruct Hc as [_ Hc].
  apply Ascii.eqb_eq in Hc. rewrite Hc. reflexivity.
Qed.

(** [Decimal]'s normalisation is the identity on inert text. *)
Lemma normalise_inert t :
  all_chars inert t = true ->
  lower_str (remove_char "_" (strip t)) = t.
Proof.
  intros H.
  rewrite (strip_inert t H), (remove_underscore_inert t H).
  apply lower_str_inert. exact H.
Qed.

Lemma span_digits_app ds rest :
  digits ds ->
  match rest with
  | EmptyString => True
  | String c _ => is_digit c = false
  end ->
  span_digits (ds ++ rest) = (ds, rest).
Proof.
  unfold digits. induction ds as [| c ds IH]; simpl; intros Hds Hrest.
  - destruct rest as [| c r]; simpl; [reflexivity |].
    rewrite Hrest. reflexivity.
  - apply andb_true_iff in Hds. destruct Hds as [Hc Hds].
    rewrite Hc, (IH Hds Hrest). reflexivity.
Qed.

Lemma span_digits_all ds : digits ds -> span_digits ds = (ds, EmptyString).
Proof.
  intros H. pose proof (span_digits_app ds EmptyString H I) as E.
  rewrite append_nil_r in E. exact E.
Qed.

(** The finite branch of the grammar on a plain literal. *)
Lemma parse_finite_plain ip frac :
  digits ip -> ip <> EmptyString -> digits (frac_digits frac) ->
  parse_finite (decimal_text ip frac) =
    Some (int_of_digits (ip ++ frac_digits frac),
          - Z.of_nat (String.length (frac_digits frac))).
Proof.
  intros Hip Hne Hfp. unfold parse_finite, decimal_text.
  destruct frac as [fp |]; simpl frac_digits in *.
  - rewrite (span_digits_app ip (String "." fp) Hip eq_refl).
    rewrite (span_digits_all fp Hfp).
    destruct ip; [congruence |]. reflexivity.
  - rewrite !append_nil_r, (span_digits_all ip Hip).
    destruct ip; [congruence |]. simpl. rewrite !append_nil_r. reflexivity.
Qed.

Lemma parse_sign_digit c r :
  is_digit c = true -> parse_sign (String c r) = (false, String c r).
Proof.
  destruct c as [[] [] [] [] [] [] [] []]; vm_compute; intros H;
    first [reflexivity | discriminate].
Qed.

Lemma startswith_digit c r x :
  is_digit c = true -> is_digit x = false -> startswith x (String c r) = false.
Proof.
  intros Hc Hx. simpl. destruct (Ascii.eqb_spec c x); [congruence | reflexivity].
Qed.

Lemma decimal_text_inert ip frac :
  digits ip -> digits (frac_digits frac) ->
  all_chars inert (decimal_text ip frac) = true.
Proof.
  unfold digits, decimal_text. intros Hip Hfp.
  rewrite all_chars_app.
  rewrite (all_chars_weaken is_digit inert ip is_digit_inert Hip).
  destruct frac as [fp |]; simpl in *; [| reflexivity].
  apply (all_chars_weaken is_digit inert fp is_digit_inert Hfp).
Qed.

Lemma decimal_text_head ip frac :
  digits ip -> ip <> EmptyString ->
  exists c r, decimal_text ip frac = String c r /\ is_digit c = true.
Proof.
  unfold digits, decimal_text. intros Hip Hne.
  destruct ip as [| c ip]; [congruence |].
  simpl in Hip. apply andb_true_iff in Hip. destruct Hip as [Hc _].
  eexists; eexists; split; [reflexivity | exact Hc].
Qed.

(** [Decimal] on a plain literal, unsigned and with a minus sign. *)
Lemma of_str_plain ip frac :
  digits ip -> ip <> EmptyString -> digits (frac_digits frac) ->
  let v := int_of_digits (ip ++ frac_digits frac) in
  let e := - Z.of_nat (String.length (frac_digits frac)) in
  of_str (decimal_text ip frac) = Ok (DFin false v e) /\
  of_str (String "-" (decimal_text ip frac)) = Ok (DFin true v e).
Proof.
  intros Hip Hne Hfp v e.
  pose proof (decimal_text_inert ip frac Hip Hfp) as Hinert.
  pose proof (parse_finite_plain ip frac Hip Hne Hfp) as Hfin.
  destruct (decimal_text_head ip frac Hip Hne) as (c & r & Htext & Hc).
  split; unfold of_str.
  - rewrite (normalise_inert _ Hinert), Htext, (parse_sign_digit c r Hc).
    rewrite <- Htext, Hfin. reflexivity.
  - rewrite (normalise_inert (String "-" (decimal_text ip frac))).
    + change (parse_sign (String "-" (decimal_text ip frac)))
        with (true, decimal_text ip frac).
      cbv beta iota. rewrite Hfin. reflexivity.
    + simpl. exact Hinert.
Qed.

Lemma endswith_snoc c s : endswith c (s ++ String c EmptyString) = true.
Proof.
  induction s as [| a s IH]; simpl.
  - apply Ascii.eqb_refl.
  - destruct (s ++ String c EmptyString) eqn:E; [| exact IH].
    destruct s; discriminate.
Qed.

Lemma drop_last_snoc c s : drop_last (s ++ String c EmptyString) = s.
Proof.
  induction s as [| a s IH]; simpl; [reflexivity |].
  destruct (s ++ String c EmptyString) eqn:E.
  - destruct s; discriminate.
  - rewrite IH. reflexivity.
Qed.

(** Negating a value of at most 28 digits with a moderate exponent only
    flips the sign (a zero stays positive). *)
Lemma neg_small v e :
  ndigits v <= 28 -> -1000026 <= e <= 0 ->
  neg (DFin false v e) = Ok (DFin (negb (v =? 0)%N) v e).
Proof.
  intros Hnd He. unfold neg, fix_to_context.
  destruct (v =? 0)%N eqn:Hv.
  - apply N.eqb_eq in Hv. subst v. simpl negb.
    unfold Etiny, Emin, Emax, prec.
    replace (Z.min (Z.max e (-999999 - 28 + 1)) 999999) with e by lia.
    reflexivity.
  - simpl negb. unfold Etop, Etiny, Emin, Emax, prec.
    destruct (ndigits v + e - 28 >? 999999 - 28 + 1) eqn:Hov;
      [apply Z.gtb_lt in Hov; lia |].
    destruct (e <? Z.max (ndigits v + e - 28) (-999999 - 28 + 1)) eqn:Hlt;
      [apply Z.ltb_lt in Hlt; lia |].
    reflexivity.
Qed.

(** Past the zero cases, [parse_amount] dispatches on the cleaned text. *)
Lemma parse_amount_dispatch s :
  strip s <> EmptyString -> strip s <> "nan" ->
  parse_amount (Some s) =
    if startswith "-" (cleaned s) then of_str (cleaned s)
    else if startswith "(" (cleaned s) && endswith ")" (cleaned s)
         then res_bind (of_str (slice_1_m1 (cleaned s))) neg
    else of_str (cleaned s).
Proof.
  intros Hne Hnan. unfold parse_amount.
  assert (Hs : s <> EmptyString) by (intros ->; apply Hne; reflexivity).
  apply String.eqb_neq in Hs, Hne, Hnan.
  rewrite Hs, Hne, Hnan. reflexivity.
Qed.

(** The only error of the [Decimal] constructor is the conversion error,
    whose text does not quote the input. *)
Lemma of_str_raises t e : of_str t = Raise e -> e = conversion_syntax.
Proof.
  unfold of_str.
  destruct (parse_sign _) as [sg body].
  destruct (parse_finite body) as [[c x] |]; [discriminate |].
  destruct ((body =? "inf")%string || (body =? "infinity")%string);
    [discriminate |].
  destruct (parse_nan body) as [[sg' d] |]; [discriminate |].
  intros H. inversion H. reflexivity.
Qed.

(** C3, as the code has it. [parse_amount] gives 0.00 for [None] and for a
    text that strips to nothing or to nan. Otherwise commas and quotes are
    removed and the text stripped, and for a plain literal (digits, then an
    optional point and digits) of value v with k decimals: the literal alone
    gives v * 10^-k, with a leading minus it gives the negative, and wrapped
    in parentheses (at most 28 digits) it gives the negation, a zero staying
    positive. It raises when [Decimal] rejects the text it is handed (the
    cleaned text, or what the parentheses enclose), and the exception is
    then [decimal.InvalidOperation]. *)
Theorem C3_parse_amount_values :
  parse_amount None = Ok (DFin false 0 (-2)) /\
  (forall s,
      strip s = EmptyString \/ strip s = "nan" ->
      parse_amount (Some s) = Ok (DFin false 0 (-2))) /\
  (forall s ip frac,
      strip s <> EmptyString -> strip s <> "nan" ->
      digits ip -> ip <> EmptyString -> digits (frac_digits frac) ->
      let v := int_of_digits (ip ++ frac_digits frac) in
      let e := - Z.of_nat (String.length (frac_digits frac)) in
      (cleaned s = decimal_text ip frac ->
       parse_amount (Some s) = Ok (DFin false v e)) /\
      (cleaned s = String "-" (decimal_text ip frac) ->
       parse_amount (Some s) = Ok (DFin true v e)) /\
      (cleaned s = String "(" (decimal_text ip frac ++ ")") ->
       ndigits v <= 28 -> -1000026 <= e ->
       parse_amount (Some s) = Ok (DFin (negb (v =? 0)%N) v e))) /\
  (forall s err,
      strip s <> EmptyString -> strip s <> "nan" ->
      of_str (if negb (startswith "-" (cleaned s)) &&
                 (startswith "(" (cleaned s) && endswith ")" (cleaned s))
              then slice_1_m1 (cleaned s) else cleaned s) = Raise err ->
      parse_amount (Some s) = Raise err /\
      exn_class err = InvalidOperation).
Proof.
  split; [reflexivity |]. split; [| split].
  - intros s [H | H]; unfold parse_amount; rewrite H; simpl;
      rewrite ?orb_true_r; reflexivity.
  - intros s ip frac Hne Hnan Hip Hipne Hfp v e.
    destruct (of_str_plain ip frac Hip Hipne Hfp) as [Hpos Hneg].
    destruct (decimal_text_head ip frac Hip Hipne) as (c & r & Htext & Hc).
    rewrite (parse_amount_dispatch s Hne Hnan).
    split; [| split]; intros Hcl; rewrite Hcl.
    + rewrite Htext.
      rewrite (startswith_digit c r "-" Hc eq_refl).
      rewrite (startswith_digit c r "(" Hc eq_refl).
      simpl andb. cbv iota. rewrite <- Htext. exact Hpos.
    + simpl startswith. cbv iota. exact Hneg.
    + intros Hnd He. simpl startswith. cbv iota.
      assert (Hend : endswith ")"
                       (String "(" (decimal_text ip frac ++ ")")) = true)
        by (apply (endswith_snoc ")" (String "(" (decimal_text ip frac)))).
      rewrite Hend. cbv iota.
      unfold slice_1_m1. rewrite drop_last_snoc, Hpos.
      unfold res_bind, Ok. apply neg_small; [exact Hnd |].
      fold e. split; [exact He |]. unfold e. lia.
  - intros s err Hne Hnan Herr.
    rewrite (parse_amount_dispatch s Hne Hnan).
    pose proof (of_str_raises _ _ Herr) as ->.
    split; [| reflexivity].
    destruct (startswith "-" (cleaned s)); simpl in Herr; [exact Herr |].
    destruct (startswith "(" (cleaned s) && endswith ")" (cleaned s));
      [rewrite Herr; reflexivity | exact Herr].
Qed.

Lemma C3_parse_amount_witness :
  strip "(1,234.56)" <> EmptyString /\
  strip "(1,234.56)" <> "nan" /\
  digits "1234" /\ "1234" <> EmptyString /\
  digits (frac_digits (Some "56")) /\
  cleaned "(1,234.56)" = String "(" (decimal_text "1234" (Some "56") ++ ")") /\
  ndigits (int_of_digits ("1234" ++ frac_digits (Some "56"))) <= 28 /\
  -1000026 <= - Z.of_nat (String.length (frac_digits (Some "56"))) /\
  parse_amount (Some "(1,234.56)") = Ok (DFin true 123456 (-2)).
Proof.
  assert (H1 : strip "(1,234.56)" <> EmptyString) by (vm_compute; discriminate).
  assert (H2 : strip "(1,234.56)" <> "nan") by (vm_compute; discriminate).
  assert (H3 : digits "1234") by reflexivity.
  assert (H4 : "1234" <> EmptyString) by discriminate.
  assert (H5 : digits (frac_digits (Some "56"))) by reflexivity.
  assert (H6 : cleaned "(1,234.56)" =
               String "(" (decimal_text "1234" (Some "56") ++ ")"))
    by reflexivity.
  assert (H7 : ndigits (int_of_digits ("1234" ++ frac_digits (Some "56")))
               <= 28) by (vm_compute; discriminate).
  assert (H8 : -1000026 <=
               - Z.of_nat (String.length (frac_digits (Some "56"))))
    by (vm_compute; discriminate).
  repeat (split; [assumption |]).
  exact (proj2 (proj2 (proj1 (proj2 (proj2 C3_parse_amount_values))
                         "(1,234.56)" "1234" (Some "56") H1 H2 H3 H4 H5))
           H6 H7 H8).
Defined.

(** The amounts of the tests. *)
Example C3_parse_amount_examples :
  parse_amount (Some "100.00") = Ok (DFin false 10000 (-2)) /\
  parse_amount (Some "1,234.56") = Ok (DFin false 123456 (-2)) /\
  parse_amount (Some (String dquote ("1,234.56" ++ String dquote EmptyString)))
    = Ok (DFin false 123456 (-2)) /\
  parse_amount (Some "-100.00") = Ok (DFin true 10000 (-2)) /\
  parse_amount (Some "-1,234.56") = Ok (DFin true 123456 (-2)) /\
  parse_amount (Some "(1,234.56)") = Ok (DFin true 123456 (-2)) /\
  parse_amount (Some EmptyString) = Ok (DFin false 0 (-2)) /\
  parse_amount (Some "nan") = Ok (DFin false 0 (-2)) /\
  parse_amount None = Ok (DFin false 0 (-2)).
Proof. vm_compute. repeat split; reflexivity. Qed.

(** C3, as stated, fails where it says the error carries the raw text:
    on [1,2x] the exception is the library's conversion error, whose text
    names neither the raw text nor the cleaned one. *)
Lemma C3_error_does_not_carry_raw_text :
  parse_amount (Some "1,2x") =
    Raise (mkExn InvalidOperation "[<class 'decimal.ConversionSyntax'>]") /\
  contains "1,2x" "[<class 'decimal.ConversionSyntax'>]" = false /\
  contains "12x" "[<class 'decimal.ConversionSyntax'>]" = false.
Proof. vm_compute. repeat split; reflexivity. Qed.

(** ** C7: what is persisted of a monetary value *)

Lemma pow2_pos k : 0 <= k -> 0 < 2 ^ k.
Proof. intros H. apply Z.pow_pos_nonneg; lia. Qed.

Lemma ge_pow2_scaled n d k :
  -1074 <= k ->
  (ge_pow2 n d k = true <-> d * 2 ^ (k + 1074) <= n * 2 ^ 1074).
Proof.
  intros Hk. unfold ge_pow2.
  pose proof (pow2_pos 1074 ltac:(lia)) as HS.
  destruct (Z.geb_spec k 0) as [H0 | H0].
  - rewrite Z.pow_add_r by lia. rewrite Z.geb_le.
    generalize dependent (2 ^ 1074). intros S HS.
    pose proof (pow2_pos k H0). split; intros; nia.
  - rewrite Z.geb_le.
    assert (E : 2 ^ 1074 = 2 ^ (- k) * 2 ^ (k + 1074))
      by (rewrite <- Z.pow_add_r by lia; f_equal; lia).
    rewrite E.
    pose proof (pow2_pos (k + 1074) ltac:(lia)) as HG.
    generalize dependent (2 ^ (k + 1074)). intros G _ HG.
    generalize (2 ^ (- k)). intros T. split; intros; nia.
Qed.

Lemma ge_pow2_log n d :
  0 < n -> 0 < d ->
  ge_pow2 n d (Z.log2 n - Z.log2 d - 1) = true /\
  ge_pow2 n d (Z.log2 n - Z.log2 d + 1) = false.
Proof.
  intros Hn Hd.
  destruct (Z.log2_spec n Hn) as [Ha1 Ha2].
  destruct (Z.log2_spec d Hd) as [Hb1 Hb2].
  pose proof (Z.log2_nonneg n) as Ha. pose proof (Z.log2_nonneg d) as Hb.
  set (a := Z.log2 n) in *. set (b := Z.log2 d) in *.
  replace (Z.succ a) with (a + 1) in Ha2 by lia.
  replace (Z.succ b) with (b + 1) in Hb2 by lia.
  unfold ge_pow2. split.
  - destruct (Z.geb_spec (a - b - 1) 0) as [H0 | H0].
    + apply Z.geb_le.
      assert (E : 2 ^ a = 2 ^ (b + 1) * 2 ^ (a - b - 1))
        by (rewrite <- Z.pow_add_r by lia; f_equal; lia).
      pose proof (pow2_pos (a - b - 1) H0).
      generalize dependent (2 ^ (a - b - 1)). intros. nia.
    + apply Z.geb_le.
      assert (E : 2 ^ (b + 1) = 2 ^ a * 2 ^ (- (a - b - 1)))
        by (rewrite <- Z.pow_add_r by lia; f_equal; lia).
      pose proof (pow2_pos (- (a - b - 1)) ltac:(lia)).
      generalize dependent (2 ^ (- (a - b - 1))). intros. nia.
  - destruct (Z.geb_spec (a - b + 1) 0) as [H0 | H0].
    + destruct (Z.geb_spec n (d * 2 ^ (a - b + 1))) as [H | H];
        [| reflexivity].
      exfalso.
      assert (E : 2 ^ (a + 1) = 2 ^ b * 2 ^ (a - b + 1))
        by (rewrite <- Z.pow_add_r by lia; f_equal; lia).
      pose proof (pow2_pos (a - b + 1) H0).
      generalize dependent (2 ^ (a - b + 1)). intros. nia.
    + destruct (Z.geb_spec (n * 2 ^ (- (a - b + 1))) d) as [H | H];
        [| reflexivity].
      exfalso.
      assert (E : 2 ^ b = 2 ^ (a + 1) * 2 ^ (- (a - b + 1)))
        by (rewrite <- Z.pow_add_r by lia; f_equal; lia).
      pose proof (pow2_pos (- (a - b + 1)) ltac:(lia)).
      generalize dependent (2 ^ (- (a - b + 1))). intros. nia.
Qed.

(** Below 2^-1074. *)
Lemma ge_pow2_tiny n d k :
  0 <= n -> k < -1074 -> ge_pow2 n d k = false -> n * 2 ^ 1074 < d.
Proof.
  intros Hn Hk. unfold ge_pow2.
  destruct (Z.geb_spec k 0) as [H0 | H0]; [lia |].
  destruct (Z.geb_spec (n * 2 ^ (- k)) d) as [H | H]; [discriminate |].
  intros _.
  assert (2 ^ 1074 <= 2 ^ (- k)) by (apply Z.pow_le_mono_r; lia).
  nia.
Qed.

Lemma round_binary64_spec s n d :
  0 < n -> 0 < d ->
  exists lg m0,
    ge_pow2 n d lg = true /\ ge_pow2 n d (lg + 1) = false /\
    0 <= m0 /\
    half_ulp_close n d (Z.to_N m0) (Z.max (lg - 52) (-1074)) /\
    round_binary64 s n d =
      if m0 >=? 2 ^ (1024 - Z.max (lg - 52) (-1074)) then FInf s
      else FFin s (Z.to_N m0) (Z.max (lg - 52) (-1074)).
Proof.
  intros Hn Hd. unfold round_binary64, half_ulp_close.
  destruct (Z.eqb_spec n 0) as [Hn0 | Hn0]; [lia |].
  destruct (ge_pow2_log n d Hn Hd) as [Hlo Hhi].
  set (k := Z.log2 n - Z.log2 d) in *.
  set (lg := if ge_pow2 n d k then k else k - 1).
  assert (Hlg : ge_pow2 n d lg = true /\ ge_pow2 n d (lg + 1) = false).
  { unfold lg. destruct (ge_pow2 n d k) eqn:E.
    - split; [exact E | exact Hhi].
    - split; [exact Hlo |]. replace (k - 1 + 1) with k by lia. exact E. }
  destruct Hlg as [Hlg1 Hlg2].
  set (q0 := Z.max (lg - 52) (-1074)).
  set (num := if q0 >=? 0 then n else n * 2 ^ (- q0)).
  set (den := if q0 >=? 0 then d * 2 ^ q0 else d).
  set (m0 := match 2 * (num mod den) ?= den with
             | Eq => if Z.odd (num / den) then num / den + 1 else num / den
             | Lt => num / den
             | Gt => num / den + 1
             end).
  exists lg, m0. fold q0.
  split; [exact Hlg1 |]. split; [exact Hlg2 |].
  assert (Hden : 0 < den).
  { unfold den. destruct (q0 >=? 0) eqn:Hq; [| exact Hd].
    apply Z.geb_le in Hq.
    pose proof (Z.pow_pos_nonneg 2 q0). nia. }
  assert (Hnum : 0 <= num).
  { unfold num. destruct (q0 >=? 0) eqn:Hq; [lia |].
    pose proof (Z.pow_nonneg 2 (- q0)). nia. }
  pose proof (Z.div_mod num den ltac:(lia)) as Hdm.
  pose proof (Z.mod_pos_bound num den Hden) as Hr.
  pose proof (Z.div_pos num den Hnum Hden) as Hqt.
  assert (Hm : 0 <= m0 /\ 2 * Z.abs (num - m0 * den) <= den).
  { unfold m0.
    destruct (Z.compare_spec (2 * (num mod den)) den) as [He | Hl | Hg].
    - destruct (Z.odd (num / den)); split; try lia; nia.
    - split; [lia | nia].
    - split; [lia | nia]. }
  destruct Hm as [Hm0 Hm].
  split; [exact Hm0 |]. split; [| reflexivity].
  rewrite Z2N.id by exact Hm0.
  unfold num, den in Hm.
  destruct (q0 >=? 0); [| exact Hm].
  replace (m0 * 2 ^ q0 * d) with (m0 * (d * 2 ^ q0)) by ring.
  exact Hm.
Qed.

(** Half a unit in the last place, with every term scaled by 2^1074. *)
Lemma half_ulp_close_scaled n d m q :
  -1074 <= q ->
  half_ulp_close n d m q ->
  2 * Z.abs (n * 2 ^ 1074 - d * (Z.of_N m * 2 ^ (q + 1074)))
    <= d * 2 ^ (q + 1074).
Proof.
  intros Hq. unfold half_ulp_close.
  pose proof (pow2_pos 1074 ltac:(lia)) as HS.
  destruct (Z.geb_spec q 0) as [H0 | H0]; intros H.
  - rewrite Z.pow_add_r by lia.
    pose proof (pow2_pos q H0).
    generalize dependent (2 ^ 1074). intros S HS.
    generalize dependent (2 ^ q). intros Q HQ H.
    replace (n * S - d * (Z.of_N m * (Q * S)))
      with ((n - Z.of_N m * Q * d) * S) by ring.
    rewrite Z.abs_mul, (Z.abs_eq S) by lia. nia.
  - assert (E : 2 ^ 1074 = 2 ^ (- q) * 2 ^ (q + 1074))
      by (rewrite <- Z.pow_add_r by lia; f_equal; lia).
    rewrite E.
    pose proof (pow2_pos (q + 1074) ltac:(lia)) as HG.
    generalize dependent (2 ^ (q + 1074)). intros G _ HG.
    generalize dependent (2 ^ (- q)). intros T H.
    replace (n * (T * G) - d * (Z.of_N m * G))
      with ((n * T - Z.of_N m * d) * G) by ring.
    rewrite Z.abs_mul, (Z.abs_eq G) by lia. nia.
Qed.

(** Among the multiples of [G], one within half of [G] is a nearest. *)
Lemma nearest_multiple N d G m j :
  0 < d -> 0 < G ->
  2 * Z.abs (N - d * (m * G)) <= d * G ->
  Z.abs (N - d * (m * G)) <= Z.abs (N - d * (j * G)).
Proof.
  intros Hd HG H.
  destruct (Z.eq_dec j m) as [-> | Hne]; [lia |].
  assert (Hgap : d * G <= Z.abs (d * (j * G) - d * (m * G))).
  { replace (d * (j * G) - d * (m * G)) with (d * G * (j - m)) by ring.
    rewrite Z.abs_mul, (Z.abs_eq (d * G)) by nia.
    assert (1 <= Z.abs (j - m)) by lia. nia. }
  lia.
Qed.

(** What the rounding knows of its result, every term scaled by 2^1074:
    the exponent is at least -1074, the result is within half a unit of
    [n/d], [n/d] is below 2^53 units, and above the subnormals it is at
    least 2^52 units. *)
Lemma round_binary64_scaled s n d :
  0 < n -> 0 < d ->
  exists m0 q,
    -1074 <= q /\ 0 <= m0 /\
    2 * Z.abs (n * 2 ^ 1074 - d * (m0 * 2 ^ (q + 1074)))
      <= d * 2 ^ (q + 1074) /\
    n * 2 ^ 1074 < d * (2 ^ 53 * 2 ^ (q + 1074)) /\
    (-1074 < q -> d * (2 ^ 52 * 2 ^ (q + 1074)) <= n * 2 ^ 1074) /\
    round_binary64 s n d =
      if m0 >=? 2 ^ (1024 - q) then FInf s else FFin s (Z.to_N m0) q.
Proof.
  intros Hn Hd.
  destruct (round_binary64_spec s n d Hn Hd)
    as (lg & m0 & Hlo & Hhi & Hm0 & Hclose & Hrun).
  set (q := Z.max (lg - 52) (-1074)) in *.
  assert (Hq : -1074 <= q) by (unfold q; lia).
  exists m0, q. split; [exact Hq |]. split; [exact Hm0 |].
  split.
  { apply half_ulp_close_scaled in Hclose; [| exact Hq].
    rewrite Z2N.id in Hclose by exact Hm0. exact Hclose. }
  split; [| split; [| exact Hrun]].
  - pose proof (pow2_pos (q + 1074) ltac:(lia)) as HG.
    destruct (Z_lt_le_dec (lg + 1) (-1074)) as [Htiny | Hbig].
    + pose proof (ge_pow2_tiny n d (lg + 1) ltac:(lia) Htiny Hhi).
      pose proof (pow2_pos 53 ltac:(lia)). nia.
    + assert (H : ~ d * 2 ^ (lg + 1 + 1074) <= n * 2 ^ 1074).
      { intros H. apply (ge_pow2_scaled n d (lg + 1) Hbig) in H.
        congruence. }
      assert (E : 2 ^ (lg + 1 + 1074) <= 2 ^ 53 * 2 ^ (q + 1074)).
      { rewrite <- Z.pow_add_r by lia.
        apply Z.pow_le_mono_r; unfold q; lia. }
      nia.
  - intros Hnorm.
    assert (Hlg : -1074 <= lg) by (unfold q in Hnorm; lia).
    apply (ge_pow2_scaled n d lg Hlg) in Hlo.
    replace (2 ^ 52 * 2 ^ (q + 1074)) with (2 ^ (lg + 1074));
      [exact Hlo |].
    rewrite <- Z.pow_add_r by lia. f_equal. unfold q in *. lia.
Qed.

Lemma round_binary64_finite_nearest s n d s' m q :
  0 <= n -> 0 < d ->
  round_binary64 s n d = FFin s' m q ->
  s' = s /\ nearest_binary64 n d m q.
Proof.
  intros Hn Hd Hrun.
  destruct (Z.eq_dec n 0) as [-> | Hn0].
  { unfold round_binary64 in Hrun. simpl in Hrun.
    inversion Hrun; subst. split; [reflexivity |].
    split; [lia |]. split.
    - exists 0%N, 0. split; [split; [reflexivity | lia] | reflexivity].
    - intros m' q' _. unfold error_of. simpl. lia. }
  destruct (round_binary64_scaled s n d ltac:(lia) Hd)
    as (m0 & q0 & Hq & Hm0 & Hclose & Hup & Hlow & Hrun').
  rewrite Hrun' in Hrun.
  destruct (Z.geb_spec m0 (2 ^ (1024 - q0))) as [Hov | Hfin];
    [discriminate |].
  inversion Hrun; subst s' m q. clear Hrun Hrun'.
  split; [reflexivity |].
  pose proof (pow2_pos (q0 + 1074) ltac:(lia)) as HG.
  assert (Hm53 : m0 <= 2 ^ 53).
  { generalize dependent (2 ^ (q0 + 1074)). intros G.
    generalize dependent (2 ^ 1074). intros S. intros. nia. }
  assert (Hm52 : -1074 < q0 -> 2 ^ 52 <= m0).
  { intros Hnorm. specialize (Hlow Hnorm).
    generalize dependent (2 ^ (q0 + 1074)). intros G.
    generalize dependent (2 ^ 1074). intros S. intros. nia. }
  assert (Hq971 : q0 <= 971).
  { destruct (Z_le_gt_dec q0 971) as [H | H]; [exact H | exfalso].
    specialize (Hm52 ltac:(lia)).
    assert (2 ^ (1024 - q0) <= 2 ^ 52).
    { destruct (Z_lt_le_dec (1024 - q0) 0) as [Hneg | Hpos].
      - rewrite Z.pow_neg_r by exact Hneg. lia.
      - apply Z.pow_le_mono_r; lia. }
    lia. }
  unfold nearest_binary64. rewrite Z2N.id by exact Hm0.
  split; [exact Hq |]. split.
  - destruct (Z_lt_le_dec m0 (2 ^ 53)) as [Hlt | Hge].
    + exists (Z.to_N m0), q0. unfold binary64_finite.
      rewrite Z2N.id by exact Hm0.
      split; [split; [exact Hlt | lia] | reflexivity].
    + assert (Hm : m0 = 2 ^ 53) by lia.
      assert (Hq970 : q0 < 971).
      { destruct (Z.eq_dec q0 971) as [-> | Hne]; [| lia].
        simpl in Hfin. lia. }
      exists (Z.to_N (2 ^ 52)), (q0 + 1). unfold binary64_finite.
      rewrite Z2N.id by lia.
      split; [split; [lia | lia] |]. rewrite Hm.
      replace (q0 + 1 + 1074) with (1 + (q0 + 1074)) by lia.
      rewrite Z.pow_add_r by lia.
      change (2 ^ 53) with (2 ^ 52 * 2 ^ 1). ring.
  - intros m' q' [Hm' Hq']. unfold error_of.
    rewrite Z2N.id by exact Hm0.
    pose proof (N2Z.is_nonneg m') as Hm'0.
    destruct (Z_le_gt_dec q0 q') as [Hge | Hlt].
    + assert (E : 2 ^ (q' + 1074) = 2 ^ (q' - q0) * 2 ^ (q0 + 1074))
        by (rewrite <- Z.pow_add_r by lia; f_equal; lia).
      rewrite E.
      replace (Z.of_N m' * (2 ^ (q' - q0) * 2 ^ (q0 + 1074)))
        with (Z.of_N m' * 2 ^ (q' - q0) * 2 ^ (q0 + 1074)) by ring.
      apply nearest_multiple; assumption.
    + specialize (Hlow ltac:(lia)).
      assert (E : 2 ^ (q0 + 1074) = 2 ^ (q0 - q') * 2 ^ (q' + 1074))
        by (rewrite <- Z.pow_add_r by lia; f_equal; lia).
      assert (Hstep : 2 <= 2 ^ (q0 - q')).
      { change 2 with (2 ^ 1) at 1. apply Z.pow_le_mono_r; lia. }
      pose proof (pow2_pos (q' + 1074) ltac:(lia)) as HG'.
      pose proof (nearest_multiple (n * 2 ^ 1074) d (2 ^ (q0 + 1074)) m0
                    (2 ^ 52) Hd HG Hclose) as Hnear.
      assert (Hbelow : d * (Z.of_N m' * 2 ^ (q' + 1074))
                       < d * (2 ^ 52 * 2 ^ (q0 + 1074))).
      { rewrite E. generalize dependent (2 ^ (q0 - q')). intros T.
        generalize dependent (2 ^ (q' + 1074)). intros G'. intros.
        apply Z.mul_lt_mono_pos_l; [exact Hd |]. nia. }
      lia.
Qed.

Lemma round_binary64_inf_overflows s n d s' :
  0 <= n -> 0 < d ->
  round_binary64 s n d = FInf s' ->
  s' = s /\ overflows n d.
Proof.
  intros Hn Hd Hrun.
  destruct (Z.eq_dec n 0) as [-> | Hn0].
  { unfold round_binary64 in Hrun. simpl in Hrun. discriminate. }
  destruct (round_binary64_scaled s n d ltac:(lia) Hd)
    as (m0 & q0 & Hq & Hm0 & Hclose & Hup & Hlow & Hrun').
  rewrite Hrun' in Hrun.
  destruct (Z.geb_spec m0 (2 ^ (1024 - q0))) as [Hov | Hfin];
    [| discriminate].
  inversion Hrun; subst s'. split; [reflexivity |].
  pose proof (pow2_pos (q0 + 1074) ltac:(lia)) as HG.
  assert (Hm53 : m0 <= 2 ^ 53).
  { generalize dependent (2 ^ (q0 + 1074)). intros G.
    generalize dependent (2 ^ 1074). intros S. intros. nia. }
  assert (Hq971 : 971 <= q0).
  { destruct (Z_le_gt_dec 971 q0) as [H | H]; [exact H | exfalso].
    assert (2 ^ 54 <= 2 ^ (1024 - q0))
      by (apply Z.pow_le_mono_r; lia).
    lia. }
  unfold overflows.
  pose proof (pow2_pos 1074 ltac:(lia)) as HS.
  assert (Hscaled : d * ((2 ^ 54 - 1) * 2 ^ 970) * 2 ^ 1074
                    <= n * 2 ^ 1074).
  { destruct (Z.eq_dec q0 971) as [-> | Hne].
    - assert (Hm : 2 ^ 53 <= m0) by (simpl in Hov; lia).
      assert (E : 2 ^ (971 + 1074) = 2 * (2 ^ 970 * 2 ^ 1074))
        by (rewrite <- Z.pow_add_r by lia;
            change 2 with (2 ^ 1) at 2;
            rewrite <- Z.pow_add_r by lia; f_equal).
      rewrite E in Hclose.
      generalize dependent (2 ^ 1074). intros S.
      generalize dependent (2 ^ 970). intros T. intros.
      assert (0 < T) by (subst; lia). nia.
    - specialize (Hlow ltac:(lia)).
      assert (E : 2 ^ 54 * (2 ^ 970 * 2 ^ 1074)
                  <= 2 ^ 52 * 2 ^ (q0 + 1074)).
      { rewrite <- !Z.pow_add_r by lia. apply Z.pow_le_mono_r; lia. }
      pose proof (pow2_pos 970 ltac:(lia)).
      generalize dependent (2 ^ (q0 + 1074)). intros G.
      generalize dependent (2 ^ 1074). intros S.
      generalize dependent (2 ^ 970). intros T. intros. nia. }
  nia.
Qed.

(** [round_binary64] returns a value within half a unit in the last
    place. *)
Lemma round_binary64_nearest s n d s' m q :
  0 <= n -> 0 < d ->
  round_binary64 s n d = FFin s' m q ->
  s' = s /\ half_ulp_close n d m q.
Proof.
  intros Hn Hd Hrun.
  destruct (Z.eq_dec n 0) as [-> | Hn0].
  { unfold round_binary64 in Hrun. simpl in Hrun. inversion Hrun; subst.
    split; [reflexivity |]. unfold half_ulp_close. simpl. lia. }
  destruct (round_binary64_spec s n d ltac:(lia) Hd)
    as (lg & m0 & _ & _ & _ & Hclose & Hrun').
  rewrite Hrun' in Hrun.
  destruct (m0 >=? _); [discriminate |].
  inversion Hrun; subst. split; [reflexivity | exact Hclose].
Qed.

Lemma decimal_fraction_sign c e :
  0 <= fst (decimal_fraction c e) /\ 0 < snd (decimal_fraction c e).
Proof.
  unfold decimal_fraction. destruct (Z.geb_spec e 0) as [He | He]; simpl.
  - split; [| lia]. pose proof (Z.pow_nonneg 10 e). nia.
  - split; [lia |]. apply Z.pow_pos_nonneg; lia.
Qed.

Lemma of_Decimal_fraction s c e :
  of_Decimal (DFin s c e) =
    Ok (round_binary64 s (fst (decimal_fraction c e))
          (snd (decimal_fraction c e))).
Proof.
  unfold of_Decimal, decimal_fraction. destruct (e >=? 0); reflexivity.
Qed.

(** [float(d)] is a binary64 for [d]. *)
Lemma of_Decimal_float dec f :
  of_Decimal dec = Ok f -> float_of_decimal dec f.
Proof.
  destruct dec as [s c e | s | s sg dg]; intros H.
  - rewrite of_Decimal_fraction in H. inversion H as [Hf]. clear H.
    destruct (decimal_fraction_sign c e) as [Hn Hd].
    unfold float_of_decimal. cbv zeta.
    destruct (round_binary64 s (fst (decimal_fraction c e))
                (snd (decimal_fraction c e))) as [s' m q | s' |] eqn:Hr.
    + left. exists m, q.
      destruct (round_binary64_finite_nearest s _ _ s' m q Hn Hd Hr)
        as [-> Hnear].
      split; [reflexivity | exact Hnear].
    + right.
      destruct (round_binary64_inf_overflows s _ _ s' Hn Hd Hr)
        as [-> Hov].
      split; [reflexivity | exact Hov].
    + destruct (round_binary64_stored s (fst (decimal_fraction c e))
                  (snd (decimal_fraction c e))) as [g Hg].
      rewrite Hr in Hg. discriminate.
  - inversion H. reflexivity.
  - destruct sg; inversion H. reflexivity.
Qed.

Lemma res_bind_ok {A B : Type} (r : Res A) (k : A -> Res B) (b : B) :
  res_bind r k = inr b -> exists a, r = inr a /\ k a = inr b.
Proof.
  destruct r as [e | a]; simpl; [discriminate |].
  intros H. exists a. split; [reflexivity | exact H].
Qed.

Lemma iloc_ok row k c : iloc row k = inr c -> nth_error row k = Some c.
Proof.
  unfold iloc. destruct (nth_error row k); [| discriminate].
  intros H. inversion H. reflexivity.
Qed.

(** Where the two numbers of an inserted record come from. *)
Lemma normalize_row_amounts row t :
  normalize_row row = Ok (Some t) ->
  (exists c2 amt,
      nth_error row 2 = Some c2 /\
      parse_amount (Some (strip (str c2))) = Ok amt /\
      of_Decimal amt = Ok (rec_amount t)) /\
  (forall f,
      rec_balance t = Some f ->
      exists c3 bal,
        nth_error row 3 = Some c3 /\
        parse_amount (Some (strip (str c3))) = Ok bal /\
        of_Decimal bal = Ok f).
Proof.
  intros H. unfold normalize_row in H.
  apply res_bind_ok in H. destruct H as (c0 & H0 & H).
  destruct (isna c0 || _); [discriminate |].
  apply res_bind_ok in H. destruct H as (c1 & H1 & H).
  apply res_bind_ok in H. destruct H as (c2 & H2 & H).
  apply res_bind_ok in H. destruct H as (bs & Hbs & H).
  destruct (is_summary _); [discriminate |].
  destruct (_ || _); [discriminate |].
  destruct (isna c2 || _) eqn:Ena; [discriminate |].
  apply res_bind_ok in H. destruct H as (date & Hdate & H).
  apply res_bind_ok in H. destruct H as (amt & Hamt & H).
  apply res_bind_ok in H. destruct H as (bal & Hbal & H).
  apply res_bind_ok in H. destruct H as (credit & Hcredit & H).
  apply res_bind_ok in H. destruct H as (famt & Hfamt & H).
  apply res_bind_ok in H. destruct H as (fbal & Hfbal & H).
  inversion H; subst t; clear H. simpl rec_amount. simpl rec_balance.
  apply orb_false_iff in Ena. destruct Ena as [Ena _].
  rewrite Ena in Hamt.
  split.
  - exists c2, amt. split; [apply iloc_ok; exact H2 |]. split; assumption.
  - intros f Hf. subst fbal.
    destruct bal as [b |]; [| discriminate].
    destruct (Dec.truthy b); [| discriminate].
    apply res_bind_ok in Hfbal. destruct Hfbal as (f' & Hb & Hf').
    inversion Hf'; subst f'. clear Hf'.
    destruct bs as [[| a r] |]; try discriminate.
    apply res_bind_ok in Hbal. destruct Hbal as (b' & Hpb & Hb').
    inversion Hb'; subst b'. clear Hb'.
    destruct (3 <? length row)%nat; [| discriminate].
    apply res_bind_ok in Hbs. destruct Hbs as (c3 & H3 & Hc3).
    destruct (isna c3); [discriminate |].
    inversion Hc3 as [Hstr].
    exists c3, b. split; [apply iloc_ok; exact H3 |].
    rewrite Hstr. split; assumption.
Qed.

Lemma sqlite_real_stored f g :
  sqlite_real f = Some g -> f <> FNaN /\ g = stored_real f.
Proof.
  destruct f as [s m e | s |]; simpl.
  - destruct m; intros H; inversion H; split; try discriminate; reflexivity.
  - intros H; inversion H; split; try discriminate; reflexivity.
  - discriminate.
Qed.

Lemma row_body_stores aid row t c :
  normalize_row row = Ok (Some t) ->
  faults c = [] ->
  existsb (fun a => account_id a =? aid) (accounts (working c)) = true ->
  exists tx c',
    row_body aid row c = (Ok true, c') /\
    transactions (working c') = (transactions (working c) ++ [tx])%list /\
    stores aid t tx.
Proof.
  intros Hrow Hq Hacc.
  destruct (normalize_row_amount_stored row t Hrow) as [f Hf].
  pose proof (insert_transaction_quiet aid (rec_date t) (rec_description t)
                (rec_amount t) (rec_type t) (rec_balance t) c f Hq Hacc Hf)
    as Hins. cbv zeta in Hins.
  eexists. eexists. split; [| split].
  - unfold row_body, bind, lift. rewrite Hrow. unfold Ok. cbv beta iota.
    rewrite Hins. reflexivity.
  - reflexivity.
  - apply stores_inserted. exact Hf.
Qed.

(** C7, as the code has it. The amount and the balance of a row are parsed
    into exact decimals, and each is converted with [float()] as it is bound
    to the INSERT. The float of a finite decimal has the sign of the
    decimal and is a finite binary64 than which no finite binary64 is
    nearer to the decimal, or it is the infinity of that sign, and then the
    magnitude of the decimal is at least (2^53 - 1/2) * 2^971; the float of
    an infinite decimal is that infinity and the float of a NaN is NaN.
    The amount is never NaN. On a store that answers, with the account
    present, the row is inserted, and the row written holds these floats:
    the amount as it is, a zero without its sign; the balance likewise,
    NULL when there is none or when it is NaN. *)
Theorem C7_persisted_values_are_nearest_doubles :
  forall row t,
    normalize_row row = Ok (Some t) ->
    (exists c2 amt,
        nth_error row 2 = Some c2 /\
        parse_amount (Some (strip (str c2))) = Ok amt /\
        of_Decimal amt = Ok (rec_amount t) /\
        float_of_decimal amt (rec_amount t) /\
        rec_amount t <> FNaN) /\
    (forall f,
        rec_balance t = Some f ->
        exists c3 bal,
          nth_error row 3 = Some c3 /\
          parse_amount (Some (strip (str c3))) = Ok bal /\
          of_Decimal bal = Ok f /\
          float_of_decimal bal f) /\
    (forall aid c,
        faults c = [] ->
        existsb (fun a => account_id a =? aid) (accounts (working c)) = true ->
        exists tx c',
          row_body aid row c = (Ok true, c') /\
          transactions (working c') =
            (transactions (working c) ++ [tx])%list /\
          amount tx = stored_real (rec_amount t) /\
          balance_after tx =
            match rec_balance t with
            | Some FNaN | None => None
            | Some b => Some (stored_real b)
            end).
Proof.
  intros row t H.
  destruct (normalize_row_amounts row t H) as [Hamt Hbal].
  destruct (normalize_row_amount_stored row t H) as [g Hg].
  apply sqlite_real_stored in Hg. destruct Hg as [Hnan Hg].
  split; [| split].
  - destruct Hamt as (c2 & amt & Hc2 & Hparse & Hfloat).
    exists c2, amt. split; [exact Hc2 |]. split; [exact Hparse |].
    split; [exact Hfloat |].
    split; [apply of_Decimal_float; exact Hfloat | exact Hnan].
  - intros f Hf. destruct (Hbal f Hf) as (c3 & bal & Hc3 & Hparse & Hfloat).
    exists c3, bal. split; [exact Hc3 |]. split; [exact Hparse |].
    split; [exact Hfloat | apply of_Decimal_float; exact Hfloat].
  - intros aid c Hq Hacc.
    destruct (row_body_stores aid row t c H Hq Hacc)
      as (tx & c' & Hrun & Htx & Hst).
    exists tx, c'. split; [exact Hrun |]. split; [exact Htx |].
    destruct Hst as (_ & _ & _ & Ha & _ & _ & Hb).
    split.
    + symmetry in Ha. apply sqlite_real_stored in Ha. apply Ha.
    + rewrite Hb. destruct (rec_balance t) as [b |]; [| reflexivity].
      destruct (sqlite_real b) as [g' |] eqn:Eb.
      * apply sqlite_real_stored in Eb. destruct Eb as [Hb' ->].
        destruct b; try reflexivity. congruence.
      * destruct b as [s m e | s |]; try discriminate; [| reflexivity].
        simpl in Eb. destruct m; discriminate.
Qed.

Lemma C7_persisted_values_witness :
  let row := [Val "05/10/2024"; Val "Test Credit Card Payment"; Val "-25.49";
              Val "10,516.46"] in
  let t := mkRecord "2024-05-10" "Test Credit Card Payment"
             (FFin true 7174797156354621 (-48)) "debit"
             (Some (FFin false 5781485026520596 (-39))) in
  normalize_row row = Ok (Some t) /\
  (exists c2 amt,
      nth_error row 2 = Some c2 /\
      parse_amount (Some (strip (str c2))) = Ok amt /\
      of_Decimal amt = Ok (rec_amount t) /\
      float_of_decimal amt (rec_amount t) /\
      rec_amount t <> FNaN) /\
  (forall f,
      rec_balance t = Some f ->
      exists c3 bal,
        nth_error row 3 = Some c3 /\
        parse_amount (Some (strip (str c3))) = Ok bal /\
        of_Decimal bal = Ok f /\
        float_of_decimal bal f) /\
  (forall aid c,
      faults c = [] ->
      existsb (fun a => account_id a =? aid) (accounts (working c)) = true ->
      exists tx c',
        row_body aid row c = (Ok true, c') /\
        transactions (working c') =
          (transactions (working c) ++ [tx])%list /\
        amount tx = stored_real (rec_amount t) /\
        balance_after tx =
          match rec_balance t with
          | Some FNaN | None => None
          | Some b => Some (stored_real b)
          end).
Proof.
  intros row t.
  assert (H : normalize_row row = Ok (Some t)) by (vm_compute; reflexivity).
  split; [exact H |].
  exact (C7_persisted_values_are_nearest_doubles row t H).
Defined.

(** C7, as stated, fails: the amount -25.49 is parsed exactly and persisted
    as the double 7174797156354621 * 2^-48, which is not -25.49 (no binary
    fraction is); -50.00 is a binary fraction and is persisted exactly. *)
Lemma C7_amount_is_not_persisted_exactly :
  let row := [Val "05/10/2024"; Val "Test Credit Card Payment"; Val "-25.49";
              Val "10,516.46"] in
  parse_amount (Some "-25.49") = Ok (DFin true 2549 (-2)) /\
  normalize_row row =
    Ok (Some (mkRecord "2024-05-10" "Test Credit Card Payment"
                (FFin true 7174797156354621 (-48)) "debit"
                (Some (FFin false 5781485026520596 (-39))))) /\
  ~ exactly (FFin true 7174797156354621 (-48)) (DFin true 2549 (-2)) /\
  ~ exactly (FFin false 5781485026520596 (-39)) (DFin false 1051646 (-2)) /\
  of_Decimal (DFin true 5000 (-2)) = Ok (FFin true 7036874417766400 (-47)) /\
  exactly (FFin true 7036874417766400 (-47)) (DFin true 5000 (-2)).
Proof.
  vm_compute. repeat split; try reflexivity; intros H; discriminate H.
Qed.

(** ** C6: what [parse_date] does on well-formed dates, and how it fails *)

(** Every failure of [parse_date] is a [ValueError] that quotes the text. *)
Lemma parse_date_error_quotes_input s e :
  parse_date s = Raise e ->
  e = mkExn ValueError ("Unable to parse date: " ++ s).
Proof.
  unfold parse_date.
  assert (Hmd : forall x, DateTime.strptime_mdY s = inl x ->
                          exn_class x = ValueError).
  { unfold DateTime.strptime_mdY, DateTime.make_date. intros x.
    repeat match goal with
           | |- context [match ?y with _ => _ end] =>
               destruct y; try discriminate
           end;
      intros H; inversion H; reflexivity. }
  assert (Hymd : forall x, DateTime.strptime_Ymd s = inl x ->
                           exn_class x = ValueError).
  { unfold DateTime.strptime_Ymd, DateTime.make_date. intros x.
    repeat match goal with
           | |- context [match ?y with _ => _ end] =>
               destruct y; try discriminate
           end;
      intros H; inversion H; reflexivity. }
  destruct (contains "/" s).
  - destruct (DateTime.strptime_mdY s) as [x |] eqn:E; simpl.
    + rewrite (Hmd x eq_refl). intros H. inversion H. reflexivity.
    + discriminate.
  - destruct (DateTime.strptime_Ymd s) as [x |] eqn:E; simpl.
    + rewrite (Hymd x eq_refl). intros H. inversion H. reflexivity.
    + discriminate.
Qed.

Lemma in_range_list lo n z :
  Z.of_nat lo <= z < Z.of_nat (lo + n) ->
  In z (map Z.of_nat (seq lo n)).
Proof.
  intros H. replace z with (Z.of_nat (Z.to_nat z)) by lia.
  apply in_map, in_seq. lia.
Qed.

Lemma all_years_ok :
  forallb year_ok (map Z.of_nat (seq 1 (Z.to_nat 9999))) = true.
Proof. vm_compute. reflexivity. Qed.

Lemma year_ok_in_range y : 1 <= y <= 9999 -> year_ok y = true.
Proof.
  intros H. pose proof all_years_ok as Hall.
  rewrite forallb_forall in Hall. apply Hall.
  apply in_range_list. lia.
Qed.

Lemma all_months_ok : Forall month_ok (map Z.of_nat (seq 1 12)).
Proof.
  simpl. repeat constructor; intros r; repeat split; reflexivity.
Qed.

Lemma month_ok_in_range m : 1 <= m <= 12 -> month_ok m.
Proof.
  intros H. pose proof all_months_ok as Hall.
  rewrite Forall_forall in Hall. apply Hall.
  apply in_range_list. simpl. lia.
Qed.

Lemma all_days_ok : Forall day_ok (map Z.of_nat (seq 1 31)).
Proof.
  simpl. repeat constructor; try (intros r; split); reflexivity.
Qed.

Lemma day_ok_in_range d : 1 <= d <= 31 -> day_ok d.
Proof.
  intros H. pose proof all_days_ok as Hall.
  rewrite Forall_forall in Hall. apply Hall.
  apply in_range_list. simpl. lia.
Qed.

Lemma match_Y_app ds v r :
  DateTime.match_Y ds = Some (v, EmptyString) ->
  DateTime.match_Y (ds ++ r) = Some (v, r).
Proof.
  destruct ds as [| a [| b [| c [| d ds]]]]; try discriminate.
  simpl. destruct (is_digit a && is_digit b && is_digit c && is_digit d);
    [| discriminate].
  intros H. inversion H; subst. reflexivity.
Qed.

Lemma year_text_read_back y r :
  1 <= y <= 9999 ->
  DateTime.match_Y (pad_left 4 (str_of_Z y) ++ r) = Some (y, r) /\
  no_slash (pad_left 4 (str_of_Z y)) = true.
Proof.
  intros H. pose proof (year_ok_in_range y H) as Hok.
  unfold year_ok in Hok.
  destruct (DateTime.match_Y (pad_left 4 (str_of_Z y)))
    as [[v [| c rest]] |] eqn:E; try discriminate.
  apply andb_true_iff in Hok. destruct Hok as [Hok _].
  apply andb_true_iff in Hok. destruct Hok as [Hv Hns].
  apply Z.eqb_eq in Hv. subst v.
  split; [apply match_Y_app; exact E | exact Hns].
Qed.

(** From the year 1000 on, [%Y] writes the four digits [%Y] reads. *)
Lemma year_text_plain y :
  1000 <= y <= 9999 -> str_of_Z y = pad_left 4 (str_of_Z y).
Proof.
  intros H. assert (Hy : 1 <= y <= 9999) by lia.
  pose proof (year_ok_in_range y Hy) as Hok. unfold year_ok in Hok.
  destruct (DateTime.match_Y (pad_left 4 (str_of_Z y)))
    as [[v [| c rest]] |]; try discriminate.
  apply andb_true_iff in Hok. destruct Hok as [_ Hok].
  destruct (y <? 1000) eqn:E; [apply Z.ltb_lt in E; lia |].
  apply String.eqb_eq. exact Hok.
Qed.

(** Below the year 1000, [%Y] writes fewer than four digits. *)
Lemma year_text_short y :
  1 <= y < 1000 ->
  (String.length (str_of_Z y) < 4)%nat /\ no_slash (str_of_Z y) = true.
Proof.
  intros H. assert (Hy : 1 <= y <= 9999) by lia.
  pose proof (year_ok_in_range y Hy) as Hok. unfold year_ok in Hok.
  destruct (DateTime.match_Y (pad_left 4 (str_of_Z y)))
    as [[v [| c rest]] |]; try discriminate.
  apply andb_true_iff in Hok. destruct Hok as [_ Hok].
  destruct (y <? 1000) eqn:E; [| apply Z.ltb_ge in E; lia].
  apply andb_true_iff in Hok. destruct Hok as [Hlen Hns].
  apply Nat.ltb_lt in Hlen. split; assumption.
Qed.

(** [%Y] does not read a text of fewer than four characters followed by
    a hyphen. *)
Lemma match_Y_short ds r :
  (String.length ds < 4)%nat ->
  DateTime.match_Y (ds ++ String "-" r) = None.
Proof.
  intros H.
  destruct ds as [| a [| b [| c [| d ds]]]]; simpl in H; try lia;
    destruct r as [| r1 [| r2 [| r3 r]]]; simpl; try reflexivity;
    repeat match goal with
           | |- context [is_digit ?x] =>
               lazymatch x with
               | "-"%char => fail
               | _ => destruct (is_digit x)
               end
           end; reflexivity.
Qed.

Lemma contains_slash_false s : no_slash s = true -> contains "/" s = false.
Proof.
  unfold no_slash. induction s as [| c s IH]; [reflexivity |].
  intros H. simpl in H. apply andb_true_iff in H. destruct H as [Hc Hs].
  change (contains "/" (String c s))
    with (String.prefix "/" (String c s) || contains "/" s).
  rewrite (IH Hs), orb_false_r.
  destruct (String.prefix "/" (String c s)) eqn:E; [| reflexivity].
  apply prefix_app in E. destruct E as [b Hb]. inversion Hb; subst.
  discriminate.
Qed.

Lemma contains_slash_true a b : contains "/" (a ++ String "/" b) = true.
Proof. apply contains_substring. exists a, b. reflexivity. Qed.

Lemma match_lit_same c r : DateTime.match_lit c (String c r) = Some r.
Proof. unfold DateTime.match_lit. rewrite Ascii.eqb_refl. reflexivity. Qed.

Lemma valid_date_ranges y m d :
  DateTime.valid_date (DateTime.mkDate y m d) = true ->
  1 <= y <= 9999 /\ 1 <= m <= 12 /\ 1 <= d <= 31.
Proof.
  unfold DateTime.valid_date. simpl. intros H.
  repeat (apply andb_true_iff in H; destruct H as [H ?]).
  assert (DateTime.days_in_month y m <= 31).
  { unfold DateTime.days_in_month.
    repeat match goal with
           | |- context [match ?x with _ => _ end] => destruct x
           end; lia. }
  lia.
Qed.

(** On a date of the calendar: the month/day/year text, with month and day
    bare or zero-padded, is brought to the text [strftime] writes; from the
    year 1000 on that text is returned as it came, below it is refused. *)
Lemma parse_date_on_calendar_dates y m d M D :
  DateTime.valid_date (DateTime.mkDate y m d) = true ->
  renders m M -> renders d D ->
  let iso := DateTime.strftime_Ymd (DateTime.mkDate y m d) in
  parse_date (M ++ "/" ++ D ++ "/" ++ pad_left 4 (str_of_Z y)) = Ok iso /\
  (1000 <= y -> parse_date iso = Ok iso) /\
  (y < 1000 ->
   parse_date iso =
     Raise (mkExn ValueError ("Unable to parse date: " ++ iso))).
Proof.
  intros Hvalid HM HD iso.
  destruct (valid_date_ranges y m d Hvalid) as (Hy & Hm & Hd).
  pose proof (month_ok_in_range m Hm) as Hmonth.
  destruct (day_ok_in_range d Hd) as (Hday & Hday_end & Hday_ns).
  destruct (Hmonth (pad_left 2 (str_of_Z d))) as (_ & _ & Hmm & Hmns).
  assert (Hiso : iso = str_of_Z y ++
                         String "-" (pad_left 2 (str_of_Z m) ++
                                     String "-" (pad_left 2 (str_of_Z d))))
    by reflexivity.
  assert (Hnoslash : no_slash (str_of_Z y) = true ->
                     contains "/" iso = false).
  { intros Hyns. apply contains_slash_false. rewrite Hiso.
    unfold no_slash in *.
    rewrite all_chars_app. rewrite Hyns. simpl.
    rewrite all_chars_app. rewrite Hmns. simpl. exact Hday_ns. }
  split; [| split].
  - unfold parse_date.
    change (M ++ "/" ++ D ++ "/" ++ pad_left 4 (str_of_Z y))
      with (M ++ String "/" (D ++ String "/" (pad_left 4 (str_of_Z y)))).
    rewrite contains_slash_true.
    unfold DateTime.strptime_mdY.
    assert (Hmm' : DateTime.match_m
                    (M ++ String "/" (D ++ String "/" (pad_left 4 (str_of_Z y))))
                  = Some (m, String "/" (D ++ String "/"
                                           (pad_left 4 (str_of_Z y))))).
    { destruct HM as [-> | ->]; apply Hmonth. }
    rewrite Hmm'. cbv beta iota. rewrite match_lit_same. cbv beta iota.
    assert (Hdd : DateTime.match_d (D ++ String "/" (pad_left 4 (str_of_Z y)))
                  = Some (d, String "/" (pad_left 4 (str_of_Z y)))).
    { destruct HD as [-> | ->]; apply Hday. }
    rewrite Hdd. cbv beta iota. rewrite match_lit_same. cbv beta iota.
    destruct (year_text_read_back y EmptyString Hy) as [Hyy _].
    rewrite append_nil_r in Hyy. rewrite Hyy.
    unfold DateTime.make_date. rewrite Hvalid. reflexivity.
  - intros Hbig.
    assert (Hplain : str_of_Z y = pad_left 4 (str_of_Z y))
      by (apply year_text_plain; lia).
    destruct (year_text_read_back y
                (String "-" (pad_left 2 (str_of_Z m) ++
                             String "-" (pad_left 2 (str_of_Z d)))) Hy)
      as [Hyy Hyns].
    rewrite <- Hplain in Hyy, Hyns. rewrite <- Hiso in Hyy.
    unfold parse_date. rewrite (Hnoslash Hyns).
    unfold DateTime.strptime_Ymd. rewrite Hyy.
    cbv beta iota. rewrite match_lit_same. cbv beta iota.
    rewrite Hmm. cbv beta iota. rewrite match_lit_same. cbv beta iota.
    rewrite Hday_end. unfold DateTime.make_date. rewrite Hvalid.
    reflexivity.
  - intros Hsmall.
    destruct (year_text_short y) as [Hlen Hyns]; [lia |].
    unfold parse_date. rewrite (Hnoslash Hyns).
    unfold DateTime.strptime_Ymd.
    rewrite Hiso at 1. rewrite (match_Y_short _ _ Hlen). reflexivity.
Qed.

(** The dates of the tests, and an invalid month and day. *)
Example parse_date_examples :
  parse_date "04/01/2024" = Ok "2024-04-01" /\
  parse_date "12/31/2023" = Ok "2023-12-31" /\
  parse_date "01/01/2025" = Ok "2025-01-01" /\
  parse_date "2024-04-01" = Ok "2024-04-01" /\
  parse_date "invalid-date" =
    Raise (mkExn ValueError "Unable to parse date: invalid-date") /\
  parse_date "13/01/2024" =
    Raise (mkExn ValueError "Unable to parse date: 13/01/2024") /\
  parse_date "02/30/2024" =
    Raise (mkExn ValueError "Unable to parse date: 02/30/2024").
Proof. vm_compute. repeat split; reflexivity. Qed.

(** The ISO branch hands back whatever text [%Y-%m-%d] accepts, padded or
    not. *)
Lemma parse_date_returns_accepted_text s d :
  contains "/" s = false ->
  DateTime.strptime_Ymd s = Ok d ->
  parse_date s = Ok s.
Proof.
  intros Hns Hd. unfold parse_date. rewrite Hns, Hd. reflexivity.
Qed.

(** ** The balance recompute selects the latest transaction *)

Lemma ascii_compare_refl a : Ascii.compare a a = Eq.
Proof. unfold Ascii.compare. apply N.compare_refl. Qed.

Lemma string_compare_refl s : String.compare s s = Eq.
Proof.
  induction s as [| a s IH]; simpl; [reflexivity |].
  rewrite ascii_compare_refl. exact IH.
Qed.

Lemma string_compare_gt_trans s1 :
  forall s2 s3,
    String.compare s1 s2 = Gt -> String.compare s2 s3 = Gt ->
    String.compare s1 s3 = Gt.
Proof.
  induction s1 as [| a s1 IH]; intros [| b s2] [| c s3]; simpl;
    try discriminate; try reflexivity.
  unfold Ascii.compare.
  destruct (N.compare_spec (N_of_ascii a) (N_of_ascii b)) as [Hab | Hab | Hab];
    destruct (N.compare_spec (N_of_ascii b) (N_of_ascii c)) as [Hbc | Hbc | Hbc];
    try discriminate; intros H1 H2.
  - rewrite Hab, Hbc, N.compare_refl. eapply IH; eassumption.
  - rewrite Hab. apply N.compare_gt_iff in Hbc. rewrite Hbc. reflexivity.
  - rewrite <- Hbc. apply N.compare_gt_iff in Hab. rewrite Hab. reflexivity.
  - assert (H : (N_of_ascii c < N_of_ascii a)%N) by lia.
    apply N.compare_gt_iff in H. rewrite H. reflexivity.
Qed.

Lemma string_compare_eq_gt s1 s2 s3 :
  String.compare s1 s2 = Eq -> String.compare s2 s3 = Gt ->
  String.compare s1 s3 = Gt.
Proof.
  intros H. apply String.compare_eq_iff in H. subst. auto.
Qed.

Lemma sorts_before_irrefl t : sorts_before t t = false.
Proof.
  unfold sorts_before. rewrite string_compare_refl. apply Z.ltb_irrefl.
Qed.

Lemma sorts_before_trans x y z :
  sorts_before x y = true -> sorts_before y z = true ->
  sorts_before x z = true.
Proof.
  unfold sorts_before.
  destruct (String.compare (transaction_date x) (transaction_date y)) eqn:Exy;
    destruct (String.compare (transaction_date y) (transaction_date z)) eqn:Eyz;
    try discriminate; intros H1 H2.
  - apply String.compare_eq_iff in Exy, Eyz. rewrite Exy, Eyz.
    rewrite string_compare_refl. apply Z.ltb_lt in H1, H2. apply Z.ltb_lt. lia.
  - apply String.compare_eq_iff in Exy. rewrite Exy, Eyz. reflexivity.
  - apply String.compare_eq_iff in Eyz. rewrite <- Eyz, Exy. reflexivity.
  - rewrite (string_compare_gt_trans _ _ _ Exy Eyz). reflexivity.
Qed.

Lemma first_row_from best rows r :
  first_row (Some best) rows = Some r ->
  (r = best \/ In r rows) /\
  sorts_before best r = false /\
  forall x, In x rows -> sorts_before x r = false.
Proof.
  revert best. induction rows as [| t rows IH]; intros best H; simpl in H.
  - inversion H; subst.
    split; [left; reflexivity |].
    split; [apply sorts_before_irrefl | intros x []].
  - destruct (sorts_before t best) eqn:Etb.
    + destruct (IH t H) as (Hin & Hbest & Hall).
      split; [destruct Hin as [-> | Hin]; right; [left | right]; auto |].
      split.
      * destruct (sorts_before best r) eqn:E; [| reflexivity].
        rewrite (sorts_before_trans t best r Etb E) in Hbest. discriminate.
      * intros x [<- | Hx]; [exact Hbest | apply Hall; exact Hx].
    + destruct (IH best H) as (Hin & Hbest & Hall).
      split; [destruct Hin as [-> | Hin]; [left | right; right]; auto |].
      split; [exact Hbest |].
      intros x [<- | Hx]; [| apply Hall; exact Hx].
      destruct (sorts_before t r) eqn:E; [| reflexivity].
      destruct Hin as [-> | Hin]; [congruence |].
      destruct (sorts_before r best) eqn:Erb.
      * rewrite (sorts_before_trans t r best E Erb) in Etb. discriminate.
      * (* r and best are tied or r = best: then t before best *)
        exfalso. clear IH Hall H.
        unfold sorts_before in *.
        destruct (String.compare (transaction_date best) (transaction_date r))
          eqn:Ebr; try discriminate.
        -- apply String.compare_eq_iff in Ebr. rewrite Ebr in Etb.
           rewrite <- Ebr in Erb. rewrite string_compare_refl in Erb.
           destruct (String.compare (transaction_date t) (transaction_date r));
             try discriminate.
           apply Z.ltb_ge in Hbest, Erb, Etb. apply Z.ltb_lt in E. lia.
        -- rewrite String.compare_antisym in Erb. rewrite Ebr in Erb.
           simpl in Erb. discriminate.
Qed.

(** The row the balance SELECT returns belongs to the account and no row
    of the account comes before it in the order of the query: it has the
    latest date, and among the rows of that date the highest id. *)
Lemma latest_transaction_is_first aid s r :
  latest_transaction aid s = Some r ->
  In r (transactions s) /\
  txn_account_id r = aid /\
  forall x,
    In x (transactions s) -> txn_account_id x = aid ->
    sorts_before x r = false.
Proof.
  unfold latest_transaction.
  destruct (filter _ (transactions s)) as [| t rows] eqn:Ef;
    [discriminate |].
  simpl. intros H. destruct (first_row_from t rows r H) as (Hin & Hbest & Hall).
  assert (Hr : In r (t :: rows))
    by (destruct Hin as [-> | Hin]; [left | right]; auto).
  rewrite <- Ef in Hr. apply filter_In in Hr. destruct Hr as [Hr Haid].
  apply Z.eqb_eq in Haid.
  split; [exact Hr |]. split; [exact Haid |].
  intros x Hx Hxa.
  assert (Hx' : In x (t :: rows)).
  { rewrite <- Ef. apply filter_In. split; [exact Hx |].
    apply Z.eqb_eq. exact Hxa. }
  destruct Hx' as [<- | Hx']; [exact Hbest | apply Hall; exact Hx'].
Qed.

(** * Further properties of the pipeline *)

(** ** [parse_date] *)

Lemma strptime_mdY_valid s d :
  DateTime.strptime_mdY s = inr d -> DateTime.valid_date d = true.
Proof.
  unfold DateTime.strptime_mdY, DateTime.make_date.
  repeat match goal with
         | |- context [match ?y with _ => _ end] =>
             destruct y eqn:?; try discriminate
         end.
  intros H. inversion H; subst. assumption.
Qed.

(** X1. Whatever makes [parse_date] fail (a text that matches neither
    format, trailing characters, a day the month does not have), the caller
    sees one [ValueError] whose text is [Unable to parse date: ] followed by
    the text it passed. *)
Theorem X1_parse_date_failure_quotes_the_text :
  forall s e,
    parse_date s = Raise e ->
    exn_class e = ValueError /\
    exn_str e = "Unable to parse date: " ++ s.
Proof.
  intros s e H. apply parse_date_error_quotes_input in H. subst e.
  split; reflexivity.
Qed.

Lemma X1_parse_date_failure_witness :
  parse_date "02/30/2024" =
    Raise (mkExn ValueError "Unable to parse date: 02/30/2024") /\
  exn_class (mkExn ValueError "Unable to parse date: 02/30/2024")
    = ValueError /\
  exn_str (mkExn ValueError "Unable to parse date: 02/30/2024")
    = "Unable to parse date: " ++ "02/30/2024".
Proof.
  split; [reflexivity |].
  apply (X1_parse_date_failure_quotes_the_text "02/30/2024").
  reflexivity.
Defined.

(** X2. For every date of the calendar (year 1 to 9999), the
    month/day/year text, with month and day written bare or zero-padded and
    the year with four digits, is turned into year-month-day with month
    and day zero-padded and the year as [%Y] writes it, without leading
    zeros. From the year 1000 on that is the YYYY-MM-DD text of the date,
    and it is accepted and returned as it is; for a year below 1000 the
    text returned has a shorter year and [parse_date] refuses it. *)
Theorem X2_parse_date_normalises_calendar_dates :
  forall y m d M D,
    DateTime.valid_date (DateTime.mkDate y m d) = true ->
    renders m M -> renders d D ->
    let iso := str_of_Z y ++ "-" ++ pad_left 2 (str_of_Z m) ++ "-" ++
               pad_left 2 (str_of_Z d) in
    parse_date (M ++ "/" ++ D ++ "/" ++ pad_left 4 (str_of_Z y)) = Ok iso /\
    (1000 <= y ->
     str_of_Z y = pad_left 4 (str_of_Z y) /\ parse_date iso = Ok iso) /\
    (y < 1000 ->
     (String.length (str_of_Z y) < 4)%nat /\
     parse_date iso =
       Raise (mkExn ValueError ("Unable to parse date: " ++ iso))).
Proof.
  intros y m d M D Hv HM HD iso.
  destruct (parse_date_on_calendar_dates y m d M D Hv HM HD)
    as (Hslash & Hbig & Hsmall).
  destruct (valid_date_ranges y m d Hv) as (Hy & _).
  split; [exact Hslash |]. split.
  - intros H. split; [apply year_text_plain; lia | exact (Hbig H)].
  - intros H. split; [apply year_text_short; lia | exact (Hsmall H)].
Qed.

Lemma X2_parse_date_witness :
  DateTime.valid_date (DateTime.mkDate 2024 2 29) = true /\
  renders 2 "2" /\ renders 29 "29" /\
  parse_date "2/29/2024" = Ok "2024-02-29" /\
  (1000 <= 2024 ->
   "2024" = pad_left 4 "2024" /\ parse_date "2024-02-29" = Ok "2024-02-29") /\
  (2024 < 1000 ->
   (String.length "2024" < 4)%nat /\
   parse_date "2024-02-29" =
     Raise (mkExn ValueError ("Unable to parse date: " ++ "2024-02-29"))).
Proof.
  assert (Hv : DateTime.valid_date (DateTime.mkDate 2024 2 29) = true)
    by reflexivity.
  assert (HM : renders 2 "2") by (left; reflexivity).
  assert (HD : renders 29 "29") by (left; reflexivity).
  split; [exact Hv |]. split; [exact HM |]. split; [exact HD |].
  exact (X2_parse_date_normalises_calendar_dates 2024 2 29 "2" "29" Hv HM HD).
Defined.

(** The year 999: the slash text is accepted, the text returned is not. *)
Example parse_date_year_999 :
  parse_date "12/31/0999" = Ok "999-12-31" /\
  parse_date "999-12-31" =
    Raise (mkExn ValueError "Unable to parse date: 999-12-31").
Proof. vm_compute. split; reflexivity. Qed.

(** X3. [parse_date] is idempotent from the year 1000 on. A text it
    returns is either the YYYY-MM-DD text it was given, which it returns
    again, or the text [strftime] wrote for a month/day/year text; that
    one it accepts and returns unchanged when the year is 1000 or later,
    and refuses when the year is below 1000. *)
Theorem X3_parse_date_idempotent_from_1000 :
  forall s r,
    parse_date s = Ok r ->
    (contains "/" s = false /\ r = s /\ parse_date r = Ok r) \/
    (exists d,
        contains "/" s = true /\
        DateTime.strptime_mdY s = Ok d /\
        r = DateTime.strftime_Ymd d /\
        (1000 <= DateTime.year d /\ parse_date r = Ok r \/
         DateTime.year d < 1000 /\
         parse_date r =
           Raise (mkExn ValueError ("Unable to parse date: " ++ r)))).
Proof.
  intros s r H. pose proof H as H0. unfold parse_date in H.
  destruct (contains "/" s) eqn:Hslash.
  - right.
    destruct (DateTime.strptime_mdY s) as [e | d] eqn:Hd; simpl in H.
    + destruct (exn_class e); discriminate.
    + inversion H; subst r. exists d.
      split; [reflexivity |]. split; [reflexivity |].
      split; [reflexivity |].
      pose proof (strptime_mdY_valid s d Hd) as Hv.
      destruct d as [y m dd].
      destruct (parse_date_on_calendar_dates y m dd (str_of_Z m)
                  (str_of_Z dd) Hv (or_introl eq_refl) (or_introl eq_refl))
        as (_ & Hbig & Hsmall).
      simpl DateTime.year.
      destruct (Z_lt_le_dec y 1000) as [Hlt | Hge].
      * right. split; [exact Hlt | exact (Hsmall Hlt)].
      * left. split; [exact Hge | exact (Hbig Hge)].
  - left.
    destruct (DateTime.strptime_Ymd s) as [e | d] eqn:Hd; simpl in H.
    + destruct (exn_class e); discriminate.
    + inversion H; subst r. auto.
Qed.

Lemma X3_parse_date_idempotent_witness :
  parse_date "4/1/2024" = Ok "2024-04-01" /\
  ((contains "/" "4/1/2024" = false /\ "2024-04-01" = "4/1/2024" /\
    parse_date "2024-04-01" = Ok "2024-04-01") \/
   (exists d,
       contains "/" "4/1/2024" = true /\
       DateTime.strptime_mdY "4/1/2024" = Ok d /\
       "2024-04-01" = DateTime.strftime_Ymd d /\
       (1000 <= DateTime.year d /\
        parse_date "2024-04-01" = Ok "2024-04-01" \/
        DateTime.year d < 1000 /\
        parse_date "2024-04-01" =
          Raise (mkExn ValueError
                   ("Unable to parse date: " ++ "2024-04-01"))))).
Proof.
  assert (H : parse_date "4/1/2024" = Ok "2024-04-01") by reflexivity.
  split; [exact H |].
  exact (X3_parse_date_idempotent_from_1000 "4/1/2024" "2024-04-01" H).
Defined.

(** ** Invariants the calls keep *)

Section Invariant.
Context (P : Store -> Prop).

Lemma keeps_ret {A : Type} (a : A) : keeps_invariant P (ret a).
Proof. intros c Hw Hc. split; assumption. Qed.

Lemma keeps_lift {A : Type} (r : Res A) : keeps_invariant P (lift r).
Proof. intros c Hw Hc. split; assumption. Qed.

Lemma keeps_raise {A : Type} (e : Exn) : keeps_invariant P (@raise A e).
Proof. intros c Hw Hc. split; assumption. Qed.

Lemma keeps_bind {A B : Type} (m : M A) (k : A -> M B) :
  keeps_invariant P m -> (forall a, keeps_invariant P (k a)) ->
  keeps_invariant P (bind m k).
Proof.
  intros Hm Hk c Hw Hc. unfold bind.
  specialize (Hm c Hw Hc). destruct (m c) as [[e | a] c1]; simpl in *.
  - exact Hm.
  - apply Hk; apply Hm.
Qed.

Lemma keeps_try {A : Type} (m : M A) (h : Exn -> M A) :
  keeps_invariant P m -> (forall e, keeps_invariant P (h e)) ->
  keeps_invariant P (try_except m h).
Proof.
  intros Hm Hh c Hw Hc. unfold try_except.
  specialize (Hm c Hw Hc). destruct (m c) as [[e | a] c1]; simpl in *.
  - apply Hh; apply Hm.
  - exact Hm.
Qed.

Lemma keeps_execute : keeps_invariant P execute.
Proof.
  intros c Hw Hc. unfold execute.
  destruct (faults c) as [| [msg |] fs]; simpl; split; assumption.
Qed.

Lemma keeps_commit : keeps_invariant P commit.
Proof.
  intros c Hw Hc. unfold commit, bind, execute.
  destruct (faults c) as [| [msg |] fs]; simpl; split; assumption.
Qed.

Lemma keeps_rollback : keeps_invariant P rollback.
Proof. intros c Hw Hc. unfold rollback. simpl. split; assumption. Qed.

(** A statement that, when it succeeds, replaces the pending store by
    [write s t], and that may refuse to run ([guard]). *)
Lemma keeps_statement {A : Type} (guard : Store -> bool)
    (write : Store -> nat -> Store) (result : Store -> A) (e : Exn) :
  (forall s t, P s -> guard s = true -> P (write s t)) ->
  keeps_invariant P
    (execute ;;
     s <- get_working ;;
     t <- now ;;
     if guard s then put_working (write s t) ;; ret (result s) else raise e).
Proof.
  intros Hwrite c Hw Hc.
  unfold bind, execute, get_working, now, put_working, ret, raise.
  destruct (faults c) as [| [msg |] fs]; simpl;
    try (split; assumption);
    destruct (guard (working c)) eqn:Hg; simpl; split; auto.
Qed.

End Invariant.

(** *** Primary keys and references *)

Lemma existsb_app_l {A : Type} (p : A -> bool) (l l' : list A) :
  existsb p l = true -> existsb p (l ++ l') = true.
Proof. intros H. rewrite existsb_app, H. reflexivity. Qed.

Lemma NoDup_next_id {A : Type} (id : A -> Z) (l : list A) (seq : Z) (y : A) :
  NoDup (map id l) -> id y = next_id id l seq -> NoDup (map id (l ++ [y])).
Proof.
  intros Hnd Hy. apply NoDup_map_snoc; [exact Hnd |].
  intros x Hx. pose proof (next_id_fresh id l seq x Hx). lia.
Qed.

Lemma integrity_add_bank s name t x y z :
  integrity s ->
  integrity
    (mkStore (banks s ++ [mkBank (next_id bank_id (banks s) (seq_banks s))
                            name t])
       (accounts s) (transactions s) x y z).
Proof.
  intros ((Hb & Ha & Ht) & (Hab & Hta)).
  split; [split; [| split] | split]; simpl; try assumption.
  - eapply NoDup_next_id; [exact Hb | reflexivity].
  - intros a Hin. apply existsb_app_l. apply Hab. exact Hin.
Qed.

Lemma integrity_add_account s bid number name type ob cb act t1 t2 x y z :
  integrity s ->
  existsb (fun b => bank_id b =? bid) (banks s) = true ->
  integrity
    (mkStore (banks s)
       (accounts s ++
          [mkAccount (next_id account_id (accounts s) (seq_accounts s))
             bid number name type ob cb act t1 t2])
       (transactions s) x y z).
Proof.
  intros ((Hb & Ha & Ht) & (Hab & Hta)) Hbank.
  split; [split; [| split] | split]; simpl; try assumption.
  - eapply NoDup_next_id; [exact Ha | reflexivity].
  - intros a Hin. apply in_app_or in Hin. destruct Hin as [Hin | [<- | []]].
    + apply Hab. exact Hin.
    + exact Hbank.
  - intros tx Hin. apply existsb_app_l. apply Hta. exact Hin.
Qed.

Lemma integrity_add_transaction s aid date descr amt type ref bal t1 t2 x y z :
  integrity s ->
  existsb (fun a => account_id a =? aid) (accounts s) = true ->
  integrity
    (mkStore (banks s) (accounts s)
       (transactions s ++
          [mkTransaction
             (next_id transaction_id (transactions s) (seq_transactions s))
             aid date descr amt type ref bal t1 t2])
       x y z).
Proof.
  intros ((Hb & Ha & Ht) & (Hab & Hta)) Hacc.
  split; [split; [| split] | split]; simpl; try assumption.
  - eapply NoDup_next_id; [exact Ht | reflexivity].
  - intros tx Hin. apply in_app_or in Hin. destruct Hin as [Hin | [<- | []]].
    + apply Hta. exact Hin.
    + exact Hacc.
Qed.

Lemma existsb_map_set_balance aid b t x l :
  existsb (fun a => account_id a =? x) (map (set_balance aid b t) l) =
  existsb (fun a => account_id a =? x) l.
Proof.
  induction l as [| a l IH]; simpl; [reflexivity |].
  rewrite set_balance_keeps_id, IH. reflexivity.
Qed.

Lemma set_balance_keeps_bank aid b t a :
  acc_bank_id (set_balance aid b t a) = acc_bank_id a.
Proof. unfold set_balance. destruct (account_id a =? aid); reflexivity. Qed.

Lemma integrity_set_balance s aid b t x y z :
  integrity s ->
  integrity
    (mkStore (banks s) (map (set_balance aid b t) (accounts s))
       (transactions s) x y z).
Proof.
  intros ((Hb & Ha & Ht) & (Hab & Hta)).
  split; [split; [| split] | split]; simpl; try assumption.
  - rewrite map_map.
    rewrite (map_ext _ account_id (set_balance_keeps_id aid b t)).
    exact Ha.
  - intros a Hin. apply in_map_iff in Hin. destruct Hin as (a0 & <- & Hin).
    rewrite set_balance_keeps_bank. apply Hab. exact Hin.
  - intros tx Hin. rewrite existsb_map_set_balance. apply Hta. exact Hin.
Qed.

Lemma insert_bank_keeps_integrity name :
  keeps_invariant integrity (insert_bank name).
Proof.
  intros c Hw Hc.
  unfold insert_bank, bind, execute, get_working, now, put_working, ret.
  destruct (faults c) as [| [msg |] fs]; simpl; split; try assumption;
    apply integrity_add_bank; exact Hw.
Qed.

Lemma insert_account_keeps_integrity bid number name type :
  keeps_invariant integrity (insert_account bid number name type).
Proof.
  intros c Hw Hc.
  unfold insert_account, bind, execute, get_working, now, put_working, ret,
    raise.
  destruct (faults c) as [| [msg |] fs]; simpl; try (split; assumption);
    destruct (existsb _ (banks (working c))) eqn:E; simpl;
    split; try assumption; apply integrity_add_account; assumption.
Qed.

Lemma insert_transaction_keeps_integrity aid date descr amt type bal :
  keeps_invariant integrity (insert_transaction aid date descr amt type bal).
Proof.
  intros c Hw Hc.
  unfold insert_transaction, bind, execute, get_working, now, put_working,
    ret, raise.
  destruct (faults c) as [| [msg |] fs]; simpl; try (split; assumption);
    destruct (existsb _ (accounts (working c))) eqn:E; simpl;
    try (split; assumption);
    destruct (sqlite_real amt); simpl; split; try assumption;
    apply integrity_add_transaction; assumption.
Qed.

Lemma update_account_balance_keeps_integrity aid b :
  keeps_invariant integrity (update_account_balance aid b).
Proof.
  intros c Hw Hc.
  unfold update_account_balance, bind, execute, get_working, now,
    put_working.
  destruct (faults c) as [| [msg |] fs]; simpl; split; try assumption;
    apply integrity_set_balance; exact Hw.
Qed.

Lemma keeps_get_working (P : Store -> Prop) : keeps_invariant P get_working.
Proof. intros c Hw Hc. split; assumption. Qed.

Lemma keeps_now (P : Store -> Prop) : keeps_invariant P now.
Proof. intros c Hw Hc. split; assumption. Qed.

(** Proves [keeps_invariant P m] by the structure of [m]; [prim] is tried
    first, on the statements that write. *)
Ltac keeps_by prim :=
  repeat first
    [ solve [prim]
    | apply keeps_ret
    | apply keeps_lift
    | apply keeps_raise
    | apply keeps_get_working
    | apply keeps_now
    | apply keeps_execute
    | apply keeps_commit
    | apply keeps_rollback
    | apply keeps_bind; [| intros ?]
    | apply keeps_try; [| intros ?]
    | match goal with
      | |- keeps_invariant _ (if ?b then _ else _) => destruct b
      | |- keeps_invariant _ (match ?x with _ => _ end) => destruct x
      end ].

(** From the statements that write to the whole call. *)
Section WholeCall.
Context (P : Store -> Prop).
Hypothesis bank_keeps : forall name, keeps_invariant P (get_or_create_bank name).
Hypothesis account_keeps :
  forall bid number name type,
    keeps_invariant P (get_or_create_account bid number name type).
Hypothesis row_keeps : forall aid row, keeps_invariant P (row_body aid row).
Hypothesis update_keeps :
  forall aid b, keeps_invariant P (update_account_balance aid b).

Lemma process_rows_keeps aid rows :
  forall imported errs,
    keeps_invariant P (process_rows aid rows imported errs).
Proof.
  induction rows as [| [i row] rest IH]; intros imported errs.
  - apply keeps_ret.
  - simpl. apply keeps_bind; [| intros st; apply IH].
    apply keeps_try.
    + apply keeps_bind; [apply row_keeps | intros b; apply keeps_ret].
    + intros e. apply keeps_bind; [apply keeps_lift |].
      intros msg. apply keeps_ret.
Qed.

Lemma update_current_balance_keeps aid :
  keeps_invariant P (update_current_balance aid).
Proof.
  unfold update_current_balance, select_latest_balance.
  keeps_by ltac:(apply update_keeps).
Qed.

Lemma import_csv_data_keeps read_csv path name number display_name :
  keeps_invariant P (import_csv_data read_csv path name number display_name).
Proof.
  unfold import_csv_data.
  apply keeps_try.
  - apply keeps_bind; [apply keeps_lift | intros df].
    apply keeps_bind; [apply bank_keeps | intros bid].
    apply keeps_bind; [apply account_keeps | intros aid].
    apply keeps_bind; [apply process_rows_keeps | intros st].
    apply keeps_bind.
    + destruct (0 <? fst st)%nat;
        [apply update_current_balance_keeps | apply keeps_ret].
    + intros _. apply keeps_bind; [apply keeps_commit |].
      intros _. apply keeps_ret.
  - intros e. apply keeps_bind; [apply keeps_rollback |].
    intros _. apply keeps_ret.
Qed.

End WholeCall.

Lemma get_or_create_bank_keeps_integrity name :
  keeps_invariant integrity (get_or_create_bank name).
Proof.
  unfold get_or_create_bank, select_bank_id.
  keeps_by ltac:(apply insert_bank_keeps_integrity).
Qed.

Lemma get_or_create_account_keeps_integrity bid number name type :
  keeps_invariant integrity (get_or_create_account bid number name type).
Proof.
  unfold get_or_create_account, select_account_id.
  keeps_by ltac:(apply insert_account_keeps_integrity).
Qed.

Lemma row_body_keeps_integrity aid row :
  keeps_invariant integrity (row_body aid row).
Proof.
  unfold row_body.
  keeps_by ltac:(apply insert_transaction_keeps_integrity).
Qed.

(** X4. Referential integrity is an invariant of the calls that write. If,
    in the store a connection holds (pending and committed), bank ids,
    account ids and transaction ids are each distinct, every account has
    its bank and every transaction its account, then the same is true
    after [get_or_create_bank], after [get_or_create_account] and after
    [import_csv_data], for every source, every argument and whichever
    statements fail. *)
Theorem X4_calls_keep_referential_integrity :
  forall c,
    integrity (working c) -> integrity (committed c) ->
    (forall name,
        let c' := snd (get_or_create_bank name c) in
        integrity (working c') /\ integrity (committed c')) /\
    (forall bid number name type,
        let c' := snd (get_or_create_account bid number name type c) in
        integrity (working c') /\ integrity (committed c')) /\
    (forall read_csv path name number display_name,
        let c' := snd (import_csv_data read_csv path name number
                         display_name c) in
        integrity (working c') /\ integrity (committed c')).
Proof.
  intros c Hw Hc. split; [| split].
  - intros name. apply get_or_create_bank_keeps_integrity; assumption.
  - intros bid number name type.
    apply get_or_create_account_keeps_integrity; assumption.
  - intros read_csv path name number display_name.
    apply (import_csv_data_keeps integrity
             get_or_create_bank_keeps_integrity
             get_or_create_account_keeps_integrity
             row_body_keeps_integrity
             update_account_balance_keeps_integrity); assumption.
Qed.

Lemma X4_referential_integrity_witness :
  integrity (working fresh_conn) /\ integrity (committed fresh_conn) /\
  (forall name,
      let c' := snd (get_or_create_bank name fresh_conn) in
      integrity (working c') /\ integrity (committed c')) /\
  (forall bid number name type,
      let c' := snd (get_or_create_account bid number name type fresh_conn) in
      integrity (working c') /\ integrity (committed c')) /\
  (forall read_csv path name number display_name,
      let c' := snd (import_csv_data read_csv path name number
                       display_name fresh_conn) in
      integrity (working c') /\ integrity (committed c')).
Proof.
  assert (H : integrity empty_store).
  { split; [repeat split; constructor | split; intros x []]. }
  split; [exact H |]. split; [exact H |].
  exact (X4_calls_keep_referential_integrity fresh_conn H H).
Defined.

(** *** Natural keys *)

Lemma NoDup_map_snoc_fresh {A B : Type} (f : A -> B) (l : list A) (y : A) :
  NoDup (map f l) -> ~ In (f y) (map f l) -> NoDup (map f (l ++ [y])).
Proof.
  induction l as [| x l IH]; simpl; intros Hnd Hfresh.
  - constructor; [intros [] | constructor].
  - inversion Hnd as [| ? ? Hnotin Hnd']; subst. constructor.
    + rewrite map_app, in_app_iff. simpl. intros [Hin | [Heq | []]].
      * contradiction.
      * apply Hfresh. left. symmetry. exact Heq.
    + apply IH; [exact Hnd' |]. intros Hin. apply Hfresh. right. exact Hin.
Qed.

Lemma bank_name_not_found name l :
  find (bank_named name) l = None -> ~ In name (map bank_name l).
Proof.
  intros Hf Hin. apply in_map_iff in Hin. destruct Hin as (b & Hb & Hin).
  pose proof (find_none _ _ Hf b Hin) as Hn.
  unfold bank_named in Hn. rewrite Hb, String.eqb_refl in Hn. discriminate.
Qed.

Lemma account_key_not_found bid number l :
  find (account_keyed bid number) l = None ->
  ~ In (bid, number) (map (fun a => (acc_bank_id a, account_number a)) l).
Proof.
  intros Hf Hin. apply in_map_iff in Hin. destruct Hin as (a & Ha & Hin).
  pose proof (find_none _ _ Hf a Hin) as Hn.
  inversion Ha as [[H1 H2]]. unfold account_keyed in Hn.
  rewrite H1, H2, Z.eqb_refl, String.eqb_refl in Hn. discriminate.
Qed.

Lemma get_or_create_bank_keeps_keys name :
  keeps_invariant keys_unique (get_or_create_bank name).
Proof.
  intros c Hw Hc.
  unfold get_or_create_bank, select_bank_id, insert_bank, commit, bind,
    execute, get_working, put_working, now, ret.
  destruct (faults c) as [| [m1 |] [| [m2 |] [| [m3 |] fs]]]; simpl;
    try (split; assumption);
    (destruct (find (bank_named name) (banks (working c))) eqn:Hf; simpl;
     [split; assumption |]);
    try (split; assumption);
    assert (Hnew : keys_unique
              (mkStore
                 (banks (working c) ++
                    [mkBank (next_id bank_id (banks (working c))
                               (seq_banks (working c))) name
                       (S (S (clock c)))])
                 (accounts (working c)) (transactions (working c))
                 (next_id bank_id (banks (working c)) (seq_banks (working c)))
                 (seq_accounts (working c)) (seq_transactions (working c))))
      by (destruct Hw as [Hb Ha]; split; simpl; [| exact Ha];
          apply NoDup_map_snoc_fresh;
          [exact Hb | apply bank_name_not_found; exact Hf]);
    split; assumption.
Qed.

Lemma get_or_create_account_keeps_keys bid number name type :
  keeps_invariant keys_unique (get_or_create_account bid number name type).
Proof.
  intros c Hw Hc.
  unfold get_or_create_account, select_account_id, insert_account, commit,
    bind, execute, get_working, put_working, now, ret, raise.
  destruct (faults c) as [| [m1 |] [| [m2 |] [| [m3 |] fs]]]; simpl;
    try (split; assumption);
    (destruct (find (account_keyed bid number) (accounts (working c)))
       eqn:Hf; simpl; [split; assumption |]);
    try (split; assumption);
    (destruct (existsb _ (banks (working c))); simpl;
     [| split; assumption]);
    assert (Hnew : keys_unique
              (mkStore (banks (working c))
                 (accounts (working c) ++
                    [mkAccount
                       (next_id account_id (accounts (working c))
                          (seq_accounts (working c)))
                       bid number name type (FFin false 0 0) None true
                       (S (S (clock c))) (S (S (clock c)))])
                 (transactions (working c)) (seq_banks (working c))
                 (next_id account_id (accounts (working c))
                    (seq_accounts (working c)))
                 (seq_transactions (working c))))
      by (destruct Hw as [Hb Ha]; split; simpl; [exact Hb |];
          apply NoDup_map_snoc_fresh;
          [exact Ha | apply account_key_not_found; exact Hf]);
    split; assumption.
Qed.

Lemma row_body_keeps_keys aid row :
  keeps_invariant keys_unique (row_body aid row).
Proof.
  intros c Hw Hc.
  unfold row_body, insert_transaction, bind, lift, execute, get_working, now,
    put_working, ret, raise.
  destruct (normalize_row row) as [e | [t |]]; simpl; try (split; assumption).
  destruct (faults c) as [| [msg |] fs]; simpl; try (split; assumption);
    destruct (existsb _ (accounts (working c))); simpl;
    try (split; assumption);
    destruct (sqlite_real (rec_amount t)); simpl; split; assumption.
Qed.

Lemma set_balance_keeps_number aid b t a :
  account_number (set_balance aid b t a) = account_number a.
Proof. unfold set_balance. destruct (account_id a =? aid); reflexivity. Qed.

Lemma update_account_balance_keeps_keys aid b :
  keeps_invariant keys_unique (update_account_balance aid b).
Proof.
  intros c Hw Hc.
  unfold update_account_balance, bind, execute, get_working, now,
    put_working.
  assert (Hnew : forall t x y z,
             keys_unique
               (mkStore (banks (working c))
                  (map (set_balance aid b t) (accounts (working c)))
                  (transactions (working c)) x y z)).
  { intros t x y z. destruct Hw as [Hb Ha]. split; simpl; [exact Hb |].
    rewrite map_map.
    erewrite map_ext; [exact Ha |].
    intros a. simpl.
    rewrite set_balance_keeps_bank, set_balance_keeps_number. reflexivity. }
  destruct (faults c) as [| [msg |] fs]; simpl; split;
    try assumption; apply Hnew.
Qed.

(** X5. The natural keys stay keys. If no two banks of the store share a
    name and no two accounts share (bank id, account number), the same is
    true after [get_or_create_bank], [get_or_create_account] and
    [import_csv_data], whatever is passed and whichever statements fail:
    resolution never inserts a second row for a key that is there. *)
Theorem X5_calls_keep_natural_keys_unique :
  forall c,
    keys_unique (working c) -> keys_unique (committed c) ->
    (forall name,
        let c' := snd (get_or_create_bank name c) in
        keys_unique (working c') /\ keys_unique (committed c')) /\
    (forall bid number name type,
        let c' := snd (get_or_create_account bid number name type c) in
        keys_unique (working c') /\ keys_unique (committed c')) /\
    (forall read_csv path name number display_name,
        let c' := snd (import_csv_data read_csv path name number
                         display_name c) in
        keys_unique (working c') /\ keys_unique (committed c')).
Proof.
  intros c Hw Hc. split; [| split].
  - intros name. apply get_or_create_bank_keeps_keys; assumption.
  - intros bid number name type.
    apply get_or_create_account_keeps_keys; assumption.
  - intros read_csv path name number display_name.
    apply (import_csv_data_keeps keys_unique
             get_or_create_bank_keeps_keys
             get_or_create_account_keeps_keys
             row_body_keeps_keys
             update_account_balance_keeps_keys); assumption.
Qed.

Lemma X5_natural_keys_witness :
  keys_unique (working fresh_conn) /\ keys_unique (committed fresh_conn) /\
  (forall name,
      let c' := snd (get_or_create_bank name fresh_conn) in
      keys_unique (working c') /\ keys_unique (committed c')) /\
  (forall bid number name type,
      let c' := snd (get_or_create_account bid number name type fresh_conn) in
      keys_unique (working c') /\ keys_unique (committed c')) /\
  (forall read_csv path name number display_name,
      let c' := snd (import_csv_data read_csv path name number
                       display_name fresh_conn) in
      keys_unique (working c') /\ keys_unique (committed c')).
Proof.
  assert (H : keys_unique empty_store) by (split; constructor).
  split; [exact H |]. split; [exact H |].
  exact (X5_calls_keep_natural_keys_unique fresh_conn H H).
Defined.

(** *** Kind and sign *)

Lemma round_binary64_shape s n d :
  (exists m q, round_binary64 s n d = FFin s m q) \/
  round_binary64 s n d = FInf s.
Proof.
  unfold round_binary64.
  destruct (n =? 0); [left; eexists; eexists; reflexivity |].
  match goal with
  | |- context [if ?b then FInf s else _] => destruct b
  end; [right; reflexivity | left; eexists; eexists; reflexivity].
Qed.

Lemma sqlite_real_nonneg f g :
  sqlite_real f = Some g ->
  (float_nonneg f = true -> float_nonneg g = true) /\
  (float_nonpos f = true -> float_nonpos g = true).
Proof.
  destruct f as [s m q | s |]; simpl; try discriminate.
  - destruct m; intros H; inversion H; subst; simpl; split; auto.
  - intros H; inversion H; subst. split; auto.
Qed.

(** The float of a decimal has the sign the comparison with 0 saw. *)
Lemma of_Decimal_sign d credit f :
  ge_zero d = Ok credit -> of_Decimal d = Ok f ->
  if credit then float_nonneg f = true else float_nonpos f = true.
Proof.
  destruct d as [s c e | s | s sg dg]; simpl; try discriminate.
  - intros Hc Hf. inversion Hc; subst credit. inversion Hf; subst f.
    clear Hc Hf.
    assert (Hshape : forall n dd,
               (Z.of_N c = 0 -> n = 0) ->
               if negb s || (c =? 0)%N
               then float_nonneg (round_binary64 s n dd) = true
               else float_nonpos (round_binary64 s n dd) = true).
    { intros n dd Hzero.
      destruct s; simpl.
      - destruct (c =? 0)%N eqn:Hc0.
        + apply N.eqb_eq in Hc0. subst c.
          rewrite (Hzero eq_refl). reflexivity.
        + destruct (round_binary64_shape true n dd) as [(m & q & ->) | ->];
            reflexivity.
      - destruct (round_binary64_shape false n dd) as [(m & q & ->) | ->];
          reflexivity. }
    destruct (e >=? 0); apply Hshape; intros H0; [rewrite H0 |]; lia.
  - intros Hc Hf. inversion Hc; subst credit. inversion Hf; subst f.
    destruct s; reflexivity.
Qed.

(** What a row binds as kind agrees with the sign of what is stored as
    amount. *)
Lemma normalize_row_kind row t f :
  normalize_row row = Ok (Some t) ->
  sqlite_real (rec_amount t) = Some f ->
  kind_consistent (rec_type t) f.
Proof.
  intros H Hf. unfold normalize_row in H.
  apply res_bind_ok in H. destruct H as (c0 & H0 & H).
  destruct (isna c0 || _); [discriminate |].
  apply res_bind_ok in H. destruct H as (c1 & H1 & H).
  apply res_bind_ok in H. destruct H as (c2 & H2 & H).
  apply res_bind_ok in H. destruct H as (bs & Hbs & H).
  destruct (is_summary _); [discriminate |].
  destruct (_ || _); [discriminate |].
  destruct (isna c2 || _); [discriminate |].
  apply res_bind_ok in H. destruct H as (date & Hdate & H).
  apply res_bind_ok in H. destruct H as (amt & Hamt & H).
  apply res_bind_ok in H. destruct H as (bal & Hbal & H).
  apply res_bind_ok in H. destruct H as (credit & Hcredit & H).
  apply res_bind_ok in H. destruct H as (famt & Hfamt & H).
  apply res_bind_ok in H. destruct H as (fbal & Hfbal & H).
  inversion H; subst t; clear H. simpl in *.
  pose proof (of_Decimal_sign amt credit famt Hcredit Hfamt) as Hsign.
  destruct (sqlite_real_nonneg famt f Hf) as [Hnn Hnp].
  unfold kind_consistent. destruct credit; [left | right]; auto.
Qed.

Lemma row_body_keeps_kinds aid row :
  keeps_invariant kinds_consistent (row_body aid row).
Proof.
  intros c Hw Hc.
  unfold row_body, insert_transaction, bind, lift, execute, get_working, now,
    put_working, ret, raise.
  destruct (normalize_row row) as [e | [t |]] eqn:Hrow; simpl;
    try (split; assumption).
  destruct (faults c) as [| [msg |] fs]; simpl; try (split; assumption);
    destruct (existsb _ (accounts (working c))); simpl;
    try (split; assumption);
    destruct (sqlite_real (rec_amount t)) as [f |] eqn:Hf; simpl;
    split; try assumption;
    intros tx Hin; simpl in Hin; apply in_app_or in Hin;
    (destruct Hin as [Hin | [<- | []]];
     [apply Hw; exact Hin | simpl; eapply normalize_row_kind; eassumption]).
Qed.

Lemma keeps_kinds_when_transactions_stay {A : Type} (m : M A) :
  (forall c, transactions (working (snd (m c))) = transactions (working c) /\
             (committed (snd (m c)) = committed c \/
              committed (snd (m c)) = working (snd (m c)))) ->
  keeps_invariant kinds_consistent m.
Proof.
  intros H c Hw Hc. destruct (H c) as [Ht Hcm].
  assert (Hw' : kinds_consistent (working (snd (m c)))).
  { unfold kinds_consistent. rewrite Ht. exact Hw. }
  split; [exact Hw' |].
  destruct Hcm as [-> | ->]; assumption.
Qed.

Lemma get_or_create_bank_keeps_kinds name :
  keeps_invariant kinds_consistent (get_or_create_bank name).
Proof.
  apply keeps_kinds_when_transactions_stay. intros c.
  unfold get_or_create_bank, select_bank_id, insert_bank, commit, bind,
    execute, get_working, put_working, now, ret.
  destruct (faults c) as [| [m1 |] [| [m2 |] [| [m3 |] fs]]]; simpl;
    try (split; [reflexivity | left; reflexivity]);
    destruct (find _ (banks (working c))); simpl;
    (split; [reflexivity | first [left; reflexivity | right; reflexivity]]).
Qed.

Lemma get_or_create_account_keeps_kinds bid number name type :
  keeps_invariant kinds_consistent
    (get_or_create_account bid number name type).
Proof.
  apply keeps_kinds_when_transactions_stay. intros c.
  unfold get_or_create_account, select_account_id, insert_account, commit,
    bind, execute, get_working, put_working, now, ret, raise.
  destruct (faults c) as [| [m1 |] [| [m2 |] [| [m3 |] fs]]]; simpl;
    try (split; [reflexivity | left; reflexivity]);
    destruct (find _ (accounts (working c))); simpl;
    try (split; [reflexivity | left; reflexivity]);
    destruct (existsb _ (banks (working c))); simpl;
    (split; [reflexivity | first [left; reflexivity | right; reflexivity]]).
Qed.

Lemma update_account_balance_keeps_kinds aid b :
  keeps_invariant kinds_consistent (update_account_balance aid b).
Proof.
  apply keeps_kinds_when_transactions_stay. intros c.
  unfold update_account_balance, bind, execute, get_working, put_working,
    now.
  destruct (faults c) as [| [msg |] fs]; simpl;
    (split; [reflexivity | left; reflexivity]).
Qed.

(** X6. Kind and sign agree on every transaction the import writes. If
    every transaction of the store is a credit with an amount that is not
    negative or a debit with an amount that is not positive, the same is
    true after [import_csv_data], for every source and whichever statements
    fail. *)
Theorem X6_import_keeps_kind_and_sign_consistent :
  forall read_csv path name number display_name c,
    kinds_consistent (working c) -> kinds_consistent (committed c) ->
    let c' := snd (import_csv_data read_csv path name number display_name c) in
    kinds_consistent (working c') /\ kinds_consistent (committed c').
Proof.
  intros read_csv path name number display_name c Hw Hc.
  apply (import_csv_data_keeps kinds_consistent
           get_or_create_bank_keeps_kinds
           get_or_create_account_keeps_kinds
           row_body_keeps_kinds
           update_account_balance_keeps_kinds); assumption.
Qed.

Lemma X6_kind_and_sign_witness :
  kinds_consistent (working fresh_conn) /\
  kinds_consistent (committed fresh_conn) /\
  let c' := snd (import_csv_data Examples.read_csv "sample.csv" "Test Bank"
                   "1234567890" (Some "Test Account") fresh_conn) in
  kinds_consistent (working c') /\ kinds_consistent (committed c').
Proof.
  assert (H : kinds_consistent empty_store) by (intros t []).
  split; [exact H |]. split; [exact H |].
  exact (X6_import_keeps_kind_and_sign_consistent Examples.read_csv
           "sample.csv" "Test Bank" "1234567890" (Some "Test Account")
           fresh_conn H H).
Defined.

(** ** The count the call returns *)

Lemma insert_transaction_effect aid date descr amt type bal c :
  match insert_transaction aid date descr amt type bal c with
  | (inr _, c') =>
      exists t,
        txn_account_id t = aid /\
        transactions (working c') = (transactions (working c) ++ [t])%list
  | (inl _, c') => transactions (working c') = transactions (working c)
  end.
Proof.
  unfold insert_transaction, bind, execute, get_working, now, put_working,
    ret, raise.
  destruct (faults c) as [| [msg |] fs]; simpl; try reflexivity;
    destruct (existsb _ (accounts (working c))); simpl; try reflexivity;
    destruct (sqlite_real amt); simpl; try reflexivity;
    (eexists; split; [| reflexivity]; reflexivity).
Qed.

Lemma row_body_effect aid row c :
  match row_body aid row c with
  | (inr true, c') =>
      exists t,
        txn_account_id t = aid /\
        transactions (working c') = (transactions (working c) ++ [t])%list
  | (_, c') => transactions (working c') = transactions (working c)
  end.
Proof.
  unfold row_body, bind, lift.
  destruct (normalize_row row) as [e | [t |]]; simpl; try reflexivity.
  pose proof (insert_transaction_effect aid (rec_date t) (rec_description t)
                (rec_amount t) (rec_type t) (rec_balance t) c) as H.
  destruct (insert_transaction _ _ _ _ _ _ c) as [[e | u] c']; simpl;
    exact H.
Qed.

(** Whatever fails inside the loop, it only appends rows of its account,
    its counter grows by exactly the rows it appended, and each row of the
    source is counted at most once, as an insert or as an error. *)
Lemma process_rows_counts aid rows :
  forall imported errs c st c',
    process_rows aid rows imported errs c = (Ok st, c') ->
    exists added,
      transactions (working c') =
        (transactions (working c) ++ added)%list /\
      Forall (fun t => txn_account_id t = aid) added /\
      (length added + imported = fst st)%nat /\
      (length errs <= length (snd st))%nat /\
      (fst st + length (snd st) <= imported + length errs + length rows)%nat.
Proof.
  induction rows as [| [i row] rest IH]; intros imported errs c st c' H.
  - simpl in H. unfold ret in H. inversion H; subst. exists [].
    rewrite app_nil_r. simpl. repeat split; auto; lia.
  - rewrite process_rows_cons in H.
    pose proof (row_body_effect aid row c) as Hrow.
    destruct (row_body aid row c) as [[e | b] c1].
    + destruct (row_error i e) as [e' | msg]; [discriminate H |].
      apply IH in H. destruct H as (added & Ht & Hall & H).
      rewrite length_app in H. simpl in H.
      exists added. rewrite Ht, Hrow. simpl. repeat split; auto; lia.
    + apply IH in H. destruct H as (added & Ht & Hall & H). destruct b.
      * destruct Hrow as (t & Hacc & Hrow).
        exists (t :: added). rewrite Ht, Hrow, <- app_assoc. simpl.
        repeat split; auto; lia.
      * exists added. rewrite Ht, Hrow. simpl. repeat split; auto; lia.
Qed.

Lemma get_or_create_bank_keeps_transactions name :
  preserves working_transactions (get_or_create_bank name).
Proof.
  intro c.
  unfold get_or_create_bank, select_bank_id, insert_bank, commit, bind,
    execute, get_working, put_working, now, ret, working_transactions.
  destruct (faults c) as [| [m1 |] [| [m2 |] [| [m3 |] fs]]]; simpl;
    try reflexivity;
    destruct (find _ (banks (working c))); reflexivity.
Qed.

Lemma get_or_create_account_keeps_transactions bid number name type :
  preserves working_transactions
    (get_or_create_account bid number name type).
Proof.
  intro c.
  unfold get_or_create_account, select_account_id, insert_account, commit,
    bind, execute, get_working, put_working, now, ret, raise,
    working_transactions.
  destruct (faults c) as [| [m1 |] [| [m2 |] [| [m3 |] fs]]]; simpl;
    try reflexivity;
    destruct (find _ (accounts (working c))); simpl; try reflexivity;
    destruct (existsb _ (banks (working c))); reflexivity.
Qed.

Lemma update_current_balance_keeps_transactions aid :
  preserves working_transactions (update_current_balance aid).
Proof.
  intro c.
  unfold update_current_balance, select_latest_balance,
    update_account_balance, bind, execute, get_working, put_working, now,
    ret, working_transactions.
  destruct (faults c) as [| [m1 |] [| [m2 |] fs]]; simpl; try reflexivity;
    destruct (option_map balance_after _) as [[b |] |]; simpl;
    try reflexivity;
    destruct (PyFloat.truthy b); reflexivity.
Qed.

(** A call that reports failure committed no transaction. *)
Lemma import_failure_keeps_transactions
    read_csv path name number display_name c r c' :
  working c = committed c ->
  import_csv_data read_csv path name number display_name c = (Ok r, c') ->
  success r = false ->
  transactions (committed c') = transactions (committed c) /\
  transactions_imported r = 0%nat /\ errors r = [].
Proof.
  intros Hclean Hrun Hs.
  unfold import_csv_data, try_except in Hrun.
  rewrite run_bind in Hrun. unfold lift in Hrun.
  destruct (read_csv path) as [e | df].
  - unfold rollback, bind, ret in Hrun. inversion Hrun; subst.
    simpl. auto.
  - rewrite run_bind in Hrun.
    destruct (get_or_create_bank name c) as [[e1 | bid] c2] eqn:Hbank.
    + destruct (get_or_create_bank_commits name c _ _ Hclean Hbank)
        as [(_ & Ht & _) _].
      unfold rollback, bind, ret in Hrun. inversion Hrun; subst.
      simpl. auto.
    + destruct (get_or_create_bank_commits name c _ _ Hclean Hbank)
        as [(_ & Ht & _) Hclean2].
      specialize (Hclean2 bid eq_refl).
      rewrite run_bind in Hrun.
      destruct (get_or_create_account bid number display_name "checking" c2)
        as [[e2 | aid] c3] eqn:Hacc;
        destruct (get_or_create_account_commits _ _ _ _ _ _ _ Hclean2 Hacc)
          as [(_ & Ht2 & _) _].
      * unfold rollback, bind, ret in Hrun. inversion Hrun; subst.
        simpl. split; [congruence | auto].
      * pose proof (import_tail_commits_only_on_success aid bid df) as Htail.
        match type of Hrun with
        | context [match ?m c3 with _ => _ end] =>
            destruct (m c3) as [[e3 | r0] c4] eqn:Hrest
        end.
        -- apply Htail in Hrest.
           unfold rollback, bind, ret in Hrun. inversion Hrun; subst.
           simpl. split; [congruence | auto].
        -- inversion Hrun; subst r0 c4.
           apply bind_returns in Hrest. destruct Hrest as (st & c5 & _ & Hrest).
           apply bind_returns in Hrest. destruct Hrest as (u & c6 & _ & Hrest).
           apply bind_returns in Hrest. destruct Hrest as (v & c7 & _ & Hrest).
           unfold ret in Hrest. inversion Hrest; subst. discriminate.
Qed.

(** What a call on a connection with nothing pending does to the
    committed transactions, whatever fails. *)
Lemma import_csv_data_appends :
  forall read_csv path name number display_name c r c',
    working c = committed c ->
    import_csv_data read_csv path name number display_name c = (Ok r, c') ->
    (exists added,
        transactions (committed c') =
          (transactions (committed c) ++ added)%list /\
        length added = transactions_imported r /\
        Forall (fun t => Some (txn_account_id t) = res_account_id r)
               added) /\
    (success r = false ->
     transactions (committed c') = transactions (committed c)) /\
    (forall df,
        read_csv path = Ok df ->
        (transactions_imported r + length (errors r) <= length df)%nat).
Proof.
  intros read_csv path name number display_name c r c' Hclean Hrun.
  destruct (success r) eqn:Hs.
  - pose proof Hrun as Hrun0.
    unfold import_csv_data, try_except in Hrun.
    match type of Hrun with
    | (let (_, _) := ?m c in _) = _ =>
        destruct (m c) as [[e | r0] c4] eqn:Hbody
    end.
    + unfold rollback, bind, ret in Hrun. inversion Hrun; subst.
      discriminate.
    + inversion Hrun; subst r0 c4. clear Hrun.
      apply bind_returns in Hbody. destruct Hbody as (df & cd & Hd & Hbody).
      unfold lift in Hd. inversion Hd; subst cd. clear Hd. rename H0 into Hread.
      apply bind_returns in Hbody. destruct Hbody as (bid & c0 & Hb & Hbody).
      apply bind_returns in Hbody. destruct Hbody as (aid & c1 & Ha & Hbody).
      apply bind_returns in Hbody. destruct Hbody as (st & c2 & Hp & Hbody).
      apply bind_returns in Hbody. destruct Hbody as (u & c3 & Hu & Hbody).
      apply bind_returns in Hbody. destruct Hbody as (v & c4 & Hc & Hbody).
      unfold ret in Hbody. inversion Hbody; subst r c4. clear Hbody.
      apply commit_returns in Hc. destruct Hc as [Hc _].
      pose proof (get_or_create_bank_keeps_transactions name c) as Hbt.
      rewrite Hb in Hbt. unfold working_transactions in Hbt. simpl in Hbt.
      pose proof (get_or_create_account_keeps_transactions bid number
                    display_name "checking" c0) as Hat.
      rewrite Ha in Hat. unfold working_transactions in Hat. simpl in Hat.
      destruct (process_rows_counts aid df 0 [] c1 st c2 Hp)
        as (added & Hadd & Hall & Hcount & _ & Hbound).
      assert (Hut : transactions (working c3) = transactions (working c2)).
      { destruct (0 <? fst st)%nat.
        - pose proof (update_current_balance_keeps_transactions aid c2) as H.
          rewrite Hu in H. exact H.
        - unfold ret in Hu. inversion Hu; subst. reflexivity. }
      simpl. rewrite Hc, Hut. rewrite Hat, Hbt, Hclean in Hadd.
      split.
      { exists added. split; [exact Hadd |]. split; [lia |].
        eapply Forall_impl; [| exact Hall]. intros t Ht. simpl in Ht.
        congruence. }
      split; [discriminate |].
      intros df' Hread'. rewrite Hread' in Hread. inversion Hread; subst df'.
      simpl in Hbound. lia.
  - destruct (import_failure_keeps_transactions read_csv path name number
                display_name c r c' Hclean Hrun Hs) as (Ht & Hn & He).
    rewrite Ht, Hn, He. simpl.
    split.
    { exists []. rewrite app_nil_r. repeat split; auto. }
    split; [reflexivity |]. intros df _. lia.
Qed.

(** X7. The count is the truth. On a connection with nothing pending,
    whatever the source holds and whichever statements fail, the call only
    appends to the committed transactions: the rows that were there stay,
    first and in order, the new rows all belong to the returned account,
    and their number is exactly [transactions_imported]. A call that
    reports failure appended none. When the source was read, imported rows
    and logged errors together never exceed its rows. *)
Theorem X7_count_equals_rows_committed :
  forall read_csv path name number display_name c r c',
    working c = committed c ->
    import_csv_data read_csv path name number display_name c = (Ok r, c') ->
    (exists added,
        transactions (committed c') =
          (transactions (committed c) ++ added)%list /\
        length added = transactions_imported r /\
        Forall (fun t => Some (txn_account_id t) = res_account_id r)
               added) /\
    (success r = false ->
     transactions (committed c') = transactions (committed c)) /\
    (forall df,
        read_csv path = Ok df ->
        (transactions_imported r + length (errors r) <= length df)%nat).
Proof. exact import_csv_data_appends. Qed.

Lemma X7_count_witness :
  working fresh_conn = committed fresh_conn /\
  exists r c',
    import_csv_data Examples.read_csv "malformed.csv" "Test Bank"
      "1234567890" (Some "Test Account") fresh_conn = (Ok r, c') /\
    (exists added,
        transactions (committed c') =
          (transactions (committed fresh_conn) ++ added)%list /\
        length added = transactions_imported r /\
        Forall (fun t => Some (txn_account_id t) = res_account_id r)
               added) /\
    (success r = false ->
     transactions (committed c') = transactions (committed fresh_conn)) /\
    (forall df,
        Examples.read_csv "malformed.csv" = Ok df ->
        (transactions_imported r + length (errors r) <= length df)%nat).
Proof.
  split; [reflexivity |].
  destruct (import_csv_data Examples.read_csv "malformed.csv" "Test Bank"
              "1234567890" (Some "Test Account") fresh_conn)
    as [[e | r] c'] eqn:Hrun.
  - apply (f_equal fst) in Hrun. vm_compute in Hrun. discriminate Hrun.
  - exists r, c'. split; [reflexivity |].
    exact (X7_count_equals_rows_committed Examples.read_csv "malformed.csv"
             "Test Bank" "1234567890" (Some "Test Account") fresh_conn r c'
             eq_refl Hrun).
Defined.

(** The call returns one of its two dicts and leaves nothing pending. *)
Lemma import_csv_data_ends_clean :
  forall read_csv path name number display_name c,
    let run := import_csv_data read_csv path name number display_name c in
    working (snd run) = committed (snd run) /\
    exists r,
      fst run = Ok r /\
      (success r = true /\ error r = None /\
       res_bank_id r <> None /\ res_account_id r <> None \/
       success r = false /\ error r <> None /\
       res_bank_id r = None /\ res_account_id r = None /\
       transactions_imported r = 0%nat /\ errors r = []).
Proof.
  intros read_csv path name number display_name c. cbv zeta.
  unfold import_csv_data, try_except.
  match goal with
  | |- context [match ?m c with _ => _ end] =>
      destruct (m c) as [[e | r] c4] eqn:Hbody
  end.
  - unfold rollback, bind, ret. simpl. split; [reflexivity |].
    eexists. split; [reflexivity |]. right. simpl.
    repeat split; discriminate.
  - apply bind_returns in Hbody. destruct Hbody as (df & cd & _ & Hbody).
    apply bind_returns in Hbody. destruct Hbody as (bid & c0 & _ & Hbody).
    apply bind_returns in Hbody. destruct Hbody as (aid & c1 & _ & Hbody).
    apply bind_returns in Hbody. destruct Hbody as (st & c2 & _ & Hbody).
    apply bind_returns in Hbody. destruct Hbody as (u & c3 & _ & Hbody).
    apply bind_returns in Hbody. destruct Hbody as (v & c5 & Hc & Hbody).
    unfold ret in Hbody. inversion Hbody; subst r c5. clear Hbody.
    apply commit_returns in Hc. destruct Hc as [Hc Hw].
    simpl. split; [congruence |].
    eexists. split; [reflexivity |]. left. simpl.
    repeat split; discriminate.
Qed.

(** X8. Every call ends its transaction. Whatever the source holds and
    whichever statements fail, [import_csv_data] returns a dict, and when
    it returns nothing is pending on the connection: what the connection
    sees is what is committed. The dict is the success dict with both ids
    and no [error], or the failure dict with an [error], no ids, a count
    of 0 and no logged errors. *)
Theorem X8_call_always_ends_the_transaction :
  forall read_csv path name number display_name c,
    let run := import_csv_data read_csv path name number display_name c in
    working (snd run) = committed (snd run) /\
    exists r,
      fst run = Ok r /\
      (success r = true /\ error r = None /\
       res_bank_id r <> None /\ res_account_id r <> None \/
       success r = false /\ error r <> None /\
       res_bank_id r = None /\ res_account_id r = None /\
       transactions_imported r = 0%nat /\ errors r = []).
Proof. exact import_csv_data_ends_clean. Qed.

(** ** The labels of the rows *)

Lemma int_labelled_taggable df : int_labelled df = true -> taggable df = true.
Proof.
  induction df as [| [i row] rest IH]; [reflexivity |].
  simpl. destruct i as [z | l]; [| discriminate].
  intros H. rewrite (IH H). destruct (normalize_row row); reflexivity.
Qed.

(** Without injected failures, a source with a failing row under a [str]
    label makes the call fail with the handler's [TypeError]. *)
Lemma import_csv_data_untaggable
    read_csv path name number display_name df c :
  faults c = [] ->
  read_csv path = Ok df ->
  taggable df = false ->
  exists c',
    import_csv_data read_csv path name number display_name c =
      (Ok (mkResult false (Some (exn_str str_plus_int)) 0 [] None None), c').
Proof.
  intros Hq Hread Htag.
  unfold import_csv_data, try_except.
  rewrite run_bind. unfold lift. rewrite Hread. unfold Ok. cbv beta iota.
  destruct (get_or_create_bank_quiet name c Hq)
    as (b & c0 & Hb & Hq0 & Hfb & _).
  rewrite run_bind, Hb. unfold Ok. cbv beta iota.
  assert (Hexb : existsb (fun b' => bank_id b' =? bank_id b)
                   (banks (working c0)) = true)
    by (eapply find_some_existsb; [exact Hfb | apply Z.eqb_refl]).
  destruct (get_or_create_account_quiet (bank_id b) number display_name
              "checking" c0 Hq0 Hexb)
    as (a & c1 & Ha & Hq1 & Hfa & _).
  rewrite run_bind, Ha. unfold Ok. cbv beta iota.
  assert (Hexa : existsb (fun a' => account_id a' =? account_id a)
                   (accounts (working c1)) = true)
    by (eapply find_some_existsb; [exact Hfa | apply Z.eqb_refl]).
  destruct (process_rows_untaggable (account_id a) df 0 [] c1 Hq1 Hexa Htag)
    as (c2 & Hp).
  rewrite run_bind, Hp. unfold Raise. cbv beta iota.
  eexists. reflexivity.
Qed.

(** X19. On a frame whose labels are all [int], as the default index
    gives them, the loop never raises, whatever happens inside a row. On
    such a source and a store that answers every statement, the call
    returns [success: True]; [transactions_imported] is the number of rows
    that were normalized, each inserted as one transaction; [errors] has
    exactly one entry per row that raised, in source order, and the entry
    of the row with label [z] reads [Row z+7: str(e)]. *)
Theorem X19_row_failures_do_not_abort :
  forall read_csv path name number display_name df c,
    faults c = [] ->
    read_csv path = Ok df ->
    int_labelled df = true ->
    (forall aid imported errs c0,
        exists st c1, process_rows aid df imported errs c0 = (Ok st, c1)) /\
    exists r c',
      import_csv_data read_csv path name number display_name c = (Ok r, c') /\
      success r = true /\
      transactions_imported r = length (filter normalized (map snd df)) /\
      length (transactions (committed c')) =
        (length (transactions (working c)) + transactions_imported r)%nat /\
      errors r = row_errors df /\
      length (errors r) = length (filter failed (map snd df)) /\
      (forall z row e,
          In (IntLabel z, row) df ->
          normalize_row row = Raise e ->
          In ("Row " ++ str_of_int (z + 7) ++ ": " ++ exn_str e) (errors r)).
Proof.
  intros read_csv path name number display_name df c Hq Hread Hint.
  pose proof (int_labelled_taggable df Hint) as Htag.
  split; [intros; apply process_rows_returns; exact Hint |].
  destruct (import_csv_data_quiet read_csv path name number display_name
              df c Hq Hread Htag)
    as (b & a & accs & new & t & c' & Hrun & _ & _ & _ & _ & _ & _ & Htx
        & Hnew & _).
  eexists; exists c'. split; [exact Hrun |]. simpl.
  split; [reflexivity |].
  split; [apply records_of_length |].
  split.
  { rewrite Htx, length_app. f_equal.
    symmetry. eapply Forall2_length. exact Hnew. }
  split; [reflexivity |].
  split; [apply row_errors_length; exact Htag |].
  intros z row e Hin Hrow.
  apply (row_errors_in df z row e Hin Hrow).
Qed.

Lemma X19_row_failures_witness :
  faults fresh_conn = [] /\
  Examples.read_csv "malformed.csv" = Ok Examples.malformed /\
  int_labelled Examples.malformed = true /\
  (forall aid imported errs c0,
      exists st c1,
        process_rows aid Examples.malformed imported errs c0 = (Ok st, c1)) /\
  exists r c',
    import_csv_data Examples.read_csv "malformed.csv" "Test Bank"
      "1234567890" (Some "Test Account") fresh_conn = (Ok r, c') /\
    success r = true /\
    transactions_imported r =
      length (filter normalized (map snd Examples.malformed)) /\
    length (transactions (committed c')) =
      (length (transactions (working fresh_conn)) +
       transactions_imported r)%nat /\
    errors r = row_errors Examples.malformed /\
    length (errors r) = length (filter failed (map snd Examples.malformed)) /\
    (forall z row e,
        In (IntLabel z, row) Examples.malformed ->
        normalize_row row = Raise e ->
        In ("Row " ++ str_of_int (z + 7) ++ ": " ++ exn_str e) (errors r)).
Proof.
  split; [reflexivity |]. split; [reflexivity |]. split; [reflexivity |].
  apply (X19_row_failures_do_not_abort Examples.read_csv "malformed.csv"
           "Test Bank" "1234567890" (Some "Test Account") Examples.malformed
           fresh_conn); reflexivity.
Defined.

(** X20. On a source that was read: (1) when the store answers every
    statement, no failing row carries a [str] label and no row reaches the
    INSERT (each is skipped or raises), the call returns [success: True]
    with [transactions_imported: 0] and both ids, and the resolved account
    is in the committed accounts; (2) whenever a call returns
    [success: True] with [transactions_imported: 0], whatever failed
    inside its rows, the committed accounts are the accounts from before
    the call, unchanged in every field, with at most the account row the
    call created appended (no balance, [updated_at] equal to
    [created_at]): the balance recompute did not run. *)
Theorem X20_no_insert_leaves_balance_alone :
  forall read_csv path name number display_name df c,
    read_csv path = Ok df ->
    (faults c = [] ->
     taggable df = true ->
     records_of df = [] ->
     exists b a c',
       import_csv_data read_csv path name number display_name c =
         (Ok (mkResult true None 0 (row_errors df) (Some (bank_id b))
                (Some (account_id a))), c') /\
       find (account_keyed (bank_id b) number) (accounts (committed c'))
         = Some a /\
       (In a (accounts (working c)) \/
        current_balance a = None /\ acc_updated_at a = acc_created_at a)) /\
    (forall r c',
        import_csv_data read_csv path name number display_name c = (Ok r, c') ->
        success r = true ->
        transactions_imported r = 0%nat ->
        exists bid aid,
          res_bank_id r = Some bid /\
          res_account_id r = Some aid /\
          (accounts (committed c') = accounts (working c) \/
           exists a,
             accounts (committed c') = (accounts (working c) ++ [a])%list /\
             account_id a = aid /\
             account_number a = number /\
             current_balance a = None /\
             acc_updated_at a = acc_created_at a)).
Proof.
  intros read_csv path name number display_name df c Hread. split.
  - intros Hq Htag Hnone.
    destruct (import_csv_data_quiet read_csv path name number display_name
                df c Hq Hread Htag)
      as (b & a & accs & new & t & c' & Hrun & _ & _ & _ & _ & Hfa & Hcase
          & _ & _ & Haccs).
    rewrite Hnone in Hrun, Haccs. simpl in Hrun, Haccs.
    exists b, a, c'. split; [exact Hrun |].
    rewrite Haccs. split; [exact Hfa |].
    destruct Hcase as [(Hf & _) | (_ & _ & Hcb & Hup)].
    + left. apply find_some in Hf. apply Hf.
    + right. split; assumption.
  - intros r c' Hrun Hs Hzero.
    eapply import_without_rows_keeps_accounts; eassumption.
Qed.

Lemma X20_no_insert_witness :
  Examples.read_csv "summary_only.csv" = Ok Examples.summary_only /\
  faults Examples.ledger = [] /\
  taggable Examples.summary_only = true /\
  records_of Examples.summary_only = [] /\
  exists b a c',
    import_csv_data Examples.read_csv "summary_only.csv" "Test Bank"
      "1234567890" (Some "Test Account") Examples.ledger =
      (Ok (mkResult true None 0 (row_errors Examples.summary_only)
             (Some (bank_id b)) (Some (account_id a))), c') /\
    find (account_keyed (bank_id b) "1234567890") (accounts (committed c'))
      = Some a /\
    (In a (accounts (working Examples.ledger)) \/
     current_balance a = None /\ acc_updated_at a = acc_created_at a).
Proof.
  split; [reflexivity |]. split; [reflexivity |]. split; [reflexivity |].
  split; [reflexivity |].
  apply (proj1 (X20_no_insert_leaves_balance_alone Examples.read_csv
                  "summary_only.csv" "Test Bank" "1234567890"
                  (Some "Test Account") Examples.summary_only
                  Examples.ledger eq_refl));
    reflexivity.
Defined.

(** X21. When the store answers every statement and the source is read,
    the call succeeds exactly when no failing row carries a [str] label.
    When one does, the call returns the failure dict with the
    [TypeError] of [i+7] as its error, nothing is left pending and no
    transaction of the call is committed, the rows that were valid
    included. *)
Theorem X21_import_succeeds_iff_rows_can_be_tagged :
  forall read_csv path name number display_name df c,
    faults c = [] ->
    working c = committed c ->
    read_csv path = Ok df ->
    exists r c',
      import_csv_data read_csv path name number display_name c = (Ok r, c') /\
      success r = taggable df /\
      (taggable df = false ->
       r = mkResult false
             (Some ("can only concatenate str (not " ++ String dquote "int" ++
                    String dquote ") to str")) 0 [] None None /\
       working c' = committed c' /\
       transactions (committed c') = transactions (committed c)).
Proof.
  intros read_csv path name number display_name df c Hq Hclean Hread.
  destruct (taggable df) eqn:Htag.
  - destruct (import_csv_data_quiet read_csv path name number display_name
                df c Hq Hread Htag)
      as (b & a & accs & new & t & c' & Hrun & _).
    eexists; exists c'. split; [exact Hrun |].
    split; [reflexivity | discriminate].
  - destruct (import_csv_data_untaggable read_csv path name number
                display_name df c Hq Hread Htag) as (c' & Hrun).
    eexists; exists c'. split; [exact Hrun |].
    split; [reflexivity |]. intros _.
    split; [reflexivity |].
    pose proof (import_csv_data_ends_clean read_csv path name number
                  display_name c) as [Hend _].
    rewrite Hrun in Hend. simpl in Hend.
    split; [exact Hend |].
    eapply import_failure_keeps_transactions;
      [exact Hclean | exact Hrun | reflexivity].
Qed.

Lemma X21_import_succeeds_witness :
  faults fresh_conn = [] /\
  working fresh_conn = committed fresh_conn /\
  Examples.read_csv "referenced.csv" = Ok Examples.referenced /\
  taggable Examples.referenced = false /\
  exists r c',
    import_csv_data Examples.read_csv "referenced.csv" "Test Bank"
      "1234567890" (Some "Test Account") fresh_conn = (Ok r, c') /\
    success r = taggable Examples.referenced /\
    (taggable Examples.referenced = false ->
     r = mkResult false
           (Some ("can only concatenate str (not " ++ String dquote "int" ++
                  String dquote ") to str")) 0 [] None None /\
     working c' = committed c' /\
     transactions (committed c') = transactions (committed fresh_conn)).
Proof.
  split; [reflexivity |]. split; [reflexivity |]. split; [reflexivity |].
  split; [reflexivity |].
  exact (X21_import_succeeds_iff_rows_can_be_tagged Examples.read_csv
           "referenced.csv" "Test Bank" "1234567890" (Some "Test Account")
           Examples.referenced fresh_conn eq_refl eq_refl eq_refl).
Defined.

(** ** The balance the call leaves *)

Lemma first_row_some rows :
  forall best, exists r, first_row (Some best) rows = Some r.
Proof.
  induction rows as [| t rows IH]; intros best; simpl.
  - exists best. reflexivity.
  - apply IH.
Qed.

Lemma latest_transaction_exists aid s x :
  In x (transactions s) -> txn_account_id x = aid ->
  exists r, latest_transaction aid s = Some r.
Proof.
  intros Hin Hx. unfold latest_transaction.
  assert (Hf : In x (filter (fun t => txn_account_id t =? aid)
                       (transactions s)))
    by (apply filter_In; split; [exact Hin | apply Z.eqb_eq; exact Hx]).
  destruct (filter _ (transactions s)) as [| t rows]; [contradiction |].
  simpl. apply first_row_some.
Qed.

Lemma in_map_set_balance_other aid b t a l :
  In a l -> account_id a <> aid -> In a (map (set_balance aid b t) l).
Proof.
  intros Hin Hne. apply in_map_iff. exists a. split; [| exact Hin].
  unfold set_balance. apply Z.eqb_neq in Hne. rewrite Hne. reflexivity.
Qed.

Lemma in_map_set_balance_same aid b t a l :
  In a (map (set_balance aid b t) l) -> account_id a = aid ->
  current_balance a = sqlite_real b /\ acc_updated_at a = t.
Proof.
  intros Hin Hid. apply in_map_iff in Hin. destruct Hin as (a0 & <- & _).
  rewrite set_balance_keeps_id in Hid. unfold set_balance.
  apply Z.eqb_eq in Hid. rewrite Hid. simpl. split; reflexivity.
Qed.

(** X9. The balance follows the latest row. When no statement fails, no
    failing row carries a [str] label and the source yields at least one
    transaction, the call succeeds, the
    account has a latest row under (date descending, id descending), and:
    if that row's stored balance is a non-zero number, every account row
    with the returned id carries it as [current_balance], stamped with one
    time; if it is NULL or zero, no account row that was there is changed.
    In both cases the rows of all other accounts stay as they were. *)
Theorem X9_balance_follows_latest_row :
  forall read_csv path name number display_name df c,
    faults c = [] ->
    read_csv path = Ok df ->
    taggable df = true ->
    records_of df <> [] ->
    exists r c' aid latest,
      import_csv_data read_csv path name number display_name c = (Ok r, c') /\
      success r = true /\
      res_account_id r = Some aid /\
      latest_transaction aid (committed c') = Some latest /\
      (forall x,
          In x (transactions (committed c')) -> txn_account_id x = aid ->
          sorts_before x latest = false) /\
      (forall b,
          balance_after latest = Some b -> PyFloat.truthy b = true ->
          exists t,
            forall a,
              In a (accounts (committed c')) -> account_id a = aid ->
              current_balance a = sqlite_real b /\ acc_updated_at a = t) /\
      (balance_after latest = None \/
       (exists b,
           balance_after latest = Some b /\ PyFloat.truthy b = false) ->
       forall a, In a (accounts (working c)) ->
                 In a (accounts (committed c'))) /\
      (forall a,
          In a (accounts (working c)) -> account_id a <> aid ->
          In a (accounts (committed c'))).
Proof.
  intros read_csv path name number display_name df c Hq Hread Htag Hrec.
  destruct (import_csv_data_quiet read_csv path name number display_name df c
              Hq Hread Htag)
    as (b & a & accs & new & t & c' & Hrun & _ & _ & _ & _ & Hfa & Hcase &
        Htx & Hst & Hacc).
  assert (Hpos : (0 <? length (records_of df))%nat = true).
  { apply Nat.ltb_lt. destruct (records_of df); [congruence | simpl; lia]. }
  rewrite Hpos in Hacc.
  assert (Hnew : exists x, In x new /\ txn_account_id x = account_id a).
  { destruct Hst as [| r0 x rs xs Hx _]; [congruence |].
    exists x. split; [left; reflexivity | apply Hx]. }
  destruct Hnew as (x & Hxin & Hxid).
  assert (Hxc : In x (transactions (committed c')))
    by (rewrite Htx; apply in_or_app; right; exact Hxin).
  destruct (latest_transaction_exists _ _ x Hxc Hxid) as (latest & Hlatest).
  assert (Hsub : forall a0, In a0 (accounts (working c)) -> In a0 accs).
  { intros a0 H0.
    destruct Hcase as [[_ ->] | (_ & -> & _)];
      [exact H0 | apply in_or_app; left; exact H0]. }
  exists (mkResult true None (length (records_of df)) (row_errors df)
            (Some (bank_id b)) (Some (account_id a))), c', (account_id a),
    latest.
  split; [exact Hrun |]. split; [reflexivity |]. split; [reflexivity |].
  split; [exact Hlatest |].
  split; [apply (latest_transaction_is_first _ _ _ Hlatest) |].
  unfold recomputed in Hacc. unfold latest_transaction in Hlatest.
  rewrite Hlatest in Hacc.
  split; [| split].
  - intros b0 Hb0 Htruthy. rewrite Hb0, Htruthy in Hacc.
    exists t. intros a0 Hin Hid. rewrite Hacc in Hin.
    exact (in_map_set_balance_same _ _ _ _ _ Hin Hid).
  - intros [Hnone | (b0 & Hb0 & Hfalsy)] a0 Hin.
    + rewrite Hnone in Hacc. rewrite Hacc. apply Hsub. exact Hin.
    + rewrite Hb0, Hfalsy in Hacc. rewrite Hacc. apply Hsub. exact Hin.
  - intros a0 Hin Hne. rewrite Hacc.
    destruct (balance_after latest) as [b0 |]; [| apply Hsub; exact Hin].
    destruct (PyFloat.truthy b0); [| apply Hsub; exact Hin].
    apply in_map_set_balance_other; [apply Hsub; exact Hin | exact Hne].
Qed.

Lemma X9_balance_witness :
  faults fresh_conn = [] /\
  Examples.read_csv "sample.csv" = Ok Examples.sample /\
  taggable Examples.sample = true /\
  records_of Examples.sample <> [] /\
  exists r c' aid latest,
    import_csv_data Examples.read_csv "sample.csv" "Test Bank" "1234567890"
      (Some "Test Account") fresh_conn = (Ok r, c') /\
    success r = true /\
    res_account_id r = Some aid /\
    latest_transaction aid (committed c') = Some latest /\
    (forall x,
        In x (transactions (committed c')) -> txn_account_id x = aid ->
        sorts_before x latest = false) /\
    (forall b,
        balance_after latest = Some b -> PyFloat.truthy b = true ->
        exists t,
          forall a,
            In a (accounts (committed c')) -> account_id a = aid ->
            current_balance a = sqlite_real b /\ acc_updated_at a = t) /\
    (balance_after latest = None \/
     (exists b,
         balance_after latest = Some b /\ PyFloat.truthy b = false) ->
     forall a, In a (accounts (working fresh_conn)) ->
               In a (accounts (committed c'))) /\
    (forall a,
        In a (accounts (working fresh_conn)) -> account_id a <> aid ->
        In a (accounts (committed c'))).
Proof.
  split; [reflexivity |]. split; [reflexivity |]. split; [reflexivity |].
  assert (Hrec : records_of Examples.sample <> [])
    by (vm_compute; discriminate).
  split; [exact Hrec |].
  exact (X9_balance_follows_latest_row Examples.read_csv "sample.csv"
           "Test Bank" "1234567890" (Some "Test Account") Examples.sample
           fresh_conn eq_refl eq_refl eq_refl Hrec).
Defined.

(** * The queries *)

(** ** Ordering *)

Lemma not_before_trans {X : Type} (key : X -> string) x y z :
  not_before key x y -> not_before key y z -> not_before key x z.
Proof.
  unfold not_before. intros Hxy Hyz.
  destruct (String.compare (key x) (key y)) eqn:Exy; [| congruence |].
  - apply String.compare_eq_iff in Exy. rewrite Exy. exact Hyz.
  - destruct (String.compare (key y) (key z)) eqn:Eyz; [| congruence |].
    + apply String.compare_eq_iff in Eyz. rewrite <- Eyz, Exy. discriminate.
    + rewrite (string_compare_gt_trans _ _ _ Exy Eyz). discriminate.
Qed.

Lemma insert_desc_perm {X : Type} (key : X -> string) x l :
  Permutation (x :: l) (insert_desc key x l).
Proof.
  induction l as [| y rest IH]; simpl; [apply Permutation_refl |].
  destruct (String.compare (key x) (key y)); try apply Permutation_refl.
  eapply perm_trans; [apply perm_swap |].
  apply perm_skip. exact IH.
Qed.

Lemma insert_desc_sorted {X : Type} (key : X -> string) x l :
  StronglySorted (not_before key) l ->
  StronglySorted (not_before key) (insert_desc key x l).
Proof.
  induction l as [| y rest IH]; simpl; intros Hs.
  - constructor; constructor.
  - apply StronglySorted_inv in Hs. destruct Hs as [Hrest Hy].
    assert (Hfront :
              String.compare (key x) (key y) <> Lt ->
              StronglySorted (not_before key) (x :: y :: rest)).
    { intros Hxy. constructor; [constructor; assumption |].
      constructor; [exact Hxy |].
      eapply Forall_impl; [| exact Hy].
      intros z Hz. eapply not_before_trans; [exact Hxy | exact Hz]. }
    destruct (String.compare (key x) (key y)) eqn:Exy;
      try (apply Hfront; discriminate).
    constructor; [apply IH; exact Hrest |].
    eapply Permutation_Forall; [apply insert_desc_perm |].
    constructor; [| exact Hy].
    unfold not_before. rewrite String.compare_antisym, Exy. discriminate.
Qed.

(** The scan-order engine does what ORDER BY asks. *)
Lemma scan_order_orders : orders_by_date_desc scan_order.
Proof.
  intros X key l. unfold scan_order.
  induction l as [| x l [IHp IHs]]; simpl.
  - split; constructor.
  - split.
    + eapply perm_trans; [apply perm_skip; exact IHp |].
      apply insert_desc_perm.
    + apply insert_desc_sorted. exact IHs.
Qed.

Lemma StronglySorted_map {X Y : Type} (f : X -> Y) (R : Y -> Y -> Prop) l :
  StronglySorted (fun x y => R (f x) (f y)) l ->
  StronglySorted R (map f l).
Proof.
  induction 1 as [| x l Hs IH Hx]; simpl; constructor; [exact IH |].
  apply Forall_map. exact Hx.
Qed.

(** ** The joins *)

Lemma filter_id_none {A : Type} (id : A -> Z) k l :
  ~ In k (map id l) -> filter (fun x => id x =? k) l = [].
Proof.
  induction l as [| a l IH]; simpl; intros Hnin; [reflexivity |].
  destruct (id a =? k) eqn:E.
  - apply Z.eqb_eq in E. exfalso. apply Hnin. left. exact E.
  - apply IH. intros H. apply Hnin. right. exact H.
Qed.

(** On a key, a selection by id is a lookup. *)
Lemma filter_id_find {A : Type} (id : A -> Z) k l :
  NoDup (map id l) ->
  filter (fun x => id x =? k) l =
    match find (fun x => id x =? k) l with
    | Some a => [a]
    | None => []
    end.
Proof.
  induction l as [| a l IH]; simpl; intros Hnd; [reflexivity |].
  inversion Hnd as [| ? ? Hnin Hnd']; subst.
  destruct (id a =? k) eqn:E.
  - apply Z.eqb_eq in E. subst k.
    rewrite (filter_id_none id (id a) l Hnin). reflexivity.
  - apply IH. exact Hnd'.
Qed.

Lemma flat_map_flat_map {A B C : Type} (f : A -> list B) (g : B -> list C) l :
  flat_map g (flat_map f l) = flat_map (fun a => flat_map g (f a)) l.
Proof.
  induction l as [| a l IH]; simpl; [reflexivity |].
  rewrite flat_map_app, IH. reflexivity.
Qed.

Lemma map_flat_map {A B C : Type} (f : A -> list B) (g : B -> C) l :
  map g (flat_map f l) = flat_map (fun a => map g (f a)) l.
Proof.
  induction l as [| a l IH]; simpl; [reflexivity |].
  rewrite map_app, IH. reflexivity.
Qed.

Lemma join_accounts_lookup s :
  NoDup (map account_id (accounts s)) ->
  join_accounts s =
    flat_map (fun t => match account_of s t with
                       | Some a => [(t, a)]
                       | None => []
                       end) (transactions s).
Proof.
  intros Hnd. unfold join_accounts, account_of.
  apply flat_map_ext. intros t.
  rewrite (filter_id_find account_id (txn_account_id t) _ Hnd).
  destruct (find _ (accounts s)); reflexivity.
Qed.

(** With ids that are keys, the three-table join is the listing: each
    transaction once, beside its account and its bank. *)
Lemma join_is_listing s :
  ids_unique s ->
  map transaction_view (join_banks s (join_accounts s)) = listing s.
Proof.
  intros (Hb & Ha & _).
  rewrite (join_accounts_lookup s Ha). unfold join_banks, listing.
  rewrite flat_map_flat_map, map_flat_map.
  apply flat_map_ext. intros t.
  destruct (account_of s t) as [a |]; simpl; [| reflexivity].
  rewrite app_nil_r. unfold bank_of.
  rewrite (filter_id_find bank_id (acc_bank_id a) _ Hb).
  destruct (find _ (banks s)); reflexivity.
Qed.

Lemma join_is_history s keep :
  ids_unique s ->
  map balance_view (filter (fun r => keep (fst r)) (join_accounts s)) =
    history s keep.
Proof.
  intros (_ & Ha & _).
  rewrite (join_accounts_lookup s Ha). unfold history.
  induction (transactions s) as [| t l IH]; simpl; [reflexivity |].
  rewrite filter_app, map_app, IH.
  destruct (keep t) eqn:Ek; simpl.
  - destruct (account_of s t) as [a |]; simpl; [rewrite Ek |]; reflexivity.
  - destruct (account_of s t) as [a |]; simpl; [rewrite Ek |]; reflexivity.
Qed.

Lemma existsb_find_id {A : Type} (id : A -> Z) k l :
  existsb (fun x => id x =? k) l = true ->
  exists a, find (fun x => id x =? k) l = Some a /\ In a l /\ id a = k.
Proof.
  induction l as [| a l IH]; simpl; [discriminate |].
  destruct (id a =? k) eqn:E; simpl.
  - intros _. exists a. apply Z.eqb_eq in E. auto.
  - intros H. destruct (IH H) as (x & Hf & Hin & Hid). exists x. auto.
Qed.

(** With references that resolve, the listing loses no transaction. *)
Lemma listing_resolves s t :
  references_resolve s -> In t (transactions s) ->
  exists a b,
    account_of s t = Some a /\ bank_of s a = Some b /\
    In a (accounts s) /\ In b (banks s) /\
    account_id a = txn_account_id t /\ bank_id b = acc_bank_id a.
Proof.
  intros [Hacc Htxn] Hin.
  destruct (existsb_find_id account_id _ _ (Htxn t Hin))
    as (a & Hfa & Hina & Hida).
  destruct (existsb_find_id bank_id _ _ (Hacc a Hina))
    as (b & Hfb & Hinb & Hidb).
  exists a, b. unfold account_of, bank_of. auto 7.
Qed.

Lemma listing_length s :
  references_resolve s -> length (listing s) = length (transactions s).
Proof.
  intros Href. unfold listing.
  assert (H : forall t, In t (transactions s) -> In t (transactions s))
    by auto.
  revert H. generalize (transactions s) at 1 3 4 as l.
  induction l as [| t l IH]; intros H; simpl; [reflexivity |].
  destruct (listing_resolves s t Href (H t (or_introl eq_refl)))
    as (a & b & -> & -> & _).
  simpl. f_equal. apply IH. intros x Hx. apply H. right. exact Hx.
Qed.

Lemma history_length s keep :
  references_resolve s ->
  length (history s keep) = length (filter keep (transactions s)).
Proof.
  intros Href. unfold history.
  assert (H : forall t, In t (filter keep (transactions s)) ->
                        In t (transactions s))
    by (intros t Ht; apply filter_In in Ht; tauto).
  revert H. generalize (filter keep (transactions s)) as l.
  induction l as [| t l IH]; intros H; simpl; [reflexivity |].
  destruct (listing_resolves s t Href (H t (or_introl eq_refl)))
    as (a & b & -> & _).
  simpl. f_equal. apply IH. intros x Hx. apply H. right. exact Hx.
Qed.

Lemma find_id_unique {A : Type} (id : A -> Z) l a :
  NoDup (map id l) -> In a l -> find (fun x => id x =? id a) l = Some a.
Proof.
  induction l as [| x l IH]; simpl; intros Hnd Hin; [contradiction |].
  inversion Hnd as [| ? ? Hnin Hnd']; subst.
  destruct Hin as [-> | Hin].
  - rewrite Z.eqb_refl. reflexivity.
  - destruct (id x =? id a) eqn:E.
    + apply Z.eqb_eq in E. exfalso. apply Hnin. rewrite E.
      apply in_map. exact Hin.
    + apply IH; assumption.
Qed.

Lemma select_history_exact order_by keep c :
  orders_by_date_desc order_by ->
  faults c = [] ->
  integrity (working c) ->
  exists rows c',
    select_history order_by keep c = (Ok rows, c') /\
    working c' = working c /\ committed c' = committed c /\
    Permutation (history (working c) keep) rows /\
    length rows = length (filter keep (transactions (working c))) /\
    StronglySorted (not_before hist_transaction_date) rows.
Proof.
  intros Hord Hq [Hids Href].
  unfold select_history, bind, execute, get_working, ret. rewrite Hq.
  eexists. eexists. split; [reflexivity |]. simpl.
  split; [reflexivity |]. split; [reflexivity |].
  match goal with
  | |- context [order_by ?X ?key ?l] =>
      destruct (Hord X key l) as [Hperm Hsorted];
      set (ordered := order_by X key l) in *
  end.
  assert (Hp : Permutation (history (working c) keep)
                 (map balance_view ordered)).
  { rewrite <- (join_is_history _ keep Hids).
    apply Permutation_map. exact Hperm. }
  split; [exact Hp |]. split.
  - rewrite <- (Permutation_length Hp). apply history_length. exact Href.
  - apply StronglySorted_map.
    eapply StronglySorted_ind with (l := ordered);
      [constructor | | exact Hsorted].
    intros [t a] l Hs IH Hall. constructor; [exact IH |].
    eapply Forall_impl; [| exact Hall]. intros [t' a'] H. exact H.
Qed.

Lemma get_all_transactions_exact :
  forall order_by c,
    orders_by_date_desc order_by ->
    faults c = [] ->
    integrity (working c) ->
    exists rows c',
      get_all_transactions order_by c = (Ok rows, c') /\
      working c' = working c /\ committed c' = committed c /\
      Permutation (listing (working c)) rows /\
      length rows = length (transactions (working c)) /\
      StronglySorted (not_before view_transaction_date) rows.
Proof.
  intros order_by c Hord Hq [Hids Href].
  unfold get_all_transactions, bind, execute, get_working, ret. rewrite Hq.
  eexists. eexists. split; [reflexivity |]. simpl.
  split; [reflexivity |]. split; [reflexivity |].
  match goal with
  | |- context [order_by ?X ?key ?l] =>
      destruct (Hord X key l) as [Hperm Hsorted];
      set (ordered := order_by X key l) in *
  end.
  assert (Hp : Permutation (listing (working c))
                 (map transaction_view ordered)).
  { rewrite <- (join_is_listing _ Hids). apply Permutation_map. exact Hperm. }
  split; [exact Hp |]. split.
  - rewrite <- (Permutation_length Hp). apply listing_length. exact Href.
  - apply StronglySorted_map.
    eapply StronglySorted_ind with (l := ordered);
      [constructor | | exact Hsorted].
    intros [[t a] b] l Hs IH Hall. constructor; [exact IH |].
    eapply Forall_impl; [| exact Hall]. intros [[t' a'] b'] H. exact H.
Qed.

(** X10. The listing is exact and ordered. On a store whose ids are keys
    and whose references resolve, when the statement does not fail,
    [get_all_transactions] returns every transaction exactly once, each
    with the name of its bank and of its account, ordered so that no date
    comes after an earlier one, whatever the engine does with equal dates;
    it changes nothing in the store. *)
Theorem X10_listing_is_exact_and_ordered :
  forall order_by c,
    orders_by_date_desc order_by ->
    faults c = [] ->
    integrity (working c) ->
    exists rows c',
      get_all_transactions order_by c = (Ok rows, c') /\
      working c' = working c /\ committed c' = committed c /\
      Permutation (listing (working c)) rows /\
      length rows = length (transactions (working c)) /\
      StronglySorted (not_before view_transaction_date) rows.
Proof. exact get_all_transactions_exact. Qed.

Lemma ledger_integrity : integrity (working Examples.ledger).
Proof.
  split; [split; [| split] | split].
  - repeat constructor; simpl; intuition discriminate.
  - repeat constructor; simpl; intuition discriminate.
  - repeat constructor; simpl; intuition discriminate.
  - intros a Hin. simpl in Hin.
    repeat (destruct Hin as [<- | Hin]; [reflexivity |]). contradiction.
  - intros t Hin. simpl in Hin.
    repeat (destruct Hin as [<- | Hin]; [reflexivity |]). contradiction.
Qed.

Lemma X10_listing_witness :
  orders_by_date_desc scan_order /\
  faults Examples.ledger = [] /\
  integrity (working Examples.ledger) /\
  exists rows c',
    get_all_transactions scan_order Examples.ledger = (Ok rows, c') /\
    working c' = working Examples.ledger /\
    committed c' = committed Examples.ledger /\
    Permutation (listing (working Examples.ledger)) rows /\
    length rows = length (transactions (working Examples.ledger)) /\
    StronglySorted (not_before view_transaction_date) rows.
Proof.
  split; [exact scan_order_orders |].
  split; [reflexivity |]. split; [exact ledger_integrity |].
  exact (X10_listing_is_exact_and_ordered scan_order Examples.ledger
           scan_order_orders eq_refl ledger_integrity).
Defined.

(** X12. The balance history of one account. On a store whose ids are keys
    and whose references resolve, when the statement does not fail:
    for an id other than 0, [get_account_balance_history] returns exactly
    the transactions of that account, each once and under the name of that
    account, no date after an earlier one; for the id 0, as for no id at
    all, it returns the transactions of every account. *)
Theorem X12_balance_history_selects_the_account :
  forall order_by c,
    orders_by_date_desc order_by ->
    faults c = [] ->
    integrity (working c) ->
    (forall aid,
        aid <> 0 ->
        exists rows c',
          get_account_balance_history order_by (Some aid) c = (Ok rows, c') /\
          working c' = working c /\ committed c' = committed c /\
          Permutation
            (history (working c) (fun t => txn_account_id t =? aid)) rows /\
          length rows =
            length (filter (fun t => txn_account_id t =? aid)
                      (transactions (working c))) /\
          StronglySorted (not_before hist_transaction_date) rows /\
          (forall v, In v rows ->
                     exists a, In a (accounts (working c)) /\
                               account_id a = aid /\
                               hist_account_name v = account_name a)) /\
    get_account_balance_history order_by (Some 0) c =
      get_account_balance_history order_by None c /\
    exists rows c',
      get_account_balance_history order_by None c = (Ok rows, c') /\
      Permutation (history (working c) (fun _ => true)) rows /\
      length rows = length (transactions (working c)).
Proof.
  intros order_by c Hord Hq Hint. split; [| split].
  - intros aid Hne. unfold get_account_balance_history.
    apply Z.eqb_neq in Hne. rewrite Hne. simpl.
    destruct (select_history_exact order_by
                (fun t => txn_account_id t =? aid) c Hord Hq Hint)
      as (rows & c' & Hrun & Hw & Hc & Hp & Hlen & Hs).
    exists rows, c'. repeat (split; [assumption |]).
    intros v Hv. apply (Permutation_in _ (Permutation_sym Hp)) in Hv.
    unfold history in Hv. apply in_flat_map in Hv.
    destruct Hv as (t & Ht & Hv). apply filter_In in Ht.
    destruct Ht as [Ht Haid]. apply Z.eqb_eq in Haid.
    destruct (account_of (working c) t) as [a |] eqn:Ea; [| contradiction].
    destruct Hv as [<- | []].
    unfold account_of in Ea. apply find_some in Ea. destruct Ea as [Hin Hid].
    apply Z.eqb_eq in Hid. exists a. simpl. split; [exact Hin |].
    split; [congruence | reflexivity].
  - reflexivity.
  - unfold get_account_balance_history.
    destruct (select_history_exact order_by (fun _ => true) c Hord Hq Hint)
      as (rows & c' & Hrun & _ & _ & Hp & Hlen & _).
    exists rows, c'. split; [exact Hrun |]. split; [exact Hp |].
    rewrite Hlen. f_equal. clear. induction (transactions (working c));
      simpl; congruence.
Qed.

Lemma X12_balance_history_witness :
  orders_by_date_desc scan_order /\
  faults Examples.ledger = [] /\
  integrity (working Examples.ledger) /\
  1 <> 0 /\
  exists rows c',
    get_account_balance_history scan_order (Some 1) Examples.ledger =
      (Ok rows, c') /\
    length rows = 4%nat.
Proof.
  split; [exact scan_order_orders |].
  split; [reflexivity |]. split; [exact ledger_integrity |].
  assert (Hne : 1 <> 0) by discriminate.
  split; [exact Hne |].
  destruct (proj1 (X12_balance_history_selects_the_account scan_order
                     Examples.ledger scan_order_orders eq_refl
                     ledger_integrity) 1 Hne)
    as (rows & c' & Hrun & _ & _ & _ & Hlen & _).
  exists rows, c'. split; [exact Hrun |]. rewrite Hlen. reflexivity.
Defined.

(** ** Importing, then listing *)

Lemma Forall2_in_left {A B : Type} (R : A -> B -> Prop) l l' x :
  Forall2 R l l' -> In x l -> exists y, In y l' /\ R x y.
Proof.
  induction 1 as [| a b l l' Hab _ IH]; simpl; intros Hin; [contradiction |].
  destruct Hin as [<- | Hin].
  - exists b. auto.
  - destruct (IH Hin) as (y & Hy & Hr). exists y. auto.
Qed.

Lemma import_csv_data_keeps_integrity read_csv path name number display_name :
  keeps_invariant integrity
    (import_csv_data read_csv path name number display_name).
Proof.
  apply (import_csv_data_keeps integrity
           get_or_create_bank_keeps_integrity
           get_or_create_account_keeps_integrity
           row_body_keeps_integrity
           update_account_balance_keeps_integrity).
Qed.

(** X11. What is imported is what is listed. On a store whose ids are keys
    and whose references resolve, when no statement fails, the source is
    read and none of its failing rows carries a [str] label, the import
    succeeds and a [get_all_transactions] that follows
    returns as many rows as there were transactions before plus the count
    the import reported, and among them, for every record of the source
    that reached the INSERT, a row under the bank name the import was
    given that carries the record's date, description, stored amount, kind
    and stored balance. *)
Theorem X11_imported_records_are_listed :
  forall order_by read_csv path name number display_name df c,
    orders_by_date_desc order_by ->
    faults c = [] ->
    integrity (working c) -> integrity (committed c) ->
    read_csv path = Ok df ->
    taggable df = true ->
    exists r c1 rows c2,
      import_csv_data read_csv path name number display_name c = (Ok r, c1) /\
      success r = true /\
      get_all_transactions order_by c1 = (Ok rows, c2) /\
      length rows =
        (length (transactions (working c)) + transactions_imported r)%nat /\
      forall rec,
        In rec (records_of df) ->
        exists v,
          In v rows /\
          view_bank_name v = name /\
          view_transaction_date v = rec_date rec /\
          view_description v = rec_description rec /\
          Some (view_amount v) = sqlite_real (rec_amount rec) /\
          view_transaction_type v = rec_type rec /\
          view_balance_after v = match rec_balance rec with
                                 | Some b => sqlite_real b
                                 | None => None
                                 end.
Proof.
  intros order_by read_csv path name number display_name df c
         Hord Hq Hiw Hic Hread Htag.
  destruct (import_csv_data_quiet read_csv path name number display_name df c
              Hq Hread Htag)
    as (b & a & accs & new & t & c1 & Hrun & Hq1 & Hclean & Hfb & _ & Hfa &
        _ & Htx & Hst & Hacc).
  pose proof (import_csv_data_keeps_integrity read_csv path name number
                display_name c Hiw Hic) as [Hint _].
  rewrite Hrun in Hint. simpl in Hint.
  assert (Hlist : exists rows c2,
             get_all_transactions order_by c1 = (Ok rows, c2) /\
             Permutation (listing (working c1)) rows /\
             length rows = length (transactions (working c1))).
  { destruct Hint as [Hids Href].
    unfold get_all_transactions, bind, execute, get_working, ret.
    rewrite Hq1. eexists. eexists. split; [reflexivity |]. simpl.
    match goal with
    | |- context [order_by ?X ?key ?l] =>
        destruct (Hord X key l) as [Hperm _];
        set (ordered := order_by X key l) in *
    end.
    assert (Hp : Permutation (listing (working c1))
                   (map transaction_view ordered)).
    { rewrite <- (join_is_listing _ Hids). apply Permutation_map.
      exact Hperm. }
    split; [exact Hp |].
    rewrite <- (Permutation_length Hp). apply listing_length. exact Href. }
  destruct Hlist as (rows & c2 & Hget & Hperm & Hlen).
  eexists. exists c1, rows, c2.
  split; [exact Hrun |]. split; [reflexivity |]. split; [exact Hget |].
  rewrite Hclean in *. simpl.
  split.
  { rewrite Hlen, Htx, length_app.
    rewrite (Forall2_length Hst). reflexivity. }
  intros rec Hrec.
  destruct (Forall2_in_left _ _ _ _ Hst Hrec) as (tx & Hin & Hstores).
  assert (Htin : In tx (transactions (committed c1)))
    by (rewrite Htx; apply in_or_app; right; exact Hin).
  destruct Hint as [(Hnb & Hna & _) Href].
  destruct (listing_resolves _ tx Href Htin)
    as (a' & b' & Hfa' & Hfb' & Hina' & Hinb' & Hida' & Hidb').
  destruct Hstores as (Haid & Hdate & Hdescr & Hamt & Htype & _ & Hbal).
  (* the account found by key is the account the rows point to *)
  assert (Hkey : exists a2,
             In a2 (accounts (committed c1)) /\
             account_keyed (bank_id b) number a2 = true /\
             account_id a2 = account_id a).
  { destruct (0 <? length (records_of df))%nat.
    - destruct (recomputed_find (account_id a) (transactions (committed c1))
                  accs t (bank_id b) number a Hfa) as (a2 & Hf2 & Hid2).
      rewrite <- Hacc in Hf2. apply find_some in Hf2.
      exists a2. tauto.
    - rewrite <- Hacc in Hfa. apply find_some in Hfa. exists a. tauto. }
  destruct Hkey as (a2 & Hin2 & Hkey2 & Hid2).
  assert (a' = a2)
    by (apply (NoDup_map_injective account_id _ _ _ Hna Hina' Hin2);
        congruence).
  subst a2.
  unfold account_keyed in Hkey2. apply andb_true_iff in Hkey2.
  destruct Hkey2 as [Hbid _]. apply Z.eqb_eq in Hbid.
  apply find_some in Hfb. destruct Hfb as [Hinb Hname].
  assert (b' = b)
    by (apply (NoDup_map_injective bank_id _ _ _ Hnb Hinb' Hinb);
        congruence).
  subst b'. unfold bank_named in Hname. apply String.eqb_eq in Hname.
  exists (transaction_view (tx, a', b)). split.
  - apply (Permutation_in _ Hperm). unfold listing. apply in_flat_map.
    exists tx. split; [exact Htin |]. rewrite Hfa', Hfb'. left. reflexivity.
  - simpl. repeat split; assumption.
Qed.

Lemma X11_imported_records_witness :
  orders_by_date_desc scan_order /\
  faults Examples.ledger = [] /\
  integrity (working Examples.ledger) /\
  integrity (committed Examples.ledger) /\
  Examples.read_csv "malformed.csv" = Ok Examples.malformed /\
  taggable Examples.malformed = true /\
  exists r c1 rows c2,
    import_csv_data Examples.read_csv "malformed.csv" "Other Bank" "42" None
      Examples.ledger = (Ok r, c1) /\
    success r = true /\
    get_all_transactions scan_order c1 = (Ok rows, c2) /\
    length rows =
      (length (transactions (working Examples.ledger)) +
       transactions_imported r)%nat /\
    forall rec,
      In rec (records_of Examples.malformed) ->
      exists v,
        In v rows /\
        view_bank_name v = "Other Bank" /\
        view_transaction_date v = rec_date rec /\
        view_description v = rec_description rec /\
        Some (view_amount v) = sqlite_real (rec_amount rec) /\
        view_transaction_type v = rec_type rec /\
        view_balance_after v = match rec_balance rec with
                               | Some b => sqlite_real b
                               | None => None
                               end.
Proof.
  split; [exact scan_order_orders |].
  split; [reflexivity |]. split; [exact ledger_integrity |].
  split; [exact ledger_integrity |]. split; [reflexivity |].
  split; [reflexivity |].
  exact (X11_imported_records_are_listed scan_order Examples.read_csv
           "malformed.csv" "Other Bank" "42" None Examples.malformed
           Examples.ledger scan_order_orders eq_refl ledger_integrity
           ledger_integrity eq_refl eq_refl).
Defined.

(** * The command line *)

Lemma init_keeps_store c :
  working c = committed c ->
  working (snd (init c)) = working c /\
  committed (snd (init c)) = committed c.
Proof.
  intros Hclean.
  assert (H : keeps_invariant (fun s => s = working c) init).
  { unfold init, create_tables.
    do 7 (apply keeps_bind; [apply keeps_execute | intros _]).
    apply keeps_commit. }
  destruct (H c eq_refl (eq_sym Hclean)) as [Hw Hc].
  split; congruence.
Qed.

Lemma init_quiet c :
  faults c = [] ->
  exists c1,
    init c = (Ok tt, c1) /\ faults c1 = [] /\
    working c1 = working c /\ committed c1 = working c.
Proof.
  intros Hq. unfold init, create_tables, commit, bind, execute.
  rewrite Hq. simpl. eexists. repeat split.
Qed.

(** A sequenced command returned: either its first part raised, or it
    returned and the rest ran. *)
Lemma cmd_bind_inv {A B : Type} (m : Cmd A) (k : A -> Cmd B) c out res c' :
  cmd_bind m k c = (out, res, c') ->
  (exists e, m c = (out, inl e, c') /\ res = inl e) \/
  (exists o a c1 o',
      m c = (o, inr a, c1) /\ k a c1 = (o', res, c') /\
      out = (o ++ o')%list).
Proof.
  unfold cmd_bind. destruct (m c) as [[o [e | a]] c1].
  - intros H. inversion H; subst. left. exists e. auto.
  - destruct (k a c1) as [[o' r] c2] eqn:Hk. intros H. inversion H; subst.
    right. exists o, a, c1, o'. auto.
Qed.

Lemma cmd_print_bind {B : Type} line (k : unit -> Cmd B) c out res c' :
  cmd_bind (print line) k c = (out, res, c') ->
  exists o, k tt c = (o, res, c') /\ out = line :: o.
Proof.
  unfold cmd_bind, print. destruct (k tt c) as [[o r] c2].
  intros H. inversion H; subst. exists o. auto.
Qed.

Lemma cmd_ret_bind {A B : Type} (a : A) (k : A -> Cmd B) c out res c' :
  cmd_bind (cmd_ret a) k c = (out, res, c') -> k a c = (out, res, c').
Proof.
  unfold cmd_bind, cmd_ret. destruct (k a c) as [[o r] c2].
  intros H. inversion H; subst. reflexivity.
Qed.

Lemma cmd_db_bind {A B : Type} (m : M A) (k : A -> Cmd B) c out res c' :
  cmd_bind (db m) k c = (out, res, c') ->
  match m c with
  | (inl e, c1) => out = [] /\ res = inl (Database e) /\ c' = c1
  | (inr a, c1) => k a c1 = (out, res, c')
  end.
Proof.
  unfold cmd_bind, db. destruct (m c) as [[e | a] c1].
  - intros H. inversion H; subst. auto.
  - destruct (k a c1) as [[o r] c2]. intros H. inversion H; subst.
    reflexivity.
Qed.

Lemma cmd_bind_known {A B : Type} (m : Cmd A) (k : A -> Cmd B)
    c o a c1 out res c' :
  m c = (o, inr a, c1) ->
  cmd_bind m k c = (out, res, c') ->
  exists o', k a c1 = (o', res, c') /\ out = (o ++ o')%list.
Proof.
  unfold cmd_bind. intros ->. destruct (k a c1) as [[o' r] c2].
  intros H. inversion H; subst. exists o'. auto.
Qed.

Lemma print_each_total {A : Type} (text : A -> string) rows c :
  print_each (fun r => inr (text r)) rows c = (map text rows, inr tt, c).
Proof.
  induction rows as [| r rows IH]; simpl; [reflexivity |].
  unfold cmd_bind, print. rewrite IH. reflexivity.
Qed.

Lemma report_success r c :
  success r = true ->
  exists tail,
    report r c =
      ((nl ++ "[SUCCESS] Import successful!") ::
       ("   Transactions imported: " ++ str_of_nat (transactions_imported r))
       :: tail, inr tt, c).
Proof.
  intros Hs. unfold report. rewrite Hs.
  unfold cmd_bind at 1 2. unfold print at 1 2. cbv beta iota.
  destruct (errors r) as [| x es].
  - unfold cmd_ret. eexists. reflexivity.
  - unfold cmd_bind at 1 2. unfold print at 1. cbv beta iota.
    rewrite (print_each_total (fun e => "     - " ++ e)). cbv beta iota.
    destruct (5 <? length (x :: es))%nat; unfold print, cmd_ret;
      eexists; reflexivity.
Qed.

(** X13. The exit status tells what was committed. Started on a database
    with nothing pending, whatever the files hold and whichever statements
    fail, [import_csv_file] leaves nothing pending, and: when it returns
    [True], the committed transactions are those from before followed by
    new ones, and the line that reports the count gives their number; when
    it returns [False], no transaction was committed, and the reason was
    printed; it is left by an exception only when the database could not
    be opened, and then no transaction was committed either. When the path
    does not exist it returns [False] after one line, without opening the
    database. *)
Theorem X13_exit_status_tells_what_was_committed :
  forall path_exists read_csv csv_path bank_name account_number account_name
         c out res c',
    working c = committed c ->
    import_csv_file path_exists read_csv csv_path bank_name account_number
      account_name c = (out, res, c') ->
    working c' = committed c' /\
    match res with
    | inr true =>
        exists added,
          transactions (committed c') =
            (transactions (committed c) ++ added)%list /\
          In ("   Transactions imported: " ++ str_of_nat (length added)) out
    | inr false =>
        transactions (committed c') = transactions (committed c) /\
        (path_exists csv_path = false /\ c' = c /\
         out = ["Error: CSV file '" ++ csv_path ++ "' not found."] \/
         path_exists csv_path = true /\
         exists msg, In (nl ++ "[ERROR] Import failed: " ++ msg) out)
    | inl e =>
        transactions (committed c') = transactions (committed c) /\
        exists e', e = Database e' /\ fst (init c) = Raise e'
    end.
Proof.
  intros path_exists read_csv csv_path bank_name account_number account_name
         c out res c' Hclean Hrun.
  unfold import_csv_file in Hrun.
  destruct (path_exists csv_path) eqn:Hex; cbn [negb] in Hrun.
  2:{ unfold cmd_bind, print, cmd_ret in Hrun. inversion Hrun; subst.
      split; [exact Hclean |]. split; [reflexivity |]. left. auto. }
  destruct (init_keeps_store c Hclean) as [Hiw Hic].
  apply cmd_print_bind in Hrun. destruct Hrun as (o1 & Hrun & ->).
  apply cmd_print_bind in Hrun. destruct Hrun as (o2 & Hrun & ->).
  apply cmd_print_bind in Hrun. destruct Hrun as (o3 & Hrun & ->).
  assert (Hrest :
    exists pre o4,
      (db init ;;
       result <- db (import_csv_data read_csv csv_path bank_name
                       account_number account_name) ;;
       report result ;; db close ;; cmd_ret (success result))%cmd c =
        (o4, res, c') /\
      o3 = (pre ++ o4)%list).
  { destruct account_name as [[| a n] |].
    - apply cmd_ret_bind in Hrun. exists [], o3. auto.
    - apply cmd_print_bind in Hrun. destruct Hrun as (o4 & Hrun & ->).
      exists ["Account Name: " ++ String a n], o4. auto.
    - apply cmd_ret_bind in Hrun. exists [], o3. auto. }
  clear Hrun. destruct Hrest as (pre & o4 & Hrun & ->).
  apply cmd_db_bind in Hrun.
  destruct (init c) as [[e' | u] c1] eqn:Hinit; simpl in Hiw, Hic.
  { (* the database could not be opened *)
    destruct Hrun as (-> & -> & ->).
    split; [congruence |]. split; [rewrite Hic; reflexivity |].
    exists e'. split; reflexivity. }
  assert (Hclean1 : working c1 = committed c1) by congruence.
  pose proof (import_csv_data_ends_clean read_csv csv_path bank_name
                account_number account_name c1) as Hend.
  cbv zeta in Hend.
  apply cmd_db_bind in Hrun.
  destruct (import_csv_data read_csv csv_path bank_name account_number
              account_name c1) as [[e | r] c2] eqn:Himp;
    simpl in Hend; destruct Hend as (Hclean2 & r0 & Hr0 & Hshape);
    [discriminate |].
  inversion Hr0; subst r0. clear Hr0.
  destruct (import_csv_data_appends read_csv csv_path bank_name account_number
              account_name c1 r c2 Hclean1 Himp)
    as ((added & Hadd & Hlen & _) & Hfail & _).
  destruct Hshape as [(Hs & _) | (Hs & Herr & _)].
  - (* the import succeeded *)
    destruct (report_success r c2 Hs) as (tail & Hrep).
    apply (cmd_bind_known _ _ _ _ _ _ _ _ _ Hrep) in Hrun.
    destruct Hrun as (o5 & Hrun & ->).
    apply cmd_db_bind in Hrun. unfold close in Hrun. cbv iota in Hrun.
    unfold cmd_ret in Hrun. inversion Hrun; subst. rewrite Hs. simpl.
    split; [reflexivity |].
    exists added. split; [rewrite Hadd, Hic; reflexivity |].
    rewrite Hlen. right. right. right.
    apply in_or_app. right. right. left. reflexivity.
  - (* the import failed *)
    destruct (error r) as [msg |] eqn:Hmsg; [| congruence].
    assert (Hrep : report r c2 =
                     ([nl ++ "[ERROR] Import failed: " ++ msg], inr tt, c2))
      by (unfold report; rewrite Hs, Hmsg; reflexivity).
    apply (cmd_bind_known _ _ _ _ _ _ _ _ _ Hrep) in Hrun.
    destruct Hrun as (o5 & Hrun & ->).
    apply cmd_db_bind in Hrun. unfold close in Hrun. cbv iota in Hrun.
    unfold cmd_ret in Hrun. inversion Hrun; subst. rewrite Hs. simpl.
    split; [reflexivity |]. split.
    + rewrite (Hfail Hs), Hic. reflexivity.
    + right. split; [reflexivity |]. exists msg.
      right. right. right. apply in_or_app. right. left. reflexivity.
Qed.

Lemma X13_exit_status_witness :
  working fresh_conn = committed fresh_conn /\
  exists out res c',
    import_csv_file (fun _ => true) Examples.read_csv "malformed.csv"
      "Test Bank" "1234567890" None fresh_conn = (out, res, c') /\
    working c' = committed c' /\
    match res with
    | inr true =>
        exists added,
          transactions (committed c') =
            (transactions (committed fresh_conn) ++ added)%list /\
          In ("   Transactions imported: " ++ str_of_nat (length added)) out
    | inr false =>
        transactions (committed c') = transactions (committed fresh_conn) /\
        ((fun _ : string => true) "malformed.csv" = false /\
         c' = fresh_conn /\
         out = ["Error: CSV file '" ++ "malformed.csv" ++ "' not found."] \/
         (fun _ : string => true) "malformed.csv" = true /\
         exists msg, In (nl ++ "[ERROR] Import failed: " ++ msg) out)
    | inl e =>
        transactions (committed c') = transactions (committed fresh_conn) /\
        exists e', e = Database e' /\ fst (init fresh_conn) = Raise e'
    end.
Proof.
  split; [reflexivity |].
  destruct (import_csv_file (fun _ => true) Examples.read_csv "malformed.csv"
              "Test Bank" "1234567890" None fresh_conn)
    as [[out res] c'] eqn:Hrun.
  exists out, res, c'. split; [reflexivity |].
  exact (X13_exit_status_tells_what_was_committed (fun _ => true)
           Examples.read_csv "malformed.csv" "Test Bank" "1234567890" None
           fresh_conn out res c' eq_refl Hrun).
Defined.

(** ** Listing *)

Lemma cmd_bind_run {A B : Type} (m : Cmd A) (k : A -> Cmd B)
    c o a c1 o' r c2 :
  m c = (o, inr a, c1) -> k a c1 = (o', r, c2) ->
  cmd_bind m k c = ((o ++ o')%list, r, c2).
Proof. unfold cmd_bind. intros -> ->. reflexivity. Qed.

Lemma cmd_bind_stops {A B : Type} (m : Cmd A) (k : A -> Cmd B) c o e c1 :
  m c = (o, inl e, c1) -> cmd_bind m k c = (o, inl e, c1).
Proof. unfold cmd_bind. intros ->. reflexivity. Qed.

Lemma db_run {A : Type} (m : M A) c a c1 :
  m c = (Ok a, c1) -> db m c = ([], inr a, c1).
Proof. unfold db. intros ->. reflexivity. Qed.

Lemma print_each_lines {A : Type} (line : A -> Uncaught + string) rows ls c :
  Forall2 (fun r l => line r = inr l) rows ls ->
  print_each line rows c = (ls, inr tt, c).
Proof.
  induction 1 as [| r l rows ls Hr _ IH]; simpl; [reflexivity |].
  rewrite Hr. unfold cmd_bind, print. rewrite IH. reflexivity.
Qed.

Lemma lines_exist {A : Type} (line : A -> Uncaught + string) rows :
  (forall r, In r rows -> exists l, line r = inr l) ->
  exists ls, Forall2 (fun r l => line r = inr l) rows ls.
Proof.
  induction rows as [| r rows IH]; intros H.
  - exists []. constructor.
  - destruct (H r (or_introl eq_refl)) as (l & Hl).
    destruct IH as (ls & Hls); [intros x Hx; apply H; right; exact Hx |].
    exists (l :: ls). constructor; assumption.
Qed.

(** A row whose line cannot be formatted stops the loop; the lines of the
    rows before it were printed. *)
Lemma print_each_raises {A : Type} (line : A -> Uncaught + string) e rows c :
  (forall r e', line r = inl e' -> e' = e) ->
  (exists r, In r rows /\ line r = inl e) ->
  exists ls,
    print_each line rows c = (ls, inl e, c) /\
    (length ls < length rows)%nat.
Proof.
  intros Honly. induction rows as [| r rows IH]; intros (x & Hin & Hx).
  - contradiction.
  - simpl. destruct (line r) as [e' | l] eqn:Hr.
    + rewrite (Honly r e' Hr). exists []. split; [reflexivity | simpl; lia].
    + destruct Hin as [-> | Hin]; [congruence |].
      destruct IH as (ls & Hls & Hlen); [exists x; auto |].
      unfold cmd_bind, print. rewrite Hls.
      exists (l :: ls). split; [reflexivity | simpl; lia].
Qed.

Lemma listing_names s v :
  In v (listing s) ->
  exists a, In a (accounts s) /\ view_account_name v = account_name a.
Proof.
  unfold listing. intros H. apply in_flat_map in H.
  destruct H as (t & _ & H).
  destruct (account_of s t) as [a |] eqn:Ea; [| contradiction].
  destruct (bank_of s a) as [b |]; [| contradiction].
  destruct H as [<- | []].
  unfold account_of in Ea. apply find_some in Ea.
  exists a. split; [apply Ea | reflexivity].
Qed.

Lemma history_names s keep v :
  In v (history s keep) ->
  exists a, In a (accounts s) /\ hist_account_name v = account_name a.
Proof.
  unfold history. intros H. apply in_flat_map in H.
  destruct H as (t & _ & H).
  destruct (account_of s t) as [a |] eqn:Ea; [| contradiction].
  destruct H as [<- | []].
  unfold account_of in Ea. apply find_some in Ea.
  exists a. split; [apply Ea | reflexivity].
Qed.

Lemma firstn_prefix {A : Type} n (l : list A) :
  exists rest, l = (firstn n l ++ rest)%list.
Proof. exists (skipn n l). symmetry. apply firstn_skipn. Qed.

(** X14. One line per transaction shown. On a database with nothing
    pending, ids that are keys, references that resolve and a name on every
    account, when no statement fails, [list_transactions] ends normally
    and leaves the store as it was. It prints a title with the number of
    transactions shown, then [No transactions found.] when that number is
    0, and otherwise a header, a rule and one line per transaction shown.
    The transactions shown are the first ones of the whole listing (every
    transaction once, no date after an earlier one): all of them without a
    limit and with the limit 0, the first n with a limit n > 0, and all but
    the last -n with a limit n < 0. *)
Theorem X14_list_prints_one_line_per_transaction :
  forall order_by limit c,
    orders_by_date_desc order_by ->
    faults c = [] ->
    working c = committed c ->
    integrity (working c) ->
    (forall a, In a (accounts (working c)) -> account_name a <> None) ->
    exists rows shown rest lines table c',
      Permutation (listing (working c)) rows /\
      StronglySorted (not_before view_transaction_date) rows /\
      rows = (shown ++ rest)%list /\
      length shown =
        match limit with
        | None => length rows
        | Some n =>
            if n =? 0 then length rows
            else if 0 <? n then Nat.min (Z.to_nat n) (length rows)
            else (length rows - Z.to_nat (- n))%nat
        end /\
      Forall2 (fun v l => transaction_line v = inr l) shown lines /\
      list_transactions order_by limit c =
        ((nl ++ "[DATA] All Transactions (" ++ str_of_nat (length shown) ++
          " total)") :: table, inr tt, c') /\
      (shown = [] -> table = ["No transactions found."]) /\
      (shown <> [] ->
       exists header, table = header :: repeat_char "-" 100 :: lines) /\
      working c' = working c /\ committed c' = committed c.
Proof.
  intros order_by limit c Hord Hq Hclean Hint Hnamed.
  destruct (init_quiet c Hq) as (c1 & Hinit & Hq1 & Hw1 & Hc1).
  assert (Hint1 : integrity (working c1)) by (rewrite Hw1; exact Hint).
  destruct (get_all_transactions_exact order_by c1 Hord Hq1 Hint1)
    as (rows & c2 & Hget & Hw2 & Hc2 & Hperm & _ & Hsorted).
  rewrite Hw1 in Hperm.
  set (shown := match limit with
                | Some n => if negb (n =? 0) then slice_to n rows else rows
                | None => rows
                end).
  assert (Hprefix : exists rest, rows = (shown ++ rest)%list).
  { unfold shown, slice_to.
    destruct limit as [n |]; [| exists []; rewrite app_nil_r; reflexivity].
    destruct (n =? 0); simpl;
      [exists []; rewrite app_nil_r; reflexivity |].
    destruct (0 <=? n); apply firstn_prefix. }
  destruct Hprefix as (rest & Hrows).
  assert (Hlines : exists lines,
             Forall2 (fun v l => transaction_line v = inr l) shown lines).
  { apply lines_exist. intros v Hv.
    assert (Hin : In v (listing (working c))).
    { apply (Permutation_in _ (Permutation_sym Hperm)). rewrite Hrows.
      apply in_or_app. left. exact Hv. }
    destruct (listing_names _ _ Hin) as (a & Ha & Hname).
    unfold transaction_line. rewrite Hname.
    destruct (account_name a) as [n |] eqn:En;
      [| exfalso; apply (Hnamed a Ha En)].
    simpl. eexists. reflexivity. }
  destruct Hlines as (lines & Hlines).
  exists rows, shown, rest, lines.
  assert (Hprint : exists table,
             print_transactions shown c2 = (table, inr tt, c2) /\
             (shown = [] -> table = ["No transactions found."]) /\
             (shown <> [] ->
              exists header, table = header :: repeat_char "-" 100 :: lines)).
  { unfold print_transactions. destruct shown as [| v vs] eqn:Hshown.
    - eexists. split; [reflexivity |]. split; [reflexivity | congruence].
    - unfold cmd_bind at 1 2. unfold print at 1 2. cbv beta iota.
      rewrite (print_each_lines _ _ _ _ Hlines).
      eexists. split; [reflexivity |]. split; [discriminate |].
      intros _. eexists. reflexivity. }
  destruct Hprint as (table & Hprint & Hnone & Hsome).
  exists table,
    (mkConn (committed c2) (committed c2) (faults c2) (clock c2)).
  split; [exact Hperm |]. split; [exact Hsorted |]. split; [exact Hrows |].
  split.
  { unfold shown, slice_to. destruct limit as [n |]; [| reflexivity].
    destruct (n =? 0) eqn:En; simpl; [reflexivity |].
    apply Z.eqb_neq in En.
    destruct (0 <=? n) eqn:Ep.
    - apply Z.leb_le in Ep.
      assert (H0 : (0 <? n) = true) by (apply Z.ltb_lt; lia).
      rewrite H0. apply length_firstn.
    - apply Z.leb_gt in Ep.
      assert (H0 : (0 <? n) = false) by (apply Z.ltb_ge; lia).
      rewrite H0, length_firstn. lia. }
  split; [exact Hlines |].
  pose (title := nl ++ "[DATA] All Transactions (" ++
                 str_of_nat (length shown) ++ " total)").
  assert (Hrun :
    list_transactions order_by limit c =
      (([] ++ [] ++ [title] ++ table ++ [])%list, inr tt,
       mkConn (committed c2) (committed c2) (faults c2) (clock c2))).
  { unfold list_transactions.
    eapply cmd_bind_run; [apply db_run; exact Hinit |].
    eapply cmd_bind_run; [apply db_run; exact Hget |].
    eapply cmd_bind_run; [reflexivity |].
    eapply cmd_bind_run; [exact Hprint |].
    reflexivity. }
  simpl in Hrun. rewrite app_nil_r in Hrun.
  split; [exact Hrun |].
  split; [exact Hnone |]. split; [exact Hsome |].
  simpl. split; congruence.
Qed.

Lemma ledger_named :
  forall a, In a (accounts (working Examples.ledger)) -> account_name a <> None.
Proof.
  intros a Hin. simpl in Hin.
  repeat (destruct Hin as [<- | Hin]; [discriminate |]). contradiction.
Qed.

Lemma X14_list_witness :
  orders_by_date_desc scan_order /\
  faults Examples.ledger = [] /\
  working Examples.ledger = committed Examples.ledger /\
  integrity (working Examples.ledger) /\
  (forall a, In a (accounts (working Examples.ledger)) ->
             account_name a <> None) /\
  exists shown lines table c',
    length shown = 3%nat /\
    Forall2 (fun v l => transaction_line v = inr l) shown lines /\
    list_transactions scan_order (Some 3) Examples.ledger =
      ((nl ++ "[DATA] All Transactions (" ++ str_of_nat (length shown) ++
        " total)") :: table, inr tt, c') /\
    (shown <> [] ->
     exists header, table = header :: repeat_char "-" 100 :: lines).
Proof.
  split; [exact scan_order_orders |].
  split; [reflexivity |]. split; [reflexivity |].
  split; [exact ledger_integrity |]. split; [exact ledger_named |].
  destruct (X14_list_prints_one_line_per_transaction scan_order (Some 3)
              Examples.ledger scan_order_orders eq_refl eq_refl
              ledger_integrity ledger_named)
    as (rows & shown & rest & lines & table & c' & Hperm & _ & _ & Hlen &
        Hlines & Hrun & _ & Hsome & _).
  exists shown, lines, table, c'.
  split; [| split; [exact Hlines | split; [exact Hrun | exact Hsome]]].
  rewrite Hlen. simpl. rewrite <- (Permutation_length Hperm). reflexivity.
Defined.

Lemma unnamed_line_fails v :
  view_account_name v = None ->
  transaction_line v =
    inl (TypeError "unsupported format string passed to NoneType.__format__").
Proof. intros H. unfold transaction_line. rewrite H. reflexivity. Qed.

Lemma transaction_line_error v e :
  transaction_line v = inl e ->
  e = TypeError "unsupported format string passed to NoneType.__format__".
Proof.
  unfold transaction_line.
  destruct (view_account_name v); simpl; intros H; inversion H. reflexivity.
Qed.

Lemma history_line_error v e :
  history_line v = inl e ->
  e = TypeError "unsupported format string passed to NoneType.__format__".
Proof.
  unfold history_line.
  destruct (hist_account_name v); simpl; intros H; inversion H. reflexivity.
Qed.

(** X15. An account without a name stops the listing. On a store whose ids
    are keys and whose references resolve, when no statement fails: if some
    transaction belongs to an account whose name is NULL (what
    [get_or_create_account] stores when it is given no name), both
    [list_transactions] and [show_balance_history], asked for everything,
    end in the [TypeError] of a format specification applied to [None],
    after the title, the header, the rule and the lines of the rows before
    the first such transaction; at least one transaction is not printed. *)
Theorem X15_unnamed_account_stops_the_listing :
  forall order_by c t a,
    orders_by_date_desc order_by ->
    faults c = [] ->
    integrity (working c) ->
    In t (transactions (working c)) ->
    account_of (working c) t = Some a ->
    account_name a = None ->
    let e :=
      TypeError "unsupported format string passed to NoneType.__format__" in
    exists title1 header1 rule1 lines1 c1 title2 header2 rule2 lines2 c2,
      list_transactions order_by None c =
        (title1 :: header1 :: rule1 :: lines1, inl e, c1) /\
      show_balance_history order_by None c =
        (title2 :: header2 :: rule2 :: lines2, inl e, c2) /\
      (length lines1 < length (transactions (working c)))%nat /\
      (length lines2 < length (transactions (working c)))%nat.
Proof.
  intros order_by c t a Hord Hq Hint Hin Ha Hname e.
  destruct (init_quiet c Hq) as (c1 & Hinit & Hq1 & Hw1 & Hc1).
  assert (Hint1 : integrity (working c1)) by (rewrite Hw1; exact Hint).
  destruct (listing_resolves _ t (proj2 Hint) Hin)
    as (a' & b & Ha' & Hb & _).
  assert (a' = a) by congruence. subst a'.
  (* the listing *)
  destruct (get_all_transactions_exact order_by c1 Hord Hq1 Hint1)
    as (rows & c2 & Hget & _ & _ & Hperm & Hlen & _).
  rewrite Hw1 in Hperm, Hlen.
  assert (Hv : In (transaction_view (t, a, b)) rows).
  { apply (Permutation_in _ Hperm). unfold listing. apply in_flat_map.
    exists t. split; [exact Hin |]. rewrite Ha, Hb. left. reflexivity. }
  destruct (print_each_raises transaction_line e rows c2
              transaction_line_error)
    as (lines1 & Hpr1 & Hlt1).
  { eexists. split; [exact Hv |]. apply unnamed_line_fails. exact Hname. }
  (* the history *)
  destruct (select_history_exact order_by (fun _ => true) c1 Hord Hq1 Hint1)
    as (hist & c3 & Hsel & _ & _ & Hperm2 & Hlen2 & _).
  rewrite Hw1 in Hperm2, Hlen2.
  assert (Hall : filter (fun _ : Transaction => true)
                   (transactions (working c)) = transactions (working c)).
  { clear. induction (transactions (working c)); simpl; congruence. }
  rewrite Hall in Hlen2.
  assert (Hv2 : In (balance_view (t, a)) hist).
  { apply (Permutation_in _ Hperm2). unfold history. apply in_flat_map.
    exists t. split; [rewrite Hall; exact Hin |]. rewrite Ha.
    left. reflexivity. }
  destruct (print_each_raises history_line e hist c3 history_line_error)
    as (lines2 & Hpr2 & Hlt2).
  { eexists. split; [exact Hv2 |]. unfold history_line. simpl.
    rewrite Hname. reflexivity. }
  do 4 eexists. exists c2. do 4 eexists. exists c3.
  split; [| split; [| split; [rewrite <- Hlen; exact Hlt1 |
                             rewrite <- Hlen2; exact Hlt2]]].
  - unfold list_transactions.
    eapply (cmd_bind_run _ _ _ [] tt c1); [apply db_run; exact Hinit |].
    eapply (cmd_bind_run _ _ _ [] rows c2); [apply db_run; exact Hget |].
    eapply (cmd_bind_run _ _ _ [_] tt c2); [reflexivity |].
    apply cmd_bind_stops.
    unfold print_transactions. destruct rows as [| v vs]; [contradiction |].
    eapply (cmd_bind_run _ _ _ [_] tt c2); [reflexivity |].
    eapply (cmd_bind_run _ _ _ [_] tt c2); [reflexivity |].
    exact Hpr1.
  - unfold show_balance_history.
    eapply (cmd_bind_run _ _ _ [] tt c1); [apply db_run; exact Hinit |].
    eapply (cmd_bind_run _ _ _ [] hist c3).
    { apply db_run. unfold get_account_balance_history. exact Hsel. }
    eapply (cmd_bind_run _ _ _ [_] tt c3); [reflexivity |].
    apply cmd_bind_stops.
    destruct hist as [| v vs]; [contradiction |].
    eapply (cmd_bind_run _ _ _ [_] tt c3); [reflexivity |].
    eapply (cmd_bind_run _ _ _ [_] tt c3); [reflexivity |].
    exact Hpr2.
Qed.

Lemma unnamed_integrity : integrity (working MoreExamples.unnamed).
Proof.
  split; [split; [| split] | split].
  - repeat constructor; simpl; intuition discriminate.
  - repeat constructor; simpl; intuition discriminate.
  - repeat constructor; simpl; intuition discriminate.
  - intros a Hin. simpl in Hin.
    repeat (destruct Hin as [<- | Hin]; [reflexivity |]). contradiction.
  - intros t Hin. simpl in Hin.
    repeat (destruct Hin as [<- | Hin]; [reflexivity |]). contradiction.
Qed.

Lemma X15_unnamed_account_witness :
  orders_by_date_desc scan_order /\
  faults MoreExamples.unnamed = [] /\
  integrity (working MoreExamples.unnamed) /\
  In MoreExamples.unnamed_deposit
    (transactions (working MoreExamples.unnamed)) /\
  account_of (working MoreExamples.unnamed) MoreExamples.unnamed_deposit =
    Some MoreExamples.unnamed_account /\
  account_name MoreExamples.unnamed_account = None /\
  let e :=
    TypeError "unsupported format string passed to NoneType.__format__" in
  exists title1 header1 rule1 lines1 c1 title2 header2 rule2 lines2 c2,
    list_transactions scan_order None MoreExamples.unnamed =
      (title1 :: header1 :: rule1 :: lines1, inl e, c1) /\
    show_balance_history scan_order None MoreExamples.unnamed =
      (title2 :: header2 :: rule2 :: lines2, inl e, c2) /\
    (length lines1 <
     length (transactions (working MoreExamples.unnamed)))%nat /\
    (length lines2 <
     length (transactions (working MoreExamples.unnamed)))%nat.
Proof.
  split; [exact scan_order_orders |]. split; [reflexivity |].
  split; [exact unnamed_integrity |].
  assert (Hin : In MoreExamples.unnamed_deposit
                  (transactions (working MoreExamples.unnamed)))
    by (left; reflexivity).
  split; [exact Hin |]. split; [reflexivity |]. split; [reflexivity |].
  exact (X15_unnamed_account_stops_the_listing scan_order
           MoreExamples.unnamed MoreExamples.unnamed_deposit
           MoreExamples.unnamed_account scan_order_orders eq_refl
           unnamed_integrity Hin eq_refl eq_refl).
Defined.

(** ** Amounts on display *)

(** The double nearest to a number of hundredths below 2^52 is finite, not
    zero, and fine enough to tell hundredths apart. *)
Lemma round_binary64_hundredths s n :
  0 < n < 2 ^ 52 ->
  exists m q,
    round_binary64 s n 100 = FFin s m q /\ q <= -7 /\ (0 < m)%N.
Proof.
  intros [Hpos Hlt]. unfold round_binary64.
  destruct (n =? 0) eqn:Hn0; [apply Z.eqb_eq in Hn0; lia |].
  change (Z.log2 100) with 6.
  assert (Hlog : 0 <= Z.log2 n < 52).
  { split; [apply Z.log2_nonneg | apply Z.log2_lt_pow2; lia]. }
  set (k := Z.log2 n - 6).
  set (lg := if ge_pow2 n 100 k then k else k - 1).
  assert (Hlg : -7 <= lg <= 45) by (unfold lg, k; destruct (ge_pow2 _ _ _); lia).
  replace (Z.max (lg - 52) (-1074)) with (lg - 52) by lia.
  set (q := lg - 52).
  assert (Hq : -59 <= q <= -7) by (unfold q; lia).
  destruct (q >=? 0) eqn:Hq0; [apply Z.geb_le in Hq0; lia |].
  set (num := n * 2 ^ (- q)).
  assert (Hpow_lo : 2 ^ 7 <= 2 ^ (- q)) by (apply Z.pow_le_mono_r; lia).
  assert (Hpow_hi : 2 ^ (- q) <= 2 ^ 59) by (apply Z.pow_le_mono_r; lia).
  assert (Hnum : 128 <= num < 2 ^ 111).
  { unfold num. change (2 ^ 7) with 128 in Hpow_lo.
    change (2 ^ 111) with (2 ^ 52 * 2 ^ 59). nia. }
  pose proof (Z.div_mod num 100 ltac:(lia)) as Hdm.
  pose proof (Z.mod_pos_bound num 100 ltac:(lia)) as Hr.
  set (qt := num / 100) in *. set (r := num mod 100) in *.
  set (m := match 2 * r ?= 100 with
            | Eq => if Z.odd qt then qt + 1 else qt
            | Lt => qt
            | Gt => qt + 1
            end).
  assert (Hm : 1 <= qt <= m /\ m <= qt + 1).
  { assert (1 <= qt) by lia.
    unfold m. destruct (2 * r ?= 100); [destruct (Z.odd qt) | |]; lia. }
  assert (Hbig : 2 ^ 111 + 1 <= 2 ^ (1024 - q)).
  { transitivity (2 ^ 112).
    - change (2 ^ 112) with (2 * 2 ^ 111). pose proof (Z.pow_pos_nonneg 2 111).
      lia.
    - apply Z.pow_le_mono_r; lia. }
  destruct (m >=? 2 ^ (1024 - q)) eqn:Hov.
  { apply Z.geb_le in Hov. lia. }
  exists (Z.to_N m), q. split; [reflexivity |]. split; [lia | lia].
Qed.

(** Read in hundredths, a double that close to [n] hundredths gives [n]. *)
Lemma hundredths_recovers n m q :
  0 <= n -> q <= -7 ->
  2 * Z.abs (n * 2 ^ (- q) - Z.of_N m * 100) <= 100 ->
  hundredths m q = n.
Proof.
  intros Hn Hq Hclose. unfold hundredths.
  destruct (q >=? 0) eqn:Hq0; [apply Z.geb_le in Hq0; lia |].
  assert (HP : 128 <= 2 ^ (- q)).
  { change 128 with (2 ^ 7). apply Z.pow_le_mono_r; lia. }
  set (P := 2 ^ (- q)) in *. set (M := Z.of_N m * 100) in *.
  cbv zeta.
  destruct (Z_le_gt_dec (n * P) M) as [Hge | Hlt].
  - assert (Hdiv : M / P = n)
      by (symmetry; apply (Z.div_unique M P n (M - n * P)); lia).
    assert (Hmod : M mod P = M - n * P)
      by (symmetry; apply (Z.mod_unique M P n (M - n * P)); lia).
    rewrite Hdiv, Hmod.
    destruct (Z.compare_spec (2 * (M - n * P)) P); [lia | reflexivity | lia].
  - assert (Hdiv : M / P = n - 1)
      by (symmetry; apply (Z.div_unique M P (n - 1) (M - (n - 1) * P)); lia).
    assert (Hmod : M mod P = M - (n - 1) * P)
      by (symmetry; apply (Z.mod_unique M P (n - 1) (M - (n - 1) * P)); lia).
    rewrite Hdiv, Hmod.
    destruct (Z.compare_spec (2 * (M - (n - 1) * P)) P); lia.
Qed.

(** X16. Amounts print to the cent. A decimal amount of [c] hundredths,
    [c] below 2^52, that is converted with [float], stored, read back and
    formatted with [,.2f] as [print_transactions] does, prints as exactly
    [c] hundredths: the whole part with thousands separators, a point, two
    digits, after a minus sign when the amount is negative and not zero.
    The binary representation in between costs nothing that shows. *)
Theorem X16_amounts_print_to_the_cent :
  forall s c,
    (c < 2 ^ 52)%N ->
    exists f g,
      of_Decimal (DFin s c (-2)) = Ok f /\
      sqlite_real f = Some g /\
      format_2f g =
        (if s && negb (c =? 0)%N then "-" else EmptyString) ++
        commas (str_of_Z (Z.of_N c / 100)) ++ "." ++
        pad_left 2 (str_of_Z (Z.of_N c mod 100)).
Proof.
  intros s c Hc.
  assert (Hof : of_Decimal (DFin s c (-2)) =
                Ok (round_binary64 s (Z.of_N c) 100)) by reflexivity.
  destruct (c =? 0)%N eqn:Hc0.
  - apply N.eqb_eq in Hc0. subst c.
    exists (FFin s 0 0), (FFin false 0 0).
    split; [reflexivity |]. split; [reflexivity |].
    rewrite andb_false_r. reflexivity.
  - apply N.eqb_neq in Hc0.
    assert (Hn : 0 < Z.of_N c < 2 ^ 52).
    { split; [lia |]. change (2 ^ 52) with (Z.of_N (2 ^ 52)). lia. }
    destruct (round_binary64_hundredths s (Z.of_N c) Hn)
      as (m & q & Hround & Hq & Hm).
    destruct (round_binary64_nearest s (Z.of_N c) 100 s m q
                ltac:(lia) ltac:(lia) Hround) as [_ Hclose].
    unfold half_ulp_close in Hclose.
    destruct (q >=? 0) eqn:Hq0; [apply Z.geb_le in Hq0; lia |].
    exists (FFin s m q), (FFin s m q).
    split; [rewrite Hof, Hround; reflexivity |].
    split; [destruct m; [lia | reflexivity] |].
    unfold format_2f.
    rewrite (hundredths_recovers (Z.of_N c) m q ltac:(lia) Hq Hclose).
    rewrite andb_true_r. reflexivity.
Qed.

Lemma X16_amounts_witness :
  (1051646 < 2 ^ 52)%N /\
  exists f g,
    of_Decimal (DFin true 1051646 (-2)) = Ok f /\
    sqlite_real f = Some g /\
    format_2f g = "-10,516.46".
Proof.
  assert (H : (1051646 < 2 ^ 52)%N) by reflexivity.
  split; [exact H |].
  destruct (X16_amounts_print_to_the_cent true 1051646 H)
    as (f & g & Hf & Hg & Hfmt).
  exists f, g. split; [exact Hf |]. split; [exact Hg |].
  rewrite Hfmt. reflexivity.
Defined.

(** * What the calls never do *)

Lemma same_account_refl a : same_account a a.
Proof. repeat split. Qed.

Lemma same_account_trans a1 a2 a3 :
  same_account a1 a2 -> same_account a2 a3 -> same_account a1 a3.
Proof. unfold same_account. intuition congruence. Qed.

Lemma extends_refl s : extends s s.
Proof.
  repeat split; auto. intros a Ha. exists a.
  split; [exact Ha | apply same_account_refl].
Qed.

Lemma extends_trans s1 s2 s3 :
  extends s1 s2 -> extends s2 s3 -> extends s1 s3.
Proof.
  intros (Hb1 & Ht1 & Ha1) (Hb2 & Ht2 & Ha2). repeat split; auto.
  intros a Ha. destruct (Ha1 a Ha) as (a2 & Hin2 & Hs2).
  destruct (Ha2 a2 Hin2) as (a3 & Hin3 & Hs3).
  exists a3. split; [exact Hin3 | eapply same_account_trans; eassumption].
Qed.

Lemma same_account_set_balance aid b t a :
  same_account a (set_balance aid b t a).
Proof.
  unfold set_balance. destruct (account_id a =? aid); repeat split.
Qed.

Section Persistence.
Variable s0 : Store.

Lemma insert_bank_keeps_rows name :
  keeps_invariant (extends s0) (insert_bank name).
Proof.
  intros c Hw Hc.
  unfold insert_bank, bind, execute, get_working, now, put_working, ret.
  destruct (faults c) as [| [msg |] fs]; simpl; split; try assumption;
    (eapply extends_trans; [exact Hw |]);
    (split; [| split]; simpl;
     [intros b Hb; apply in_or_app; left; exact Hb
     | auto
     | intros a Ha; exists a; split; [exact Ha | apply same_account_refl]]).
Qed.

Lemma insert_account_keeps_rows bid number name type :
  keeps_invariant (extends s0) (insert_account bid number name type).
Proof.
  intros c Hw Hc.
  unfold insert_account, bind, execute, get_working, now, put_working, ret,
    raise.
  destruct (faults c) as [| [msg |] fs]; simpl; try (split; assumption);
    destruct (existsb _ (banks (working c))) eqn:E; simpl;
    split; try assumption;
    (eapply extends_trans; [exact Hw |]);
    (split; [| split]; simpl;
     [auto
     | auto
     | intros a Ha; exists a;
       split; [apply in_or_app; left; exact Ha | apply same_account_refl]]).
Qed.

Lemma insert_transaction_keeps_rows aid date descr amt type bal :
  keeps_invariant (extends s0)
    (insert_transaction aid date descr amt type bal).
Proof.
  intros c Hw Hc.
  unfold insert_transaction, bind, execute, get_working, now, put_working,
    ret, raise.
  destruct (faults c) as [| [msg |] fs]; simpl; try (split; assumption);
    destruct (existsb _ (accounts (working c))) eqn:E; simpl;
    try (split; assumption);
    destruct (sqlite_real amt); simpl; split; try assumption;
    (eapply extends_trans; [exact Hw |]);
    (split; [| split]; simpl;
     [auto
     | intros t Ht; apply in_or_app; left; exact Ht
     | intros a Ha; exists a; split; [exact Ha | apply same_account_refl]]).
Qed.

Lemma update_account_balance_keeps_rows aid b :
  keeps_invariant (extends s0) (update_account_balance aid b).
Proof.
  intros c Hw Hc.
  unfold update_account_balance, bind, execute, get_working, now,
    put_working.
  destruct (faults c) as [| [msg |] fs]; simpl; split; try assumption;
    (eapply extends_trans; [exact Hw |]);
    (split; [| split]; simpl;
     [auto
     | auto
     | intros a Ha; exists (set_balance aid b (S (clock c)) a);
       split; [apply in_map; exact Ha | apply same_account_set_balance]]).
Qed.

Lemma get_or_create_bank_keeps_rows name :
  keeps_invariant (extends s0) (get_or_create_bank name).
Proof.
  unfold get_or_create_bank, select_bank_id.
  keeps_by ltac:(apply insert_bank_keeps_rows).
Qed.

Lemma get_or_create_account_keeps_rows bid number name type :
  keeps_invariant (extends s0) (get_or_create_account bid number name type).
Proof.
  unfold get_or_create_account, select_account_id.
  keeps_by ltac:(apply insert_account_keeps_rows).
Qed.

Lemma row_body_keeps_rows aid row :
  keeps_invariant (extends s0) (row_body aid row).
Proof.
  unfold row_body.
  keeps_by ltac:(apply insert_transaction_keeps_rows).
Qed.

End Persistence.

(** X17. Nothing committed is ever lost. On a connection with nothing
    pending, after [get_or_create_bank], [get_or_create_account] or
    [import_csv_data], for every argument and source and whichever
    statements fail, every bank row and every transaction row that was
    committed is still there unchanged, pending and committed, and so is
    every account row up to its balance and its update stamp: no call
    deletes a row, renames a bank or an account, or rewrites a
    transaction. *)
Theorem X17_nothing_committed_is_lost :
  forall c,
    working c = committed c ->
    (forall name,
        let c' := snd (get_or_create_bank name c) in
        extends (committed c) (working c') /\
        extends (committed c) (committed c')) /\
    (forall bid number name type,
        let c' := snd (get_or_create_account bid number name type c) in
        extends (committed c) (working c') /\
        extends (committed c) (committed c')) /\
    (forall read_csv path name number display_name,
        let c' := snd (import_csv_data read_csv path name number
                         display_name c) in
        extends (committed c) (working c') /\
        extends (committed c) (committed c')).
Proof.
  intros c Hclean.
  assert (Hw : extends (committed c) (working c))
    by (rewrite Hclean; apply extends_refl).
  pose proof (extends_refl (committed c)) as Hc.
  split; [| split].
  - intros name. apply get_or_create_bank_keeps_rows; assumption.
  - intros bid number name type.
    apply get_or_create_account_keeps_rows; assumption.
  - intros read_csv path name number display_name.
    apply (import_csv_data_keeps (extends (committed c))
             (get_or_create_bank_keeps_rows (committed c))
             (get_or_create_account_keeps_rows (committed c))
             (row_body_keeps_rows (committed c))
             (update_account_balance_keeps_rows (committed c)));
      assumption.
Qed.

Lemma X17_nothing_lost_witness :
  working Examples.ledger = committed Examples.ledger /\
  let c' := snd (import_csv_data Examples.read_csv "withdraw_all.csv"
                   "Test Bank" "1234567890" (Some "Renamed")
                   Examples.ledger) in
  extends (committed Examples.ledger) (working c') /\
  extends (committed Examples.ledger) (committed c').
Proof.
  split; [reflexivity |].
  exact (proj2 (proj2 (X17_nothing_committed_is_lost Examples.ledger
                         eq_refl))
           Examples.read_csv "withdraw_all.csv" "Test Bank" "1234567890"
           (Some "Renamed")).
Defined.

(** * Dates in order *)

Lemma string_compare_lt_trans s1 s2 s3 :
  String.compare s1 s2 = Lt -> String.compare s2 s3 = Lt ->
  String.compare s1 s3 = Lt.
Proof.
  intros H12 H23.
  rewrite String.compare_antisym in H12, H23 |- *.
  destruct (String.compare s2 s1) eqn:E21; try discriminate.
  destruct (String.compare s3 s2) eqn:E32; try discriminate.
  rewrite (string_compare_gt_trans _ _ _ E32 E21). reflexivity.
Qed.

Lemma all_days_step :
  forallb (pad_step 2) (map Z.of_nat (seq 0 (Z.to_nat 99))) = true.
Proof. vm_compute. reflexivity. Qed.

Section Padded.
Variables (w : nat) (top : Z).
Hypothesis top_pos : 0 < top.
Hypothesis steps :
  forallb (pad_step w) (map Z.of_nat (seq 0 (Z.to_nat top))) = true.

Lemma pad_step_in_range a :
  0 <= a < top -> pad_step w a = true.
Proof.
  intros H. rewrite forallb_forall in steps. apply steps.
  apply in_range_list. lia.
Qed.

Lemma pad_length a :
  0 <= a <= top -> String.length (pad_left w (str_of_Z a)) = w.
Proof.
  intros H. destruct (Z.eq_dec a (top)) as [-> | Hne].
  - assert (H0 : 0 <= top - 1 < top) by lia.
    apply pad_step_in_range in H0. unfold pad_step in H0.
    apply andb_true_iff in H0. destruct H0 as [H0 _].
    apply andb_true_iff in H0. destruct H0 as [_ H0].
    apply Nat.eqb_eq in H0.
    replace (top - 1 + 1) with (top) in H0 by lia.
    exact H0.
  - assert (H0 : 0 <= a < top) by lia.
    apply pad_step_in_range in H0. unfold pad_step in H0.
    apply andb_true_iff in H0. destruct H0 as [H0 _].
    apply andb_true_iff in H0. destruct H0 as [H0 _].
    apply Nat.eqb_eq in H0. exact H0.
Qed.

Lemma pad_next a :
  0 <= a < top ->
  String.compare (pad_left w (str_of_Z a)) (pad_left w (str_of_Z (a + 1)))
    = Lt.
Proof.
  intros H. apply pad_step_in_range in H. unfold pad_step in H.
  apply andb_true_iff in H. destruct H as [_ H].
  destruct (String.compare _ _); [discriminate | reflexivity | discriminate].
Qed.

Lemma pad_lt a b :
  0 <= a -> a < b -> b <= top ->
  String.compare (pad_left w (str_of_Z a)) (pad_left w (str_of_Z b)) = Lt.
Proof.
  intros Ha Hab Hb.
  replace b with (a + 1 + Z.of_nat (Z.to_nat (b - a - 1))) in * by lia.
  induction (Z.to_nat (b - a - 1)) as [| n IH].
  - replace (a + 1 + Z.of_nat 0) with (a + 1) by lia. apply pad_next. lia.
  - eapply string_compare_lt_trans; [apply IH; lia |].
    replace (a + 1 + Z.of_nat (S n)) with (a + 1 + Z.of_nat n + 1) by lia.
    apply pad_next. lia.
Qed.

(** Texts of one width are in the order of the numbers they write. *)
Lemma pad_compare a b :
  0 <= a <= top -> 0 <= b <= top ->
  String.compare (pad_left w (str_of_Z a)) (pad_left w (str_of_Z b)) =
    (a ?= b).
Proof.
  intros Ha Hb. destruct (Z.compare_spec a b) as [-> | Hlt | Hgt].
  - apply string_compare_refl.
  - apply pad_lt; lia.
  - rewrite String.compare_antisym, (pad_lt b a); [reflexivity | lia ..].
Qed.

End Padded.

Lemma string_compare_app s1 :
  forall s2 t1 t2,
    String.length s1 = String.length s2 ->
    String.compare (s1 ++ t1) (s2 ++ t2) =
      match String.compare s1 s2 with
      | Eq => String.compare t1 t2
      | c => c
      end.
Proof.
  induction s1 as [| a s1 IH]; intros [| b s2] t1 t2 Hlen;
    try discriminate; simpl.
  - reflexivity.
  - destruct (Ascii.compare a b); try reflexivity.
    apply IH. simpl in Hlen. congruence.
Qed.

Lemma ascii_compare_dval a b :
  Ascii.compare a b = (DateTime.dval a ?= DateTime.dval b).
Proof.
  unfold Ascii.compare, DateTime.dval, nat_of_ascii.
  rewrite !N_nat_Z, <- N2Z.inj_compare.
  destruct (Z.compare_spec (Z.of_N (N_of_ascii a)) (Z.of_N (N_of_ascii b)));
    symmetry;
    [apply Z.compare_eq_iff | apply Z.compare_lt_iff | apply Z.compare_gt_iff];
    lia.
Qed.

Lemma is_digit_dval a : is_digit a = true -> 0 <= DateTime.dval a <= 9.
Proof.
  unfold is_digit, DateTime.dval. intros H.
  apply andb_true_iff in H. destruct H as [H1 H2].
  apply Nat.leb_le in H1, H2. lia.
Qed.

(** The four-digit text of a year, digit by digit. *)
Lemma year_text_digits y :
  1 <= y <= 9999 ->
  exists a b c d,
    pad_left 4 (str_of_Z y) =
      String a (String b (String c (String d EmptyString))) /\
    0 <= DateTime.dval a <= 9 /\ 0 <= DateTime.dval b <= 9 /\
    0 <= DateTime.dval c <= 9 /\ 0 <= DateTime.dval d <= 9 /\
    y = 1000 * DateTime.dval a + 100 * DateTime.dval b +
        10 * DateTime.dval c + DateTime.dval d.
Proof.
  intros H. apply year_ok_in_range in H. unfold year_ok in H.
  destruct (pad_left 4 (str_of_Z y)) as [| a [| b [| c [| d r]]]];
    try discriminate.
  unfold DateTime.match_Y in H.
  destruct (is_digit a) eqn:Ha; [| discriminate].
  destruct (is_digit b) eqn:Hb; [| discriminate].
  destruct (is_digit c) eqn:Hc; [| discriminate].
  destruct (is_digit d) eqn:Hd; [| discriminate].
  cbn [andb] in H. destruct r; [| discriminate].
  apply andb_true_iff in H. destruct H as [H _].
  apply andb_true_iff in H. destruct H as [H _]. apply Z.eqb_eq in H.
  exists a, b, c, d. split; [reflexivity |].
  apply is_digit_dval in Ha, Hb, Hc, Hd. repeat split; lia.
Qed.

Lemma year_text_compare y1 y2 :
  1 <= y1 <= 9999 -> 1 <= y2 <= 9999 ->
  String.compare (pad_left 4 (str_of_Z y1)) (pad_left 4 (str_of_Z y2)) =
    (y1 ?= y2).
Proof.
  intros H1 H2.
  destruct (year_text_digits y1 H1)
    as (a1 & b1 & c1 & d1 & -> & Ha1 & Hb1 & Hc1 & Hd1 & Hy1).
  destruct (year_text_digits y2 H2)
    as (a2 & b2 & c2 & d2 & -> & Ha2 & Hb2 & Hc2 & Hd2 & Hy2).
  simpl. rewrite !ascii_compare_dval.
  destruct (Z.compare_spec (DateTime.dval a1) (DateTime.dval a2));
    [| symmetry; apply Z.compare_lt_iff; lia
     | symmetry; apply Z.compare_gt_iff; lia].
  destruct (Z.compare_spec (DateTime.dval b1) (DateTime.dval b2));
    [| symmetry; apply Z.compare_lt_iff; lia
     | symmetry; apply Z.compare_gt_iff; lia].
  destruct (Z.compare_spec (DateTime.dval c1) (DateTime.dval c2));
    [| symmetry; apply Z.compare_lt_iff; lia
     | symmetry; apply Z.compare_gt_iff; lia].
  destruct (Z.compare_spec (DateTime.dval d1) (DateTime.dval d2));
    symmetry;
    [apply Z.compare_eq_iff | apply Z.compare_lt_iff | apply Z.compare_gt_iff];
    lia.
Qed.

Lemma year_text_length y :
  1 <= y <= 9999 -> String.length (pad_left 4 (str_of_Z y)) = 4%nat.
Proof.
  intros H. destruct (year_text_digits y H) as (a & b & c & d & -> & _).
  reflexivity.
Qed.

(** From the year 1000 on, the texts [strftime] writes for two dates are
    in the order of the dates. *)
Lemma strftime_Ymd_compare d1 d2 :
  DateTime.valid_date d1 = true -> DateTime.valid_date d2 = true ->
  1000 <= DateTime.year d1 -> 1000 <= DateTime.year d2 ->
  String.compare (DateTime.strftime_Ymd d1) (DateTime.strftime_Ymd d2) =
    chronological d1 d2.
Proof.
  destruct d1 as [y1 m1 a1], d2 as [y2 m2 a2]. intros H1 H2 Hy1 Hy2.
  apply valid_date_ranges in H1, H2. simpl in Hy1, Hy2.
  unfold DateTime.strftime_Ymd, chronological. simpl.
  rewrite (year_text_plain y1) by lia.
  rewrite (year_text_plain y2) by lia.
  rewrite string_compare_app by (rewrite !year_text_length; lia).
  rewrite year_text_compare by lia.
  destruct (y1 ?= y2); try reflexivity.
  simpl.
  rewrite string_compare_app
    by (rewrite !(pad_length 2 99 eq_refl all_days_step); lia).
  rewrite (pad_compare 2 99 eq_refl all_days_step) by lia.
  destruct (m1 ?= m2); try reflexivity.
  simpl.
  apply (pad_compare 2 99 eq_refl all_days_step); lia.
Qed.

(** X18. Slash dates from the year 1000 on are stored in calendar order.
    When two texts are read by [parse_date] as month/day/year with years
    of 1000 or later, the texts it returns compare, byte by byte as the
    [ORDER BY transaction_date] of the queries and of the balance
    recompute compares them, exactly as the two dates compare in the
    calendar. Below the year 1000 the order is lost: the last day of 999
    is stored as a text that sorts after the first day of 1000. *)
Theorem X18_slash_dates_sort_chronologically :
  (forall s1 s2 d1 d2,
      contains "/" s1 = true -> contains "/" s2 = true ->
      DateTime.strptime_mdY s1 = Ok d1 ->
      DateTime.strptime_mdY s2 = Ok d2 ->
      1000 <= DateTime.year d1 -> 1000 <= DateTime.year d2 ->
      exists r1 r2,
        parse_date s1 = Ok r1 /\ parse_date s2 = Ok r2 /\
        String.compare r1 r2 = chronological d1 d2) /\
  (DateTime.strptime_mdY "12/31/0999" = Ok (DateTime.mkDate 999 12 31) /\
   DateTime.strptime_mdY "01/01/1000" = Ok (DateTime.mkDate 1000 1 1) /\
   chronological (DateTime.mkDate 999 12 31) (DateTime.mkDate 1000 1 1)
     = Lt /\
   parse_date "12/31/0999" = Ok "999-12-31" /\
   parse_date "01/01/1000" = Ok "1000-01-01" /\
   String.compare "999-12-31" "1000-01-01" = Gt).
Proof.
  split.
  - intros s1 s2 d1 d2 Hs1 Hs2 Hd1 Hd2 Hy1 Hy2.
    exists (DateTime.strftime_Ymd d1), (DateTime.strftime_Ymd d2).
    split; [unfold parse_date; rewrite Hs1, Hd1; reflexivity |].
    split; [unfold parse_date; rewrite Hs2, Hd2; reflexivity |].
    apply strftime_Ymd_compare; try assumption;
      eapply strptime_mdY_valid; eassumption.
  - vm_compute. repeat split; reflexivity.
Qed.

Lemma X18_slash_dates_witness :
  contains "/" "9/30/2024" = true /\ contains "/" "10/1/2024" = true /\
  DateTime.strptime_mdY "9/30/2024" = Ok (DateTime.mkDate 2024 9 30) /\
  DateTime.strptime_mdY "10/1/2024" = Ok (DateTime.mkDate 2024 10 1) /\
  1000 <= DateTime.year (DateTime.mkDate 2024 9 30) /\
  1000 <= DateTime.year (DateTime.mkDate 2024 10 1) /\
  exists r1 r2,
    parse_date "9/30/2024" = Ok r1 /\ parse_date "10/1/2024" = Ok r2 /\
    String.compare r1 r2 = Lt.
Proof.
  assert (H1 : 1000 <= DateTime.year (DateTime.mkDate 2024 9 30))
    by (simpl; lia).
  assert (H2 : 1000 <= DateTime.year (DateTime.mkDate 2024 10 1))
    by (simpl; lia).
  split; [reflexivity |]. split; [reflexivity |].
  split; [reflexivity |]. split; [reflexivity |].
  split; [exact H1 |]. split; [exact H2 |].
  exact (proj1 X18_slash_dates_sort_chronologically
           "9/30/2024" "10/1/2024"
           (DateTime.mkDate 2024 9 30) (DateTime.mkDate 2024 10 1)
           eq_refl eq_refl eq_refl eq_refl H1 H2).
Defined.
